(** * express.ts.typeorm: signed tokens, route loading and the guard chain

    A shallow embedding of [src/util.ts], [src/http/index.ts],
    [src/http/util.ts], [src/database/entities/User.ts], [src/Constants.ts]
    and the example route module, followed by the properties of the
    specification stated over it and by further properties of the code.

    Conventions of the embedding.
    - A JavaScript string is a [string]: a sequence of code units, each in
      0..255 (the Latin-1 part of UTF-16).  Byte buffers are [list N].
    - Code that throws returns a [completion]; code that logs appends to a
      list of [LogEntry].
    - Mutable closure variables and module variables are threaded explicitly
      through a state record.
    - Node, Express, nobi and the storage layer are not part of the sources:
      what the program needs from them is either written out from their
      documented behaviour (Buffer, the router's ordering) or taken as a
      [Variable] of a [Section] (the keyed signature, [StringToNumber], the
      user store, bcrypt).  The generators of random bytes and of snowflake
      identifiers are inputs of the functions that draw from them. *)

From Stdlib Require Import ZArith NArith QArith List String Ascii Bool Lia.
From Stdlib Require Import DecimalString DecimalPos DecimalN DecimalZ.
From stdpp Require Import base gmap list strings.
Import ListNotations.

Local Open Scope string_scope.
Local Set Warnings "-register-all".

(* ===================================================================== *)
(** * Part I: the program *)
(* ===================================================================== *)

(** ** JavaScript values *)

Module JS.

(** A JavaScript number: NaN, an infinity, or a finite value. *)
Inductive number : Type :=
| NaN
| Infinity (negative : bool)
| Finite (q : Q).

Definition isNaN (x : number) : bool :=
  match x with NaN => true | _ => false end.

Definition ofZ (z : Z) : number := Finite (inject_Z z).

(** The values a handler can be given or can send. *)
Inductive value : Type :=
| VUndefined
| VNull
| VBool (b : bool)
| VNum (n : number)
| VBigInt (z : Z)
| VStr (s : string)
| VFun (ref : nat)
| VObj (props : list (string * value))
| VArr (items : list value).

(** The [typeof] operator. *)
Definition typeof (v : value) : string :=
  match v with
  | VUndefined => "undefined"
  | VNull | VObj _ | VArr _ => "object"
  | VBool _ => "boolean"
  | VNum _ => "number"
  | VBigInt _ => "bigint"
  | VStr _ => "string"
  | VFun _ => "function"
  end.

(** ECMAScript ToBoolean: what [if (item)] tests. *)
Definition ToBoolean (v : value) : bool :=
  match v with
  | VUndefined | VNull => false
  | VBool b => b
  | VNum NaN => false
  | VNum (Infinity _) => true
  | VNum (Finite q) => negb (Qnum q =? 0)%Z
  | VBigInt z => negb (z =? 0)%Z
  | VStr s => negb (String.eqb s "")
  | VFun _ | VObj _ | VArr _ => true
  end.

(** What [JSON.stringify] keeps of a value: a property holding [undefined]
    or a function is left out, such an array element and a number that is
    not finite become [null]. *)
Fixpoint wire (v : value) : value :=
  match v with
  | VNum NaN | VNum (Infinity _) => VNull
  | VObj props =>
      VObj ((fix keep (ps : list (string * value)) : list (string * value) :=
               match ps with
               | [] => []
               | (k, VUndefined) :: rest | (k, VFun _) :: rest => keep rest
               | (k, x) :: rest => (k, wire x) :: keep rest
               end) props)
  | VArr items =>
      VArr (List.map (fun x => match x with
                               | VUndefined | VFun _ => VNull
                               | _ => wire x
                               end) items)
  | _ => v
  end.

(** The result of running code that may throw. *)
Inductive completion (A : Type) : Type :=
| Normal (a : A)
| Throw (message : string).
Arguments Normal {A} a.
Arguments Throw {A} message.

(** [TimeClip] of [Date.prototype.setTime]: the time value of the date, or
    [None] for an invalid date (time value NaN). *)
Definition maxTime : Z := 8640000000000000.

Definition TimeClip (t : number) : option Z :=
  match t with
  | NaN | Infinity _ => None
  | Finite q =>
      if (Z.abs (Qnum q) <=? maxTime * Zpos (Qden q))%Z
      then Some (Z.quot (Qnum q) (Zpos (Qden q)))
      else None
  end.

(** [n + ""] for an integral number below 10^21 in magnitude. *)
Definition NumberToString (n : Z) : string :=
  NilZero.string_of_int (Z.to_int n).

(** [String.prototype.split] with a one-character separator. *)
Fixpoint split (sep : ascii) (s : string) : list string :=
  match s with
  | EmptyString => [EmptyString]
  | String c rest =>
      if Ascii.eqb c sep then EmptyString :: split sep rest
      else match split sep rest with
           | chunk :: chunks => String c chunk :: chunks
           | [] => [String c EmptyString]
           end
  end.

(** [Array.prototype.join]. *)
Fixpoint join (sep : string) (chunks : list string) : string :=
  match chunks with
  | [] => ""
  | [chunk] => chunk
  | chunk :: rest => chunk ++ sep ++ join sep rest
  end.

End JS.

(** ** Logging *)

Inductive LogLevel : Type := LDebug | LWarn | LError | LConsole.

Definition LogEntry : Type := (LogLevel * string)%type.

(** ** Node's Buffer, as far as [encodeBase64] and [decodeBase64] use it *)

Module Buffer.

(** [Buffer.from(data)]: the UTF-8 bytes of a string. *)
Definition utf8 (c : ascii) : list N :=
  let n := N_of_ascii c in
  if (n <? 128)%N then [n] else [(192 + n / 64)%N; (128 + n mod 64)%N].

Definition from (data : string) : list N :=
  flat_map utf8 (list_ascii_of_string data).

(** [buf.toString("ascii")]: the high bit of every byte is cleared. *)
Definition toAscii (buf : list N) : string :=
  string_of_list_ascii (List.map (fun b => ascii_of_N (N.land b 127)) buf).

Definition alphabet : string :=
  "ABCDEFGHIJKLMNOPQRSTUVWXYZabcdefghijklmnopqrstuvwxyz0123456789+/".

Definition digit (n : N) : ascii :=
  match String.get (N.to_nat n) alphabet with
  | Some c => c
  | None => "="%char
  end.

(** [buf.toString("base64")]. *)
Fixpoint toBase64 (buf : list N) : string :=
  match buf with
  | [] => ""
  | [a] =>
      String (digit (a / 4)) (String (digit (a mod 4 * 16)) "==")
  | [a; b] =>
      String (digit (a / 4))
        (String (digit (a mod 4 * 16 + b / 16))
           (String (digit (b mod 16 * 4)) "="))
  | a :: b :: c :: rest =>
      String (digit (a / 4))
        (String (digit (a mod 4 * 16 + b / 16))
           (String (digit (b mod 16 * 4 + c / 64))
              (String (digit (c mod 64)) (toBase64 rest))))
  end%N.

Fixpoint index_of (c : ascii) (s : string) (i : N) : option N :=
  match s with
  | EmptyString => None
  | String d rest => if Ascii.eqb c d then Some i else index_of c rest (i + 1)%N
  end.

(** Node's [unbase64] table: the standard and the URL-safe alphabet. *)
Definition unbase64 (c : ascii) : option N :=
  if Ascii.eqb c "-" then Some 62%N
  else if Ascii.eqb c "_" then Some 63%N
  else index_of c alphabet 0.

(** The lenient reader of [Buffer.from(data, "base64")]: a character outside
    the alphabet is skipped, and ["="] ends the input. *)
Fixpoint sextets (data : string) : list N :=
  match data with
  | EmptyString => []
  | String c rest =>
      if Ascii.eqb c "=" then []
      else match unbase64 c with
           | Some n => n :: sextets rest
           | None => sextets rest
           end
  end.

Fixpoint groups (l : list N) : list N :=
  match l with
  | s1 :: s2 :: s3 :: s4 :: rest =>
      (s1 * 4 + s2 / 16) :: (s2 mod 16 * 16 + s3 / 4) :: (s3 mod 4 * 64 + s4)
        :: groups rest
  | [s1; s2; s3] => [s1 * 4 + s2 / 16; s2 mod 16 * 16 + s3 / 4]
  | [s1; s2] => [s1 * 4 + s2 / 16]
  | _ => []
  end%N.

(** [Buffer.from(data, "base64")]. *)
Definition fromBase64 (data : string) : list N := groups (sextets data).

End Buffer.

(** ** database/entities/User.ts: the fields of the entity *)

Module User.

Record t : Type := {
  snowflake : string;
  username : string;
  password : option string;
  salt : string
}.

End User.

(** ** util.ts: namespace Security *)

Module Security.

Definition hexDigit (n : N) : ascii :=
  match String.get (N.to_nat n) "0123456789abcdef" with
  | Some c => c
  | None => "0"%char
  end.

Fixpoint hex (buffer : list N) : string :=
  match buffer with
  | [] => ""
  | b :: rest => String (hexDigit (b / 16)) (String (hexDigit (b mod 16)) (hex rest))
  end.

(** [random(length)]: [crypto.randomBytes(length / 2)] in hexadecimal;
    [entropy] is the stream the generator draws from. *)
Definition random (length : nat) (entropy : list N) : string :=
  hex (firstn (length / 2) entropy).

(** [snowflake()]: [flaker.next] hands an identifier or an error to its
    callback; the identifier is resolved in decimal ([uintformat(id, 'dec')]),
    the error rejects. *)
Definition snowflake (next : JS.completion N) : JS.completion string :=
  match next with
  | JS.Normal id => JS.Normal (NilZero.string_of_uint (N.to_uint id))
  | JS.Throw err => JS.Throw err
  end.

Module Token.

Record DecodedToken : Type := {
  snowflake : string;
  timestamp : Z;
  hmac : string;
  user : User.t
}.

Definition decodeBase64 (data : string) : string :=
  Buffer.toAscii (Buffer.fromBase64 data).

Definition encodeBase64 (data : string) : string :=
  Buffer.toBase64 (Buffer.from data).

Section Collaborators.

(** The keyed signature nobi computes for a value under a secret
    (an HMAC, URL-safe base64 encoded). *)
Variable getSignature : string -> string -> string.

(** ECMAScript StringToNumber, applied by [(... as any) * 1]. *)
Variable StringToNumber : string -> JS.number.

(** [await User.findOne({snowflake})] and [await User.findOne(id)]: the
    keyed lookups of the store.  [Normal None] when no user matches; [Throw]
    when the lookup fails, that is when its promise is rejected. *)
Variable findOne : string -> JS.completion (option User.t).
Variable findOneById : string -> JS.completion (option User.t).

(** Modelled from the spec: nobi's signer, a package the sources import
    and do not contain.  [nobi(secret).sign(value)] is the value, the
    separator and the signature: the token's third segment is "a
    deterministic keyed signature over the literal concatenation of
    segments 1 and 2 (with their delimiter)". *)
Definition sign (secret value : string) : string :=
  value ++ "." ++ getSignature secret value.

(** Modelled from the spec: [nobi(secret).unsign(signedValue)] splits at
    the last separator, "recomputes the signature over segments 1-2 using
    the resolved principal's current secret" and returns the value when it
    matches "byte-for-byte the supplied segment 3"; it throws BadSignature
    otherwise, and when there is no separator. *)
Definition unsign (secret signedValue : string) : JS.completion string :=
  match rev (JS.split "." signedValue) with
  | sig :: ((_ :: _) as front) =>
      let value := JS.join "." (rev front) in
      if String.eqb sig (getSignature secret value) then JS.Normal value
      else JS.Throw "BadSignature: signature does not match"
  | _ => JS.Throw "BadSignature: no separator found in value"
  end.

Definition decodeToken (token : string)
  : JS.completion (option DecodedToken) * list LogEntry :=
  let chunks := JS.split "." token in
  match chunks with
  | [snowflakeBase64; timestampBase64; _] =>
      let snowflake := decodeBase64 snowflakeBase64 in
      let timestampEpoch := StringToNumber (decodeBase64 timestampBase64) in
      if JS.isNaN timestampEpoch then (JS.Normal None, [])
      else
        match JS.TimeClip timestampEpoch with
        | None => (JS.Normal None, [])
        | Some timestamp =>
            match findOne snowflake with
            | JS.Throw e => (JS.Throw e, [])
            | JS.Normal None => (JS.Normal None, [])
            | JS.Normal (Some user) =>
                match unsign (User.salt user) token with
                | JS.Throw e =>
                    (JS.Normal None,
                     [(LWarn, "Failed to decode HMAC data from token:");
                      (LConsole, e)])
                | JS.Normal hmacData =>
                    if negb (String.eqb hmacData
                               (snowflakeBase64 ++ "." ++ timestampBase64))
                    then (JS.Normal None, [])
                    else (JS.Normal
                            (Some {| snowflake := snowflake;
                                     timestamp := timestamp;
                                     hmac := hmacData;
                                     user := user |}), [])
                end
            end
        end
  | _ => (JS.Normal None, [])
  end.

Definition getUser (token : string)
  : JS.completion (option User.t) * list LogEntry :=
  match decodeToken token with
  | (JS.Normal (Some parsedToken), l) => (JS.Normal (Some (user parsedToken)), l)
  | (JS.Normal None, l) => (JS.Normal None, l)
  | (JS.Throw e, l) => (JS.Throw e, l)
  end.

(** [createToken(user)]; [now] is the value of [Date.now()]. *)
Definition createToken (user : User.t + string) (now : Z) : JS.completion string :=
  let make (user : User.t) :=
    let snowflakeBase64 := encodeBase64 (User.snowflake user) in
    let timestampBase64 := encodeBase64 (JS.NumberToString now) in
    let partialToken := snowflakeBase64 ++ "." ++ timestampBase64 in
    sign (User.salt user) partialToken in
  match user with
  | inl user => JS.Normal (make user)
  | inr id =>
      match findOneById id with
      | JS.Throw e => JS.Throw e
      | JS.Normal None => JS.Throw "Unknown user."
      | JS.Normal (Some _user) => JS.Normal (make _user)
      end
  end.

End Collaborators.

End Token.

End Security.

(** ** util.ts: namespace ArrayUtils *)

Module ArrayUtils.

Definition optional (item : JS.value) : list JS.value :=
  if JS.ToBoolean item then [item] else [].

End ArrayUtils.

(** ** util.ts: namespace StringUtils *)

Module StringUtils.

(** How often the body of [for (let i = 0; i < amount; i++)] runs: [None]
    when the loop does not end. *)
Definition iterations (amount : JS.number) : option nat :=
  match amount with
  | JS.NaN => Some 0%nat
  | JS.Infinity true => Some 0%nat
  | JS.Infinity false => None
  | JS.Finite q => Some (Z.to_nat (- ((- Qnum q) / Zpos (Qden q))))
  end.

(** The loop: [str += char], [n] times. *)
Fixpoint loop (n : nat) (char str : string) : string :=
  match n with
  | O => str
  | S k => loop k char (str ++ char)
  end.

(** [repeatChar(char, amount)], the engine's limit on the length of a
    string left out. *)
Definition repeatChar (char : string) (amount : JS.number) : option string :=
  match iterations amount with
  | Some n => Some (loop n char "")
  | None => None
  end.

End StringUtils.

(** ** util.ts: class Process *)

Module Process.

Inductive Stream : Type := stdout | stderr.

Record LogMessage : Type := {
  content : string;
  timestamp : Z;
  stream : Stream
}.

Definition newline : string := String (ascii_of_N 10) "".

(** [String.prototype.endsWith]. *)
Fixpoint endsWith (s suffix : string) : bool :=
  String.eqb s suffix
  || match s with
     | EmptyString => false
     | String _ rest => endsWith rest suffix
     end.

(** [String.prototype.substring(start, end)]: both indices are clamped to
    [0 .. length], and swapped when [start] is the larger. *)
Definition substring (s : string) (start finish : Z) : string :=
  let clamp (i : Z) := Z.to_nat (Z.min (Z.max i 0) (Z.of_nat (String.length s))) in
  let a := Nat.min (clamp start) (clamp finish) in
  let b := Nat.max (clamp start) (clamp finish) in
  String.substring a (b - a) s.

(** The listener [watcher(type)] that [exec] puts on a stream of the child
    process: [data] is the chunk as a string, [now] the value of
    [Date.now()], [log] the field [this.log].  Returns the log and the
    packets emitted as ["data"] events. *)
Definition watcher (type : Stream) (data : string) (now : Z) (log : list LogMessage)
  : list LogMessage * list LogMessage :=
  if (String.length data =? 0)%nat || String.eqb data newline then (log, [])
  else
    let data :=
      if endsWith data newline
      then substring data 0 (Z.of_nat (String.length data) - 2)
      else data in
    let packet := {| content := data; timestamp := now; stream := type |} in
    ((log ++ [packet])%list, [packet]).

(** [const argv = this.command.split(" ")], and what [exec] hands to
    [child_process.spawn]: [argv[0]] and [argv.slice(1)]. *)
Definition argv (command : string) : list string := JS.split " " command.

Definition spawned (command : string) : option string * list string :=
  (List.hd_error (argv command), List.tl (argv command)).

End Process.

(** ** http/util.ts: RestError *)

Module RestError.

(** An instance: the private [response] and the public [statusCode], which
    the constructor leaves unset. *)
Record t : Type := {
  response : JS.value;
  statusCode : option Z
}.

(** [new RestError(message, code, fields)]; an argument left out is
    [VUndefined]. *)
Definition new (message code fields : JS.value) : t :=
  if String.eqb (JS.typeof message) "string" && String.eqb (JS.typeof code) "number"
  then {| response := JS.VObj [("message", message); ("code", code); ("fields", fields)];
          statusCode := None |}
  else if String.eqb (JS.typeof message) "object"
  then {| response := message; statusCode := None |}
  else {| response := JS.VUndefined; statusCode := None |}.

Definition body (e : t) : JS.value := response e.

Definition INTERNAL_ERROR (ref : string) : t :=
  let err := new (JS.VStr ("Internal error occurred. Tracking number: " ++ ref))
                 (JS.VNum (JS.ofZ 1002)) JS.VUndefined in
  {| response := response err; statusCode := Some 500%Z |}.

End RestError.

(** ** http/index.ts: handlers and routes *)

Module Http.

Record Request : Type := {
  reqMethod : string;
  url : string
}.

(** What a handler can throw: a [RestError], or anything else. *)
Inductive thrown : Type :=
| ThrownRestError (e : RestError.t)
| ThrownOther (detail : string).

(** What a handler does, in order, when it is called with
    [(req, res, next)]: call [next()], call [res.status(code)], call
    [res.json(body)], throw. *)
Inductive action : Type :=
| Proceed
| Status (code : Z)
| Json (body : JS.value)
| Raise (e : thrown).

(** The module variables handlers close over: [testIncr] of the example
    route module. *)
Record ModuleState : Type := { testIncr : Z }.

(** A function [(req, res, next) => void]: its identity as an object
    ([===] compares [ref]) and its behaviour. *)
Record RouteHandler : Type := {
  ref : nat;
  run : Request -> ModuleState -> list action * ModuleState
}.

Record RouteOpts : Type := {
  path : string;
  method : string;
  classicMiddleware : option (list RouteHandler);
  guards : option (list RouteHandler)
}.

Record Route : Type := {
  opts : RouteOpts;
  handler : RouteHandler;
  error : option nat
}.

(** What an observer of one request sees, in order. *)
Inductive event : Type :=
| GuardInvoked (index : nat) (guard : nat)
| HandlerInvoked (handler : nat)
| Sent (status : Z) (body : JS.value).

(** The state one request runs in: the closure variables of the guard chain
    ([currentIndex], [previous]), the response's status code, what was
    observed so far, the error on its way to the error middleware, the
    module variables and the log. *)
Record Exchange : Type := {
  currentIndex : nat;
  previous : option nat;
  statusCode : Z;
  trace : list event;
  pending : option thrown;
  modules : ModuleState;
  logged : list LogEntry
}.

Definition fresh (m : ModuleState) : Exchange :=
  {| currentIndex := 0; previous := None; statusCode := 200; trace := [];
     pending := None; modules := m; logged := [] |}.

Definition setIndex (i : nat) (x : Exchange) : Exchange :=
  {| currentIndex := i; previous := previous x; statusCode := statusCode x;
     trace := trace x; pending := pending x; modules := modules x;
     logged := logged x |}.

Definition setPrevious (p : option nat) (x : Exchange) : Exchange :=
  {| currentIndex := currentIndex x; previous := p; statusCode := statusCode x;
     trace := trace x; pending := pending x; modules := modules x;
     logged := logged x |}.

Definition setStatus (code : Z) (x : Exchange) : Exchange :=
  {| currentIndex := currentIndex x; previous := previous x; statusCode := code;
     trace := trace x; pending := pending x; modules := modules x;
     logged := logged x |}.

Definition observe (e : event) (x : Exchange) : Exchange :=
  {| currentIndex := currentIndex x; previous := previous x;
     statusCode := statusCode x; trace := trace x ++ [e];
     pending := pending x; modules := modules x; logged := logged x |}.

Definition setPending (e : thrown) (x : Exchange) : Exchange :=
  {| currentIndex := currentIndex x; previous := previous x;
     statusCode := statusCode x; trace := trace x; pending := Some e;
     modules := modules x; logged := logged x |}.

Definition setModules (m : ModuleState) (x : Exchange) : Exchange :=
  {| currentIndex := currentIndex x; previous := previous x;
     statusCode := statusCode x; trace := trace x; pending := pending x;
     modules := m; logged := logged x |}.

Definition addLog (l : list LogEntry) (x : Exchange) : Exchange :=
  {| currentIndex := currentIndex x; previous := previous x;
     statusCode := statusCode x; trace := trace x; pending := pending x;
     modules := modules x; logged := logged x ++ l |}.

(** [res.json(body)]: the body goes out under the current status code.
    Every call is recorded; the client has the body of the first one (see
    [HttpServer.response]), and what Node does with a later call for the
    same request is left out. *)
Definition json (body : JS.value) (x : Exchange) : Exchange :=
  observe (Sent (statusCode x) body) x.

(** The continuation a handler receives as [next]; [None] when the
    recursion bound of the model is used up. *)
Definition continuation : Type := Exchange -> option Exchange.

(** Runs the actions of one handler call.  A throw unwinds: the actions
    after it, also those of the callers, are not run. *)
Fixpoint perform (next : continuation) (acts : list action) (x : Exchange)
  : option Exchange :=
  match acts with
  | [] => Some x
  | a :: rest =>
      match a with
      | Proceed =>
          match next x with
          | None => None
          | Some x' =>
              match pending x' with
              | Some _ => Some x'
              | None => perform next rest x'
              end
          end
      | Status code => perform next rest (setStatus code x)
      | Json body => perform next rest (json body x)
      | Raise e => Some (setPending e x)
      end
  end.

(** Calls [h(req, res, next)]. *)
Definition invoke (h : RouteHandler) (req : Request) (next : continuation)
  (x : Exchange) : option Exchange :=
  let (acts, m) := run h req (modules x) in
  perform next acts (setModules m x).

(** The array [route.opts.guards as RouteHandler[]]. *)
Definition guardsOf (route : Route) : list RouteHandler :=
  match guards (opts route) with Some gs => gs | None => [] end.

(** The [next] of [loadRoute]'s closure.  [fuel] bounds the depth of the
    calls of [next] from inside guards. *)
Fixpoint next (fuel : nat) (route : Route) (req : Request) (x : Exchange)
  : option Exchange :=
  match fuel with
  | O => None
  | S fuel' =>
      let i := currentIndex x in
      let guard := nth_error (guardsOf route) i in
      let x := setIndex (S i) x in
      match guard with
      | Some g =>
          if decide (previous x = Some (ref g))
          then invoke (handler route) req Some
                 (observe (HandlerInvoked (ref (handler route))) x)
          else invoke g req (next fuel' route req)
                 (observe (GuardInvoked i (ref g))
                    (setPrevious (Some (ref g)) x))
      | None =>
          invoke (handler route) req Some
            (observe (HandlerInvoked (ref (handler route))) x)
      end
  end.

(** The closure [(req, res) => { let currentIndex = 0; let previous; ...;
    next(); }] registered for a route with guards. *)
Definition chain (route : Route) (req : Request) (x : Exchange) : option Exchange :=
  next (S (List.length (guardsOf route))) route req (setPrevious None (setIndex 0 x)).

End Http.

(** ** http/util.ts: namespace Routing

    Routes are objects, and so is what their [opts] field holds:
    [prefixPath] writes into the [opts] object of the route it is given, and
    two routes can hold the same [opts] object.  The heap maps the address
    of a route object to its fields, the [opts] field being an address, and
    the address of an [opts] object to its fields. *)

Module Routing.

Record RouteObject : Type := {
  opts : nat;
  handler : Http.RouteHandler;
  error : option nat
}.

Record Store : Type := {
  routes : gmap nat RouteObject;
  options : gmap nat Http.RouteOpts
}.

(** The assignment [opts.path = p]. *)
Definition setPath (p : string) (o : Http.RouteOpts) : Http.RouteOpts :=
  {| Http.path := p;
     Http.method := Http.method o;
     Http.classicMiddleware := Http.classicMiddleware o;
     Http.guards := Http.guards o |}.

(** [route.opts.path = `${prefix}/${route.opts.path}`; return route].  A
    route is the address of a route object; at an address that holds none,
    which no value of the program is, the heap is left as it is. *)
Definition prefixPath (route : nat) (prefix : string) (heap : Store) : nat * Store :=
  (route,
   match routes heap !! route with
   | Some r =>
       {| routes := routes heap;
          options := alter (fun o => setPath (prefix ++ "/" ++ Http.path o) o)
                       (opts r) (options heap) |}
   | None => heap
   end).

Definition prefixPaths (routes : list nat) (prefix : string) (heap : Store)
  : list nat * Store :=
  (routes, fold_left (fun h route => snd (prefixPath route prefix h)) routes heap).

End Routing.

(** ** Constants.ts *)

Module Constants.

(** [prefix(routes, prefix)]: every property is replaced by the prefix
    followed by its old value. *)
Definition prefix (routes : list (string * string)) (p : string)
  : list (string * string) :=
  List.map (fun kv => (fst kv, p ++ snd kv)) routes.

Definition API_V0 : list (string * string) :=
  prefix [("TEST_1", "/test/1"); ("TEST_2", "/test/2")] "/api/v0".

Definition ERROR_CODES : list (string * Z) := [("TEST_2", 1002%Z)].

(** Property access [object.key]. *)
Definition get {A : Type} (key : string) (object : list (string * A)) : option A :=
  match List.find (fun kv => String.eqb (fst kv) key) object with
  | Some kv => Some (snd kv)
  | None => None
  end.

End Constants.

(** ** The example route module *)

Module TestRoutes.

(** [let testIncr = 0]. *)
Definition initial : Http.ModuleState := {| Http.testIncr := 0 |}.

Definition pathOf (key : string) : string :=
  match Constants.get key Constants.API_V0 with Some p => p | None => "undefined" end.

Definition codeOf (key : string) : JS.value :=
  match Constants.get key Constants.ERROR_CODES with
  | Some c => JS.VNum (JS.ofZ c)
  | None => JS.VUndefined
  end.

Definition test1 : Http.Route :=
  {| Http.opts := {| Http.path := pathOf "TEST_1"; Http.method := "get";
                     Http.classicMiddleware := None; Http.guards := None |};
     Http.handler :=
       {| Http.ref := 1;
          Http.run := fun _ m =>
            ([Http.Json (JS.VObj [("test", JS.VStr "successful");
                                  ("number", JS.VNum (JS.ofZ (Http.testIncr m)))])],
             {| Http.testIncr := Http.testIncr m + 1 |}) |};
     Http.error := None |}.

Definition test2 : Http.Route :=
  {| Http.opts := {| Http.path := pathOf "TEST_2"; Http.method := "get";
                     Http.classicMiddleware := None; Http.guards := None |};
     Http.handler :=
       {| Http.ref := 2;
          Http.run := fun _ m =>
            ([Http.Raise (Http.ThrownRestError
                            (RestError.new (JS.VStr "Success!") (codeOf "TEST_2")
                               JS.VUndefined))], m) |};
     Http.error := None |}.

Definition exports : list Http.Route := [test1; test2].

End TestRoutes.

(** ** http/index.ts: class HttpServer *)

Module HttpServer.

(** What [server.get(path, ...middleware, last)] adds to Express's router:
    the method and path to match, and the functions to call. *)
Inductive Endpoint : Type :=
| Direct (h : Http.RouteHandler)
| Guarded (route : Http.Route).

Record Layer : Type := {
  layerMethod : string;
  layerPath : string;
  middleware : list Http.RouteHandler;
  endpoint : Endpoint
}.

(** The server: the router's layers in the order they were added, and the
    log written while loading. *)
Record t : Type := {
  stack : list Layer;
  log : list LogEntry
}.

Definition empty : t := {| stack := []; log := [] |}.

Definition Logger (level : LogLevel) (message : string) (srv : t) : t :=
  {| stack := stack srv; log := log srv ++ [(level, message)] |}.

Definition register (l : Layer) (srv : t) : t :=
  {| stack := stack srv ++ [l]; log := log srv |}.

(** [isRoute(route)] on a value of type [Route]: the [typeof] tests on
    [route], [route.opts], [route.opts.path], [route.opts.method] and
    [route.handler] hold by the type; what is left is the method name. *)
Definition isRoute (route : Http.Route) : bool :=
  let m := Http.method (Http.opts route) in
  String.eqb m "get" || String.eqb m "post" || String.eqb m "options"
  || String.eqb m "patch" || String.eqb m "delete".

(** [toUpperCase] on the letters a-z. *)
Definition upper (c : ascii) : ascii :=
  let n := N_of_ascii c in
  if ((97 <=? n) && (n <=? 122))%N then ascii_of_N (n - 32) else c.

Fixpoint toUpperCase (s : string) : string :=
  match s with
  | EmptyString => EmptyString
  | String c rest => String (upper c) (toUpperCase rest)
  end.

(** [toLowerCase] on the letters A-Z. *)
Definition lower (c : ascii) : ascii :=
  let n := N_of_ascii c in
  if ((65 <=? n) && (n <=? 90))%N then ascii_of_N (n + 32) else c.

Fixpoint toLowerCase (s : string) : string :=
  match s with
  | EmptyString => EmptyString
  | String c rest => String (lower c) (toLowerCase rest)
  end.

Definition quote : string := String (ascii_of_N 34) "".

Definition loadRoute (route : Http.Route) (srv : t) : t :=
  if negb (isRoute route)
  then Logger LWarn "Not loading an invalid route in express" srv
  else
    let srv :=
      Logger LDebug
        ("[EXPRESS ROUTE] [" ++ toUpperCase (Http.method (Http.opts route))
         ++ "] PATH: " ++ quote ++ Http.path (Http.opts route) ++ quote) srv in
    let middleware :=
      match Http.classicMiddleware (Http.opts route) with
      | Some ms => ms
      | None => []
      end in
    match Http.guards (Http.opts route) with
    | None =>
        register {| layerMethod := Http.method (Http.opts route);
                    layerPath := Http.path (Http.opts route);
                    middleware := middleware;
                    endpoint := Direct (Http.handler route) |} srv
    | Some _ =>
        register {| layerMethod := Http.method (Http.opts route);
                    layerPath := Http.path (Http.opts route);
                    middleware := middleware;
                    endpoint := Guarded route |} srv
    end.

(** What [require(filePath)] gives: one route, or an array of routes. *)
Inductive Export : Type :=
| Single (route : Http.Route)
| Many (routes : list Http.Route).

Definition loadFile (filePath : string) (rawFile : JS.completion Export) (srv : t) : t :=
  match rawFile with
  | JS.Throw e =>
      Logger LConsole e (Logger LWarn ("Couldn't load route(s) from " ++ filePath) srv)
  | JS.Normal (Many routes) => fold_left (fun s r => loadRoute r s) routes srv
  | JS.Normal (Single route) => loadRoute route srv
  end.

(** The same functions on what a module may hold in fact: [isRoute] takes
    [any], and [loadFile] hands it whatever [require] gives.  A value is told
    from another as far as the tests of [isRoute] and [loadFile] do; the
    fields they do not test are as the interface [Route] declares them. *)
Module Untyped.

(** [route.opts]: a value whose [typeof] is not ["object"] ([undefined]
    when the field is absent, a string, a function); [null]; or an object,
    with its [path] and [method], each [None] when it is not a string. *)
Inductive Opts : Type :=
| OptsOther
| OptsNull
| OptsObject (path method : option string)
    (classicMiddleware guards : option (list Http.RouteHandler)).

(** [route]: a value whose [typeof] is not ["object"]; [null]; or an
    object, an array among them, with its [opts] and its [handler], [None]
    when that is not a function. *)
Inductive Value : Type :=
| Other
| Null
| Object (opts : Opts) (handler : option Http.RouteHandler) (error : option nat).

(** The [TypeError] of reading a property of [null]. *)
Definition typeError : string := "TypeError".

(** [isRoute(route)].  [typeof null] is ["object"], so for [null] the test
    goes on to read [route.opts], and for an [opts] that is [null] to read
    [route.opts.path]: both throw. *)
Definition isRoute (route : Value) : JS.completion bool :=
  match route with
  | Other => JS.Normal false
  | Null => JS.Throw typeError
  | Object OptsOther _ _ => JS.Normal false
  | Object OptsNull _ _ => JS.Throw typeError
  | Object (OptsObject path method _ _) handler _ =>
      JS.Normal
        (match path with Some _ => true | None => false end
         && match method with
            | Some m =>
                String.eqb m "get" || String.eqb m "post" || String.eqb m "options"
                || String.eqb m "patch" || String.eqb m "delete"
            | None => false
            end
         && match handler with Some _ => true | None => false end)
  end.

(** The value as the [Route] that [isRoute] declares it to be. *)
Definition asRoute (route : Value) : option Http.Route :=
  match route with
  | Object (OptsObject (Some path) (Some method) classicMiddleware guards)
      (Some handler) error =>
      Some {| Http.opts := {| Http.path := path; Http.method := method;
                              Http.classicMiddleware := classicMiddleware;
                              Http.guards := guards |};
              Http.handler := handler;
              Http.error := error |}
  | _ => None
  end.

(** [loadRoute(route)]: the server it leaves, and how it ends. *)
Definition loadRoute (route : Value) (srv : t) : t * JS.completion unit :=
  match isRoute route with
  | JS.Throw e => (srv, JS.Throw e)
  | JS.Normal false =>
      (Logger LWarn "Not loading an invalid route in express" srv, JS.Normal tt)
  | JS.Normal true =>
      match asRoute route with
      | Some r => (HttpServer.loadRoute r srv, JS.Normal tt)
      | None => (srv, JS.Normal tt)
      end
  end.

(** What is loaded from a module: an array ([Array.isArray]) or any other
    value. *)
Inductive Exported : Type :=
| Routes (items : list Value)
| One (route : Value).

(** What [require(filePath)] gives: a value without a [default], or with
    one that is falsy, or an object whose [default] holds a truthy value,
    so none that is [One Null]. *)
Inductive Required : Type :=
| Exports (e : Exported)
| Default (e : Exported).

(** The loop [for (let i = 0; i < rawFile.length; i++)
    this.loadRoute(rawFile[i])]: what the calls before a throw have
    registered stays registered. *)
Fixpoint loadRoutes (items : list Value) (srv : t) : t * JS.completion unit :=
  match items with
  | [] => (srv, JS.Normal tt)
  | route :: rest =>
      match loadRoute route srv with
      | (srv', JS.Normal _) => loadRoutes rest srv'
      | (srv', JS.Throw e) => (srv', JS.Throw e)
      end
  end.

(** [loadFile(filePath)]: the server it leaves, and whether its promise is
    resolved or rejected.  Only [require] is inside the [try]: the
    [rawFile.default] of a [null] and the errors of [isRoute] reject. *)
Definition loadFile (filePath : string) (rawFile : JS.completion Required) (srv : t)
  : t * JS.completion unit :=
  match rawFile with
  | JS.Throw e =>
      (Logger LConsole e (Logger LWarn ("Couldn't load route(s) from " ++ filePath) srv),
       JS.Normal tt)
  | JS.Normal (Exports (One Null)) => (srv, JS.Throw typeError)
  | JS.Normal (Exports (Routes items)) => loadRoutes items srv
  | JS.Normal (Exports (One route)) => loadRoute route srv
  | JS.Normal (Default (Routes items)) => loadRoutes items srv
  | JS.Normal (Default (One route)) => loadRoute route srv
  end.

End Untyped.

(** The error middleware of [loadServer]. *)
Definition transmit (error : RestError.t) (x : Http.Exchange) : Http.Exchange :=
  Http.json (RestError.body error)
    (Http.setStatus
       (match RestError.statusCode error with Some code => code | None => 400%Z end) x).

Definition errorMiddleware (err : Http.thrown) (entropy : list N) (x : Http.Exchange)
  : Http.Exchange :=
  match err with
  | Http.ThrownRestError e => transmit e x
  | Http.ThrownOther detail =>
      let tracking := Security.random 16 entropy in
      Http.addLog
        [(LError, "------- error reported");
         (LError, "tracking ref: " ++ tracking);
         (LError, detail);
         (LError, "------- eof")]
        (transmit (RestError.INTERNAL_ERROR tracking) x)
  end.

(** The last middleware of [loadServer]. *)
Definition notFound (x : Http.Exchange) : Http.Exchange :=
  Http.json (JS.VObj [("code", JS.VStr "404"); ("message", JS.VStr "Not found.")])
    (Http.setStatus 404 x).

(** Express's router, as far as the program relies on it.  The server is
    [express()] with its defaults, so routing is not case sensitive and not
    strict.  A request goes to the first layer, in the order of
    registration, that handles its method and whose path matches its
    target; the functions of the layer are called in order, each one's
    [next] calling the following one, and the [next] of the last one goes on
    to the later layers and in the end to [notFound].  The cookie parser and
    [express.static], which are registered after the routes and hand on
    every request that is for no file of the static directory, are left
    out: the directory is taken to hold no file for the target.

    [Route.prototype._handles_method]: the name of the method in lower case,
    a HEAD request being taken by a route for GET. *)
Definition handlesMethod (layerMethod reqMethod : string) : bool :=
  let name := toLowerCase reqMethod in
  let name :=
    if String.eqb name "head" && negb (String.eqb layerMethod "head")
    then "get" else name in
  String.eqb layerMethod name.

(** The path of a request target, as parseurl gives it for a target that
    starts with ["/"] and holds neither white space nor ["#"]: the target up
    to its first ["?"]. *)
Fixpoint pathname (target : string) : string :=
  match target with
  | EmptyString => EmptyString
  | String c rest =>
      if Ascii.eqb c "?" then EmptyString else String c (pathname rest)
  end.

(** The path without its last character when that is ["/"]. *)
Fixpoint stem (path : string) : string :=
  match path with
  | EmptyString => EmptyString
  | String c rest =>
      match rest with
      | EmptyString => if Ascii.eqb c "/" then EmptyString else path
      | String _ _ => String c (stem rest)
      end
  end.



(** The regular expression Express makes of a literal route path, which is
    [^path/?$] with flag [i], the ["/"] before the [?] being the last
    character of the path when that is a ["/"]: the path of the target is
    the route path, with or without a ["/"] at the end of either, in any
    letter case. *)
Definition matchesPath (path target : string) : bool :=
  String.eqb (toLowerCase (stem path)) (toLowerCase (pathname target))
  || String.eqb (toLowerCase (stem path) ++ "/") (toLowerCase (pathname target)).

Definition matches (l : Layer) (req : Http.Request) : bool :=
  handlesMethod (layerMethod l) (Http.reqMethod req)
  && matchesPath (layerPath l) (Http.url req).

Fixpoint through (hs : list Http.RouteHandler) (req : Http.Request)
  (last : Http.continuation) (x : Http.Exchange) : option Http.Exchange :=
  match hs with
  | [] => last x
  | h :: rest => Http.invoke h req (through rest req last) x
  end.

Fixpoint dispatch (layers : list Layer) (req : Http.Request) (x : Http.Exchange)
  : option Http.Exchange :=
  match layers with
  | [] => Some (notFound x)
  | l :: rest =>
      if matches l req
      then through (middleware l) req
             (match endpoint l with
              | Direct h => Http.invoke h req (dispatch rest req)
              | Guarded route => Http.chain route req
              end) x
      else dispatch rest req x
  end.

(** One request from the routes on, once the middleware registered before
    them has let it through; [entropy] is what [Security.random] draws from
    should the error middleware run. *)
Definition handle (srv : t) (req : Http.Request) (entropy : list N)
  (m : Http.ModuleState) : option Http.Exchange :=
  match dispatch (stack srv) req (Http.fresh m) with
  | Some x =>
      match Http.pending x with
      | Some err => Some (errorMiddleware err entropy x)
      | None => Some x
      end
  | None => None
  end.

(** What the handlers sent first, with its status.  This is what the client
    receives, but for a HEAD request, whose answer goes out without its
    body. *)
Fixpoint firstSent (tr : list Http.event) : option (Z * JS.value) :=
  match tr with
  | [] => None
  | Http.Sent status body :: _ => Some (status, body)
  | _ :: rest => firstSent rest
  end.

Definition response (x : Http.Exchange) : option (Z * JS.value) :=
  firstSent (Http.trace x).






End HttpServer.

(** ** database/entities/User.ts: the methods of the entity

    bcrypt is taken as it is: [hash] is [bcrypt.hash(data, salt)] and
    [compare] is [bcrypt.compare(data, encrypted)]. *)

Module UserEntity.

Section Methods.

Variable hash : string -> string -> string.
Variable compare : string -> string -> bool.
Variable getSignature : string -> string -> string.
Variable StringToNumber : string -> JS.number.
Variable findOne : string -> JS.completion (option User.t).
Variable findOneById : string -> JS.completion (option User.t).

(** [newSalt()]: [this.salt = await Security.random(64)]. *)
Definition newSalt (entropy : list N) (u : User.t) : User.t :=
  {| User.snowflake := User.snowflake u;
     User.username := User.username u;
     User.password := User.password u;
     User.salt := Security.random 64 entropy |}.

(** [newSnowflake()]: [this.snowflake = await Security.snowflake()]. *)
Definition newSnowflake (next : JS.completion N) (u : User.t) : JS.completion User.t :=
  match Security.snowflake next with
  | JS.Normal id =>
      JS.Normal {| User.snowflake := id;
                   User.username := User.username u;
                   User.password := User.password u;
                   User.salt := User.salt u |}
  | JS.Throw err => JS.Throw err
  end.

(** [setPassword(password)]; [rounds] is the result of
    [bcrypt.genSalt(10)]. *)
Definition setPassword (password rounds : string) (u : User.t) : User.t :=
  {| User.snowflake := User.snowflake u;
     User.username := User.username u;
     User.password := Some (hash password rounds);
     User.salt := User.salt u |}.

(** [passwordMatches(password)]: [!this.password] holds for [null] and for
    the empty string. *)
Definition passwordMatches (u : User.t) (password : string) : bool :=
  match User.password u with
  | None => false
  | Some encrypted =>
      if String.eqb encrypted "" then false else compare password encrypted
  end.

(** [token()] and [User.findByToken(token)]. *)
Definition token (u : User.t) (now : Z) : JS.completion string :=
  Security.Token.createToken getSignature findOneById (inl u) now.

Definition findByToken (token : string)
  : JS.completion (option User.t) * list LogEntry :=
  Security.Token.getUser getSignature StringToNumber findOne token.

(** [User.createUser(username, password)].  [entropy], [next] and [rounds]
    are what [crypto.randomBytes], [flaker.next] and [bcrypt.genSalt] give to
    this call; [save] is [user.save()], which may reject. *)
Definition createUser (username password : string) (entropy : list N)
  (next : JS.completion N) (rounds : string) (save : User.t -> JS.completion unit)
  : JS.completion User.t :=
  let user := {| User.snowflake := ""; User.username := username;
                 User.password := None; User.salt := "" |} in
  match newSnowflake next (newSalt entropy user) with
  | JS.Throw err => JS.Throw err
  | JS.Normal user =>
      let user := setPassword password rounds user in
      match save user with
      | JS.Throw err => JS.Throw err
      | JS.Normal _ => JS.Normal user
      end
  end.

End Methods.

End UserEntity.

(* ===================================================================== *)
(** * Part II: vocabulary and examples *)
(* ===================================================================== *)

(** ** Collaborators used to run the token code on examples

    A signature and a number reader to evaluate [decodeToken] with.  The
    signature stands for nobi's; the reader agrees with StringToNumber on
    the empty string and on decimal integers, which is all the examples
    read. *)

Module Sample.

Definition getSignature (secret value : string) : string :=
  Buffer.toBase64 (Buffer.from (secret ++ value)).

Definition StringToNumber (s : string) : JS.number :=
  if String.eqb s "" then JS.ofZ 0
  else match NilZero.int_of_string s with
       | Some i => JS.ofZ (Z.of_int i)
       | None => JS.NaN
       end.

Definition alice : User.t :=
  {| User.snowflake := "6934455982260224";
     User.username := "alice";
     User.password := None;
     User.salt := "5f2b8c1e" |}.

(** A store holding [alice] under her snowflake and nobody else. *)
Definition findOne (snowflake : string) : JS.completion (option User.t) :=
  JS.Normal (if String.eqb snowflake (User.snowflake alice) then Some alice else None).

(** The same store after [alice]'s salt was replaced. *)
Definition rotated : User.t :=
  {| User.snowflake := User.snowflake alice;
     User.username := User.username alice;
     User.password := User.password alice;
     User.salt := "00c4d1aa" |}.

Definition findOneRotated (snowflake : string) : JS.completion (option User.t) :=
  JS.Normal (if String.eqb snowflake (User.snowflake alice) then Some rotated else None).

(** A user whose snowflake is the single character U+00E9. *)
Definition zoe : User.t :=
  {| User.snowflake := String (ascii_of_N 233) "";
     User.username := "zoe";
     User.password := None;
     User.salt := "91aa03f7" |}.

Definition findZoe (snowflake : string) : JS.completion (option User.t) :=
  JS.Normal (if String.eqb snowflake (User.snowflake zoe) then Some zoe else None).

Definition findNobody (id : string) : JS.completion (option User.t) :=
  JS.Normal None.

(** A store that cannot be reached: every lookup is rejected. *)
Definition findFails (key : string) : JS.completion (option User.t) :=
  JS.Throw "connection closed".

(** A store that answers every lookup with [zoe]. *)
Definition findAlwaysZoe (snowflake : string) : JS.completion (option User.t) :=
  JS.Normal (Some zoe).

Definition issue (user : User.t) (now : Z) : string :=
  match Security.Token.createToken getSignature findNobody (inl user) now with
  | JS.Normal token => token
  | JS.Throw _ => ""
  end.

(** The token [alice] is issued at 1530000000000, the same token with the
    last character of its signature replaced, and a token for [alice] whose
    timestamp segment is empty. *)
Definition issued : string := issue alice 1530000000000.

Definition tampered : string :=
  "NjkzNDQ1NTk4MjI2MDIyNA==.MTUzMDAwMDAwMDAwMA==.NWYyYjhjMWVOamt6TkRRMU5UazRNakkyTURJeU5BPT0uTVRVek1EQXdNREF3TURBd01BPT0A".

Definition undated : string :=
  Security.Token.sign getSignature (User.salt alice)
    (Security.Token.encodeBase64 (User.snowflake alice) ++ ".").

End Sample.

(** ** Vocabulary of the statements *)

Module Spec.

(** Every code unit of the string is below 128. *)
Definition isAscii (s : string) : bool :=
  forallb (fun c => (N_of_ascii c <? 128)%N) (list_ascii_of_string s).

(** The string holds no separator ["."]. *)
Definition noSep (s : string) : bool :=
  forallb (fun c => negb (Ascii.eqb c ".")) (list_ascii_of_string s).

(** [path] after [n] applications of [prefixPath] with [prefix]. *)
Definition prefixed (prefix : string) (n : nat) (path : string) : string :=
  Nat.iter n (fun p => prefix ++ "/" ++ p) path.

(** Two [opts] objects agree on every field but [path]. *)
Definition sameButPath (o o' : Http.RouteOpts) : Prop :=
  Http.method o' = Http.method o
  /\ Http.guards o' = Http.guards o
  /\ Http.classicMiddleware o' = Http.classicMiddleware o.

(** How many elements of the list are routes of the heap whose [opts] is
    the object at address [a]. *)
Definition pointers (heap : Routing.Store) (routes : list nat) (a : nat) : nat :=
  List.length
    (List.filter
       (fun route => match Routing.routes heap !! route with
                     | Some r => Nat.eqb (Routing.opts r) a
                     | None => false
                     end) routes).

(** A heap with three route objects.  The routes at 1 and 2 hold the same
    [opts] object, at address 10, as they do after
    [const opts = {...}; routes = [{opts, handler}, {opts, handler}]]; the
    route at 3 has an [opts] object of its own, at address 11. *)
Definition sharing : Routing.Store :=
  {| Routing.routes :=
       <[1%nat := {| Routing.opts := 10%nat;
                     Routing.handler := Http.handler TestRoutes.test1;
                     Routing.error := None |}]>
         (<[2%nat := {| Routing.opts := 10%nat;
                        Routing.handler := Http.handler TestRoutes.test2;
                        Routing.error := None |}]>
            (<[3%nat := {| Routing.opts := 11%nat;
                           Routing.handler := Http.handler TestRoutes.test2;
                           Routing.error := None |}]> ∅));
     Routing.options :=
       <[10%nat := Http.opts TestRoutes.test1]>
         (<[11%nat := Http.opts TestRoutes.test2]> ∅) |}.

(** The requests of the end-to-end example. *)
Definition getTest1 : Http.Request :=
  {| Http.reqMethod := "get"; Http.url := "/api/v0/test/1" |}.












(** A second descriptor for [GET /api/v0/test/1], with a handler of its
    own. *)
Definition shadow : Http.Route :=
  {| Http.opts := {| Http.path := "/api/v0/test/1"; Http.method := "get";
                     Http.classicMiddleware := None; Http.guards := None |};
     Http.handler :=
       {| Http.ref := 7;
          Http.run := fun _ m => ([Http.Json (JS.VObj [("test", JS.VStr "shadow")])], m) |};
     Http.error := None |}.




(** The handler never calls [next()]. *)
Definition neverProceeds (h : Http.RouteHandler) : Prop :=
  forall req m, ~ In Http.Proceed (fst (Http.run h req m)).

(** *** Reading the trace of a guard chain *)

(** The positions of the guards invoked, in the order of invocation. *)
Definition guardIndices (evs : list Http.event) : list nat :=
  flat_map (fun e => match e with Http.GuardInvoked i _ => [i] | _ => [] end) evs.

(** How many times the terminal handler was invoked. *)
Definition handlerCalls (evs : list Http.event) : nat :=
  List.length
    (List.filter (fun e => match e with Http.HandlerInvoked _ => true | _ => false end)
       evs).

(** The numbers of [l] increase strictly, start at [lo] or above and stay
    below [hi]. *)
Fixpoint increasing (lo : nat) (l : list nat) (hi : nat) : Prop :=
  match l with
  | [] => (lo <= hi)%nat
  | i :: rest => (lo <= i)%nat /\ increasing (S i) rest hi
  end.

(** The guard invoked last: [p] before [evs], and what it is after. *)
Fixpoint lastGuard (evs : list Http.event) (p : option nat) : option nat :=
  match evs with
  | [] => p
  | Http.GuardInvoked _ g :: rest => lastGuard rest (Some g)
  | _ :: rest => lastGuard rest p
  end.

(** No guard is invoked twice in succession: each guard invoked differs
    from the guard invoked last before it ([p] at the start). *)
Fixpoint neverTwice (p : option nat) (evs : list Http.event) : Prop :=
  match evs with
  | [] => True
  | Http.GuardInvoked _ g :: rest => p <> Some g /\ neverTwice (Some g) rest
  | _ :: rest => neverTwice p rest
  end.

(** Every guard invoked is the one the array holds at that position. *)
Definition fromGuards (gs : list Http.RouteHandler) (evs : list Http.event) : Prop :=
  forall i g, In (Http.GuardInvoked i g) evs ->
    exists h, nth_error gs i = Some h /\ Http.ref h = g.

(** Nothing but bodies sent. *)
Definition onlySent (evs : list Http.event) : Prop :=
  Forall (fun e => match e with Http.Sent _ _ => True | _ => False end) evs.

(** What a call of [next], or of a handler, may do to the state. *)
Definition extends (gs : list Http.RouteHandler) (x x' : Http.Exchange) : Prop :=
  exists evs,
    Http.trace x' = (Http.trace x ++ evs)%list
    /\ increasing (Http.currentIndex x) (guardIndices evs) (Http.currentIndex x')
    /\ Http.previous x' = lastGuard evs (Http.previous x)
    /\ neverTwice (Http.previous x) evs
    /\ fromGuards gs evs.

Definition isProceed (a : Http.action) : bool :=
  match a with Http.Proceed => true | _ => false end.

(** Called for the request [req], the handler calls [next()] at most
    once. *)
Definition proceedsAtMostOnce (req : Http.Request) (h : Http.RouteHandler) : Prop :=
  forall m,
    (List.length (List.filter isProceed (fst (Http.run h req m))) <= 1)%nat.



(** *** Guards and routes to run the chain on *)

Definition scripted (r : nat) (acts : list Http.action) : Http.RouteHandler :=
  {| Http.ref := r; Http.run := fun _ m => (acts, m) |}.

(** A guard that calls [next()] once, one that calls it twice, and two
    that answer with a rejection and do not call it. *)
Definition passes : Http.RouteHandler := scripted 10 [Http.Proceed].

Definition proceedsTwice : Http.RouteHandler :=
  scripted 11 [Http.Proceed; Http.Proceed].

Definition rejects403 : Http.RouteHandler :=
  scripted 12 [Http.Status 403; Http.Json (JS.VObj [("code", JS.VStr "403")])].

Definition rejects401 : Http.RouteHandler :=
  scripted 13 [Http.Status 401; Http.Json (JS.VObj [("code", JS.VStr "401")])].

(** A guard that does nothing at all. *)
Definition silent : Http.RouteHandler := scripted 14 [].


Definition terminal : Http.RouteHandler :=
  scripted 20 [Http.Json (JS.VObj [("ok", JS.VBool true)])].

Definition guarded (gs : list Http.RouteHandler) : Http.Route :=
  {| Http.opts := {| Http.path := "/api/v0/guarded"; Http.method := "get";
                     Http.classicMiddleware := None; Http.guards := Some gs |};
     Http.handler := terminal;
     Http.error := None |}.

Definition getGuarded : Http.Request :=
  {| Http.reqMethod := "get"; Http.url := "/api/v0/guarded" |}.


(** The result of [decodeToken], the log left out. *)
Definition Invalid : JS.completion (option Security.Token.DecodedToken) :=
  JS.Normal None.

End Spec.

(** ** Vocabulary for the rest of the code *)

Module Terms.

(** A character of the base64 alphabet, or the padding. *)
Definition isBase64Char (c : ascii) : bool :=
  Ascii.eqb c "=" || existsb (Ascii.eqb c) (list_ascii_of_string Buffer.alphabet).

(** A lower-case hexadecimal digit. *)
Definition isHexChar (c : ascii) : bool :=
  existsb (Ascii.eqb c) (list_ascii_of_string "0123456789abcdef").

Definition allChars (p : ascii -> bool) (s : string) : bool :=
  forallb p (list_ascii_of_string s).

(** A byte. *)
Definition isByte (b : N) : Prop := (b < 256)%N.

(** A decimal digit. *)
Definition isDigit (c : ascii) : bool :=
  existsb (Ascii.eqb c) (list_ascii_of_string "0123456789").

(** How many times the character occurs in the string. *)
Definition occurrences (c : ascii) (s : string) : nat :=
  List.length (List.filter (Ascii.eqb c) (list_ascii_of_string s)).

(** Actions that set the status or send a body, and nothing else. *)
Definition quiet (acts : list Http.action) : bool :=
  forallb (fun a => match a with Http.Status _ | Http.Json _ => true | _ => false end)
    acts.


(** The route of the same method and path that has [h] for its handler and
    neither middleware nor guards. *)
Definition bare (route : Http.Route) (h : Http.RouteHandler) : Http.Route :=
  {| Http.opts := {| Http.path := Http.path (Http.opts route);
                     Http.method := Http.method (Http.opts route);
                     Http.classicMiddleware := None;
                     Http.guards := None |};
     Http.handler := h;
     Http.error := Http.error route |}.


(** The handler calls [next()] exactly once and does not throw. *)
Definition passesOnce (req : Http.Request) (h : Http.RouteHandler) : Prop :=
  forall m, exists before after,
    fst (Http.run h req m) = (before ++ Http.Proceed :: after)%list
    /\ quiet before = true /\ quiet after = true.

(** The handler throws, and has not called [next()] before. *)
Definition throwsFirst (req : Http.Request) (h : Http.RouteHandler) : Prop :=
  forall m, exists before e rest,
    fst (Http.run h req m) = (before ++ Http.Raise e :: rest)%list
    /\ quiet before = true.

(** How many guards from the front of the array are different from the
    guard before them, [p] being the guard before the first. *)
Fixpoint reach (p : option nat) (gs : list Http.RouteHandler) : nat :=
  match gs with
  | [] => 0
  | g :: rest =>
      if decide (p = Some (Http.ref g)) then 0%nat
      else S (reach (Some (Http.ref g)) rest)
  end.






(** A stand-in for bcrypt to run the entity on: the hash is the salt, a
    ["$"] and the data, and a password is accepted when the hash ends in
    ["$"] and the password. *)
Definition hash (data salt : string) : string := salt ++ "$" ++ data.

Definition compare (data encrypted : string) : bool :=
  Process.endsWith encrypted ("$" ++ data).

(** The user [createUser] makes from 32 bytes, an identifier and a way to
    save that succeeds, and a store that holds this user. *)
Definition bob : User.t :=
  {| User.snowflake := "6934455982260225";
     User.username := "bob";
     User.password := Some (hash "secret" "$2b$10$");
     User.salt := Security.random 64 (List.repeat 171%N 32) |}.

Definition findBob (snowflake : string) : JS.completion (option User.t) :=
  JS.Normal (if String.eqb snowflake (User.snowflake bob) then Some bob else None).

(** A middleware that answers 401 and does not call [next()], and the
    example route behind it. *)
Definition gate : Http.RouteHandler :=
  Spec.scripted 30 [Http.Status 401; Http.Json (JS.VObj [("code", JS.VStr "401")])].

Definition gated : Http.Route :=
  {| Http.opts := {| Http.path := Http.path (Http.opts TestRoutes.test1);
                     Http.method := "get";
                     Http.classicMiddleware := Some [gate];
                     Http.guards := Some [Spec.passes] |};
     Http.handler := Http.handler TestRoutes.test1;
     Http.error := None |}.

(** A guard that sets the status and calls [next()], and one that throws. *)
Definition passesToo : Http.RouteHandler :=
  Spec.scripted 16 [Http.Status 202; Http.Proceed].

Definition throws : Http.RouteHandler :=
  Spec.scripted 15 [Http.Raise (Http.ThrownOther "denied")].

End Terms.

(* ===================================================================== *)
(** * Part III: properties *)
(* ===================================================================== *)

(** ** Strings *)

Lemma append_cons (c : ascii) (a b : string) :
  String c a ++ b = String c (a ++ b).
Proof. reflexivity. Qed.

Lemma append_nil (b : string) : "" ++ b = b.
Proof. reflexivity. Qed.

Lemma append_sep (b : string) : "." ++ b = String "." b.
Proof. reflexivity. Qed.

Lemma append_assoc (a b c : string) : (a ++ b) ++ c = a ++ b ++ c.
Proof.
  induction a as [|x a IH]; [reflexivity|].
  rewrite !append_cons. now rewrite IH.
Qed.

Lemma list_ascii_app (a b : string) :
  list_ascii_of_string (a ++ b)
  = (list_ascii_of_string a ++ list_ascii_of_string b)%list.
Proof.
  induction a as [|c a IH]; [reflexivity|].
  rewrite append_cons. simpl. now rewrite IH.
Qed.

Lemma noSep_app (a b : string) :
  Spec.noSep (a ++ b) = Spec.noSep a && Spec.noSep b.
Proof.
  unfold Spec.noSep. now rewrite list_ascii_app, forallb_app.
Qed.

Lemma split_noSep (s : string) :
  Spec.noSep s = true -> JS.split "." s = [s].
Proof.
  induction s as [|c s IH]; simpl; [reflexivity|].
  unfold Spec.noSep; simpl. intros H.
  apply andb_prop in H as [Hc Hs].
  destruct (Ascii.eqb c "."); [discriminate|].
  now rewrite (IH Hs).
Qed.

Lemma split_app_sep (a rest : string) :
  Spec.noSep a = true ->
  JS.split "." (a ++ String "." rest) = a :: JS.split "." rest.
Proof.
  induction a as [|c a IH]; [reflexivity|].
  rewrite append_cons. unfold Spec.noSep; simpl. intros H.
  apply andb_prop in H as [Hc Ha].
  destruct (Ascii.eqb c "."); [discriminate|].
  now rewrite (IH Ha).
Qed.

Lemma split_three (a b c : string) :
  Spec.noSep a = true -> Spec.noSep b = true -> Spec.noSep c = true ->
  JS.split "." (a ++ "." ++ b ++ "." ++ c) = [a; b; c].
Proof.
  intros Ha Hb Hc. rewrite !append_sep.
  rewrite (split_app_sep a _ Ha), (split_app_sep b _ Hb).
  now rewrite (split_noSep c Hc).
Qed.

(** ** Base64 *)

Lemma get_In (s : string) (k : nat) (c : ascii) :
  String.get k s = Some c -> In c (list_ascii_of_string s).
Proof.
  revert k. induction s as [|d s IH]; intros k; simpl; [discriminate|].
  destruct k as [|k]; [intros [= ->]; now left | intros H; right; eauto].
Qed.

Lemma digit_cases (n : N) :
  Buffer.digit n = "="%char \/ In (Buffer.digit n) (list_ascii_of_string Buffer.alphabet).
Proof.
  unfold Buffer.digit.
  destruct (String.get (N.to_nat n) Buffer.alphabet) eqn:E; [right|now left].
  eapply get_In, E.
Qed.

Lemma digit_not_sep (n : N) : Ascii.eqb (Buffer.digit n) "." = false.
Proof.
  destruct (digit_cases n) as [-> | H]; [reflexivity|].
  assert (A : forallb (fun c => negb (Ascii.eqb c "."))
                (list_ascii_of_string Buffer.alphabet) = true) by reflexivity.
  rewrite forallb_forall in A. specialize (A _ H).
  now destruct (Ascii.eqb (Buffer.digit n) ".").
Qed.

Lemma toBase64_noSep (buf : list N) : Spec.noSep (Buffer.toBase64 buf) = true.
Proof.
  assert (G : forall k l, (List.length l <= k)%nat -> Spec.noSep (Buffer.toBase64 l) = true).
  { intros k. induction k as [|k IH]; intros l Hl.
    - destruct l; [reflexivity | simpl in Hl; lia].
    - destruct l as [|a [|b [|c rest]]]; [reflexivity| | |].
      + unfold Spec.noSep; simpl. now rewrite !digit_not_sep.
      + unfold Spec.noSep; simpl. now rewrite !digit_not_sep.
      + assert (R : Spec.noSep (Buffer.toBase64 rest) = true)
          by (apply IH; simpl in Hl; lia).
        unfold Spec.noSep in *; simpl. now rewrite !digit_not_sep, R. }
  now apply (G (List.length buf)).
Qed.

Lemma below_64 (P : N -> Prop) :
  (forall k, (k < 64)%nat -> P (N.of_nat k)) -> forall n, (n < 64)%N -> P n.
Proof.
  intros H n Hn. rewrite <- (N2Nat.id n). apply H. lia.
Qed.

Lemma unbase64_digit (n : N) :
  (n < 64)%N ->
  Buffer.unbase64 (Buffer.digit n) = Some n /\ Ascii.eqb (Buffer.digit n) "=" = false.
Proof.
  revert n. apply below_64. intros k Hk.
  do 64 (destruct k as [|k]; [split; reflexivity|]). lia.
Qed.

Lemma sextets_digit (n : N) (rest : string) :
  (n < 64)%N ->
  Buffer.sextets (String (Buffer.digit n) rest) = n :: Buffer.sextets rest.
Proof.
  intros Hn. destruct (unbase64_digit n Hn) as [Hu He].
  simpl. now rewrite He, Hu.
Qed.

Lemma sextets_padding (rest : string) : Buffer.sextets (String "=" rest) = [].
Proof. reflexivity. Qed.

Ltac euclid := zify; Z.to_euclidean_division_equations; nia.

Ltac sextet_bound :=
  match goal with
  | |- (_ < 64)%N => euclid
  end.

Lemma group_bytes (a b c : N) :
  (a < 256 -> b < 256 -> c < 256 ->
   a / 4 * 4 + (a mod 4 * 16 + b / 16) / 16 = a
   /\ (a mod 4 * 16 + b / 16) mod 16 * 16 + (b mod 16 * 4 + c / 64) / 4 = b
   /\ (b mod 16 * 4 + c / 64) mod 4 * 64 + c mod 64 = c)%N.
Proof.
  intros Ha Hb Hc. repeat split; euclid.
Qed.

Lemma fromBase64_toBase64 (buf : list N) :
  Forall (fun b => (b < 256)%N) buf ->
  Buffer.fromBase64 (Buffer.toBase64 buf) = buf.
Proof.
  unfold Buffer.fromBase64.
  assert (G : forall k l, (List.length l <= k)%nat ->
            Forall (fun b => (b < 256)%N) l ->
            Buffer.groups (Buffer.sextets (Buffer.toBase64 l)) = l).
  { intros k. induction k as [|k IH]; intros l Hl HF.
    - destruct l; [reflexivity | simpl in Hl; lia].
    - destruct l as [|a [|b [|c rest]]]; [reflexivity| | |].
      + inversion HF as [|? ? Ha _]; subst.
        cbn [Buffer.toBase64].
        rewrite !sextets_digit by sextet_bound.
        rewrite sextets_padding. cbn [Buffer.groups].
        f_equal. euclid.
      + inversion HF as [|? ? Ha HF1]; subst.
        inversion HF1 as [|? ? Hb _]; subst.
        cbn [Buffer.toBase64].
        rewrite !sextets_digit by sextet_bound.
        rewrite sextets_padding. cbn [Buffer.groups].
        f_equal; [|f_equal]; euclid.
      + inversion HF as [|? ? Ha HF1]; subst.
        inversion HF1 as [|? ? Hb HF2]; subst.
        inversion HF2 as [|? ? Hc HF3]; subst.
        cbn [Buffer.toBase64].
        rewrite !sextets_digit by sextet_bound.
        cbn [Buffer.groups].
        rewrite IH by (simpl in Hl; (lia || assumption)).
        destruct (group_bytes a b c Ha Hb Hc) as (E1 & E2 & E3).
        now rewrite E1, E2, E3. }
  intros HF. now apply (G (List.length buf)).
Qed.

(** ** Buffers of ASCII strings *)

Lemma from_ascii (s : string) :
  Spec.isAscii s = true ->
  Buffer.from s = List.map N_of_ascii (list_ascii_of_string s).
Proof.
  unfold Spec.isAscii, Buffer.from.
  induction (list_ascii_of_string s) as [|c l IH]; simpl; [reflexivity|].
  intros H. apply andb_prop in H as [Hc Hl].
  unfold Buffer.utf8 at 1. rewrite Hc. simpl. now rewrite IH.
Qed.

Lemma toAscii_ascii (l : list ascii) :
  forallb (fun c => (N_of_ascii c <? 128)%N) l = true ->
  Buffer.toAscii (List.map N_of_ascii l) = string_of_list_ascii l.
Proof.
  unfold Buffer.toAscii.
  induction l as [|c l IH]; simpl; [reflexivity|].
  intros H. apply andb_prop in H as [Hc Hl].
  apply N.ltb_lt in Hc.
  change 127%N with (N.ones 7). rewrite N.land_ones.
  rewrite N.mod_small by (simpl; lia).
  rewrite ascii_N_embedding. f_equal. now apply IH.
Qed.

Lemma bytes_of_ascii (l : list ascii) :
  Forall (fun b => (b < 256)%N) (List.map N_of_ascii l).
Proof.
  induction l as [|c l IH]; simpl; constructor; [apply N_ascii_bounded | exact IH].
Qed.

Lemma decode_encode_ascii (s : string) :
  Spec.isAscii s = true ->
  Security.Token.decodeBase64 (Security.Token.encodeBase64 s) = s.
Proof.
  intros H. unfold Security.Token.decodeBase64, Security.Token.encodeBase64.
  rewrite (from_ascii s H).
  rewrite fromBase64_toBase64 by apply bytes_of_ascii.
  rewrite toAscii_ascii by exact H.
  apply string_of_list_ascii_of_string.
Qed.

Lemma encodeBase64_noSep (s : string) :
  Spec.noSep (Security.Token.encodeBase64 s) = true.
Proof. apply toBase64_noSep. Qed.

Lemma uint_ascii (d : Decimal.uint) :
  Spec.isAscii (NilEmpty.string_of_uint d) = true.
Proof.
  induction d; simpl; try reflexivity; exact IHd.
Qed.

Lemma NumberToString_ascii (n : Z) : Spec.isAscii (JS.NumberToString n) = true.
Proof.
  unfold JS.NumberToString, NilZero.string_of_int, NilZero.string_of_uint.
  destruct (Z.to_int n) as [d|d].
  - destruct d; try reflexivity; apply uint_ascii.
  - assert (T : forall u, Spec.isAscii
                   (match u with
                    | Decimal.Nil => "0"
                    | _ => NilEmpty.string_of_uint u
                    end) = true)
      by (intros u; destruct u; try reflexivity; apply uint_ascii).
    specialize (T d). unfold Spec.isAscii in *. simpl. exact T.
Qed.

(** ** Tokens *)

Section TokenFacts.

Variable getSignature : string -> string -> string.
Variable StringToNumber : string -> JS.number.
Variable findOne : string -> JS.completion (option User.t).
Variable findOneById : string -> JS.completion (option User.t).

Local Abbreviation unsign := (Security.Token.unsign getSignature).
Local Abbreviation decodeToken :=
  (Security.Token.decodeToken getSignature StringToNumber findOne).
Local Abbreviation createToken := (Security.Token.createToken getSignature findOneById).
Local Abbreviation decodeBase64 := Security.Token.decodeBase64.
Local Abbreviation encodeBase64 := Security.Token.encodeBase64.

Lemma unsign_three (secret token s t sig : string) :
  JS.split "." token = [s; t; sig] ->
  unsign secret token =
    if String.eqb sig (getSignature secret (s ++ "." ++ t))
    then JS.Normal (s ++ "." ++ t)
    else JS.Throw "BadSignature: signature does not match".
Proof.
  intros H. unfold Security.Token.unsign. rewrite H. reflexivity.
Qed.

(** What [decodeToken] does with a token of three chunks. *)
Lemma decodeToken_three (token s t sig : string) :
  JS.split "." token = [s; t; sig] ->
  decodeToken token =
    if JS.isNaN (StringToNumber (decodeBase64 t)) then (Spec.Invalid, [])
    else
      match JS.TimeClip (StringToNumber (decodeBase64 t)) with
      | None => (Spec.Invalid, [])
      | Some instant =>
          match findOne (decodeBase64 s) with
          | JS.Throw e => (JS.Throw e, [])
          | JS.Normal None => (Spec.Invalid, [])
          | JS.Normal (Some u) =>
              if String.eqb sig (getSignature (User.salt u) (s ++ "." ++ t))
              then (JS.Normal
                      (Some {| Security.Token.snowflake := decodeBase64 s;
                               Security.Token.timestamp := instant;
                               Security.Token.hmac := s ++ "." ++ t;
                               Security.Token.user := u |}), [])
              else (Spec.Invalid,
                    [(LWarn, "Failed to decode HMAC data from token:");
                     (LConsole, "BadSignature: signature does not match")])
          end
      end.
Proof.
  intros H. unfold Security.Token.decodeToken. rewrite H.
  destruct (JS.isNaN _); [reflexivity|].
  destruct (JS.TimeClip _); [|reflexivity].
  destruct (findOne _) as [[u|]|e]; [|reflexivity..].
  rewrite (unsign_three _ _ _ _ _ H).
  destruct (String.eqb sig _); [|reflexivity].
  now rewrite String.eqb_refl.
Qed.

Lemma decodeToken_not_three (token : string) :
  List.length (JS.split "." token) <> 3%nat ->
  decodeToken token = (Spec.Invalid, []).
Proof.
  intros H. unfold Security.Token.decodeToken.
  destruct (JS.split "." token) as [|a [|b [|c [|d l]]]]; try reflexivity.
  now elim H.
Qed.

Lemma split_nonempty (s : string) : (1 <= List.length (JS.split "." s))%nat.
Proof.
  destruct s as [|c s]; simpl; [lia|].
  destruct (Ascii.eqb c "."); [simpl; lia|].
  destruct (JS.split "." s); simpl; lia.
Qed.

Lemma split_has_sep (s : string) :
  Spec.noSep s = false -> (2 <= List.length (JS.split "." s))%nat.
Proof.
  induction s as [|c s IH]; [discriminate|].
  unfold Spec.noSep; simpl.
  destruct (Ascii.eqb c ".") eqn:E; simpl.
  - intros _. pose proof (split_nonempty s). lia.
  - intros H. specialize (IH H).
    destruct (JS.split "." s); simpl in *; lia.
Qed.

Lemma TimeClip_ofZ (now : Z) :
  (Z.abs now <= JS.maxTime)%Z -> JS.TimeClip (JS.ofZ now) = Some now.
Proof.
  intros H. unfold JS.TimeClip, JS.ofZ. simpl.
  rewrite Z.mul_1_r. apply Z.leb_le in H. rewrite H.
  now rewrite Z.quot_1_r.
Qed.

(** The token [createToken] makes for a user. *)
Lemma createToken_user (P : User.t) (now : Z) :
  createToken (inl P) now =
    JS.Normal (encodeBase64 (User.snowflake P) ++ "."
               ++ encodeBase64 (JS.NumberToString now) ++ "."
               ++ getSignature (User.salt P)
                    (encodeBase64 (User.snowflake P) ++ "."
                     ++ encodeBase64 (JS.NumberToString now))).
Proof.
  unfold Security.Token.createToken, Security.Token.sign.
  now rewrite !append_assoc.
Qed.

(** C1, as amended.  For a user whose snowflake is made of ASCII
    characters, whom the store finds under that snowflake: the token
    [createToken] makes at an instant [now] that [Date] can hold is accepted
    by [decodeToken], and the decoded token carries the user's snowflake,
    the user and [now].  The signature is assumed to hold no ["."], and
    StringToNumber to read the decimal form of [now] as [now]. *)
Theorem token_round_trip (P : User.t) (now : Z) :
  Spec.isAscii (User.snowflake P) = true ->
  findOne (User.snowflake P) = JS.Normal (Some P) ->
  (forall secret value, Spec.noSep (getSignature secret value) = true) ->
  StringToNumber (JS.NumberToString now) = JS.ofZ now ->
  (Z.abs now <= JS.maxTime)%Z ->
  exists token d,
    createToken (inl P) now = JS.Normal token
    /\ fst (decodeToken token) = JS.Normal (Some d)
    /\ Security.Token.snowflake d = User.snowflake P
    /\ Security.Token.user d = P
    /\ Security.Token.timestamp d = now.
Proof.
  intros Hascii Hfind Hsig Hnum Hnow.
  rewrite createToken_user.
  eexists. eexists. split; [reflexivity|].
  rewrite (decodeToken_three _ _ _ _
             (split_three _ _ _ (encodeBase64_noSep _) (encodeBase64_noSep _)
                (Hsig _ _))).
  rewrite (decode_encode_ascii _ (NumberToString_ascii now)), Hnum.
  rewrite (decode_encode_ascii _ Hascii), Hfind.
  rewrite (TimeClip_ofZ now Hnow). simpl JS.isNaN. cbv iota.
  rewrite String.eqb_refl. simpl. auto.
Qed.

(** C2.  [decodeToken] accepts a token only if it has three chunks, the
    first names a user of the store, and the signature of the first two
    chunks joined by ["."] under that user's present salt is the third
    chunk.  Hence a token of three chunks whose third chunk is not that
    signature is Invalid, and so is a token made by [createToken] once the
    store holds, for its snowflake, a user under whose salt the signature
    differs. *)
Theorem token_valid_only_if_signature_reproduced :
  (forall token d l,
      decodeToken token = (JS.Normal (Some d), l) ->
      exists s t sig,
        JS.split "." token = [s; t; sig]
        /\ findOne (decodeBase64 s) = JS.Normal (Some (Security.Token.user d))
        /\ getSignature (User.salt (Security.Token.user d)) (s ++ "." ++ t) = sig)
  /\ (forall token s t sig u,
        JS.split "." token = [s; t; sig] ->
        findOne (decodeBase64 s) = JS.Normal (Some u) ->
        getSignature (User.salt u) (s ++ "." ++ t) <> sig ->
        fst (decodeToken token) = Spec.Invalid)
  /\ (forall P P' now token,
        createToken (inl P) now = JS.Normal token ->
        findOne (decodeBase64 (encodeBase64 (User.snowflake P))) = JS.Normal (Some P') ->
        getSignature (User.salt P')
          (encodeBase64 (User.snowflake P) ++ "."
           ++ encodeBase64 (JS.NumberToString now))
        <> getSignature (User.salt P)
             (encodeBase64 (User.snowflake P) ++ "."
              ++ encodeBase64 (JS.NumberToString now)) ->
        fst (decodeToken token) = Spec.Invalid).
Proof.
  assert (Reject : forall token s t sig u,
             JS.split "." token = [s; t; sig] ->
             findOne (decodeBase64 s) = JS.Normal (Some u) ->
             getSignature (User.salt u) (s ++ "." ++ t) <> sig ->
             fst (decodeToken token) = Spec.Invalid).
  { intros token s t sig u Hs Hu Hne.
    rewrite (decodeToken_three _ _ _ _ Hs), Hu.
    destruct (JS.isNaN _); [reflexivity|].
    destruct (JS.TimeClip _); [|reflexivity].
    destruct (String.eqb sig _) eqn:E; [|reflexivity].
    apply String.eqb_eq in E. now elim Hne. }
  split; [|split; [exact Reject|]].
  - intros token d l H.
    destruct (JS.split "." token) as [|s [|t [|sig [|x rest]]]] eqn:Hs;
      try (rewrite decodeToken_not_three in H by (rewrite Hs; simpl; lia);
           discriminate H).
    exists s, t, sig. split; [reflexivity|].
    rewrite (decodeToken_three _ _ _ _ Hs) in H.
    destruct (JS.isNaN _); [discriminate H|].
    destruct (JS.TimeClip _); [|discriminate H].
    destruct (findOne _) as [[u|]|e]; [|discriminate H..].
    destruct (String.eqb sig _) eqn:E; [|discriminate H].
    apply String.eqb_eq in E. injection H as <- _. simpl. auto.
  - intros P P' now token Hc Hf Hne.
    rewrite createToken_user in Hc. injection Hc as <-.
    set (s := encodeBase64 (User.snowflake P)) in *.
    set (t := encodeBase64 (JS.NumberToString now)) in *.
    set (sig := getSignature (User.salt P) (s ++ "." ++ t)) in *.
    destruct (Spec.noSep sig) eqn:Hsig.
    + apply (Reject _ s t sig P'); [|exact Hf|exact Hne].
      apply split_three; [apply encodeBase64_noSep..|exact Hsig].
    + rewrite decodeToken_not_three; [reflexivity|].
      rewrite !append_sep.
      rewrite (split_app_sep s _ (encodeBase64_noSep _)).
      rewrite (split_app_sep t _ (encodeBase64_noSep _)).
      pose proof (split_has_sep sig Hsig). simpl. lia.
Qed.

Lemma TimeClip_NaN (n : JS.number) : JS.isNaN n = true -> JS.TimeClip n = None.
Proof. destruct n; [reflexivity|discriminate..]. Qed.

(** C3, as amended.  [decodeToken] returns a decoded token or Invalid, and
    throws in one case only: the lookup of the store, which is awaited
    outside the [try], is reached and fails; the error is the store's.  It
    returns Invalid when the token does not split into three chunks, when
    the time stamp is not an instant [Date] can hold, when the store has no
    user for the snowflake, and when the third chunk is not the signature;
    and it returns Invalid in these cases only.  Empty chunks are not a
    reason of their own: a token whose time stamp chunk is empty is read as
    issued at instant 0 and accepted when its signature matches. *)
Theorem decodeToken_uniform_failure (token : string) :
  (forall e,
      fst (decodeToken token) = JS.Throw e <->
      exists s t sig instant,
        JS.split "." token = [s; t; sig]
        /\ JS.TimeClip (StringToNumber (decodeBase64 t)) = Some instant
        /\ findOne (decodeBase64 s) = JS.Throw e)
  /\ ((forall key e, findOne key <> JS.Throw e) ->
      exists r, fst (decodeToken token) = JS.Normal r)
  /\ (List.length (JS.split "." token) <> 3%nat ->
      fst (decodeToken token) = Spec.Invalid)
  /\ (forall s t sig,
        JS.split "." token = [s; t; sig] ->
        JS.TimeClip (StringToNumber (decodeBase64 t)) = None
        \/ findOne (decodeBase64 s) = JS.Normal None
        \/ (exists u, findOne (decodeBase64 s) = JS.Normal (Some u)
                      /\ getSignature (User.salt u) (s ++ "." ++ t) <> sig) ->
        fst (decodeToken token) = Spec.Invalid)
  /\ (fst (decodeToken token) = Spec.Invalid ->
      List.length (JS.split "." token) <> 3%nat
      \/ exists s t sig,
           JS.split "." token = [s; t; sig]
           /\ (JS.TimeClip (StringToNumber (decodeBase64 t)) = None
               \/ findOne (decodeBase64 s) = JS.Normal None
               \/ exists u, findOne (decodeBase64 s) = JS.Normal (Some u)
                            /\ getSignature (User.salt u) (s ++ "." ++ t) <> sig))
  /\ (forall s u,
        token = s ++ "." ++ "" ++ "." ++ getSignature (User.salt u) (s ++ "." ++ "") ->
        Spec.noSep s = true ->
        Spec.noSep (getSignature (User.salt u) (s ++ "." ++ "")) = true ->
        StringToNumber "" = JS.ofZ 0 ->
        findOne (decodeBase64 s) = JS.Normal (Some u) ->
        exists d, fst (decodeToken token) = JS.Normal (Some d)
                  /\ Security.Token.timestamp d = 0%Z
                  /\ Security.Token.user d = u).
Proof.
  assert (Throws : forall e,
             fst (decodeToken token) = JS.Throw e <->
             exists s t sig instant,
               JS.split "." token = [s; t; sig]
               /\ JS.TimeClip (StringToNumber (decodeBase64 t)) = Some instant
               /\ findOne (decodeBase64 s) = JS.Throw e).
  { intros e. split.
    - intros H.
      destruct (JS.split "." token) as [|s [|t [|sig [|x rest]]]] eqn:Hs;
        try (rewrite decodeToken_not_three in H by (rewrite Hs; simpl; lia);
             discriminate H).
      rewrite (decodeToken_three _ _ _ _ Hs) in H.
      destruct (JS.isNaN _); [discriminate H|].
      destruct (JS.TimeClip _) as [instant|] eqn:Hc; [|discriminate H].
      destruct (findOne _) as [[u|]|e'] eqn:Hf.
      + destruct (String.eqb sig _); discriminate H.
      + discriminate H.
      + injection H as ->. now exists s, t, sig, instant.
    - intros (s & t & sig & instant & Hs & Hc & Hf).
      rewrite (decodeToken_three _ _ _ _ Hs), Hc, Hf.
      destruct (JS.isNaN _) eqn:Hn; [|reflexivity].
      rewrite (TimeClip_NaN _ Hn) in Hc. discriminate Hc. }
  assert (Modes : forall s t sig,
             JS.split "." token = [s; t; sig] ->
             JS.TimeClip (StringToNumber (decodeBase64 t)) = None
             \/ findOne (decodeBase64 s) = JS.Normal None
             \/ (exists u, findOne (decodeBase64 s) = JS.Normal (Some u)
                           /\ getSignature (User.salt u) (s ++ "." ++ t) <> sig) ->
             fst (decodeToken token) = Spec.Invalid).
  { intros s t sig Hs H. rewrite (decodeToken_three _ _ _ _ Hs).
    destruct (JS.isNaN _); [reflexivity|].
    destruct H as [-> | [-> | (u & -> & H)]]; [reflexivity| |].
    - destruct (JS.TimeClip _); reflexivity.
    - destruct (JS.TimeClip _); [|reflexivity].
      destruct (String.eqb sig _) eqn:E; [|reflexivity].
      apply String.eqb_eq in E. now elim H. }
  split; [exact Throws|]. split; [|split; [|split; [exact Modes|split]]].
  - intros Hstore.
    destruct (fst (decodeToken token)) as [r|e]; [now exists r|].
    destruct (proj1 (Throws e) eq_refl) as (s & t & sig & instant & _ & _ & Hf).
    now elim (Hstore _ _ Hf).
  - intros H. now rewrite decodeToken_not_three.
  - intros H.
    destruct (JS.split "." token) as [|s [|t [|sig [|x rest]]]] eqn:Hs;
      try (left; simpl; lia).
    right. exists s, t, sig. split; [reflexivity|].
    rewrite (decodeToken_three _ _ _ _ Hs) in H.
    destruct (JS.isNaN _) eqn:Hn; [left; now apply TimeClip_NaN|].
    destruct (JS.TimeClip _) as [instant|]; [|now left].
    destruct (findOne _) as [[u|]|e']; [|right; now left|discriminate H].
    right. right. exists u. split; [reflexivity|].
    destruct (String.eqb sig _) eqn:E; [discriminate H|].
    apply String.eqb_neq in E. congruence.
  - intros s u -> Hs Hsig Hzero Hu.
    rewrite (decodeToken_three _ _ _ _ (split_three s "" _ Hs eq_refl Hsig)).
    change (decodeBase64 "") with "". rewrite Hzero, Hu.
    simpl JS.isNaN. cbv iota.
    rewrite (TimeClip_ofZ 0) by (unfold JS.maxTime; simpl; lia).
    rewrite String.eqb_refl. eexists. simpl. auto.
Qed.

End TokenFacts.

(** C1 at [Sample.alice] and the instant 1530000000000. *)
Lemma token_round_trip_witness :
  exists token d,
    Security.Token.createToken Sample.getSignature Sample.findNobody
      (inl Sample.alice) 1530000000000%Z = JS.Normal token
    /\ fst (Security.Token.decodeToken Sample.getSignature Sample.StringToNumber
              Sample.findOne token) = JS.Normal (Some d)
    /\ Security.Token.snowflake d = User.snowflake Sample.alice
    /\ Security.Token.user d = Sample.alice
    /\ Security.Token.timestamp d = 1530000000000%Z.
Proof.
  apply (token_round_trip Sample.getSignature Sample.StringToNumber
           Sample.findOne Sample.findNobody Sample.alice 1530000000000%Z).
  - reflexivity.
  - reflexivity.
  - intros secret value. apply toBase64_noSep.
  - reflexivity.
  - unfold JS.maxTime. simpl. lia.
Defined.

(** C1 without the restriction to ASCII does not hold.  The store finds
    [Sample.zoe] under her snowflake, yet her fresh token is Invalid; and
    with a store that answers every lookup with her, the decoded snowflake
    is ["C)"] and not hers. *)
Lemma token_round_trip_fails_beyond_ascii :
  Sample.findZoe (User.snowflake Sample.zoe) = JS.Normal (Some Sample.zoe)
  /\ fst (Security.Token.decodeToken Sample.getSignature Sample.StringToNumber
            Sample.findZoe (Sample.issue Sample.zoe 1530000000000%Z))
     = Spec.Invalid
  /\ exists d,
       fst (Security.Token.decodeToken Sample.getSignature Sample.StringToNumber
              Sample.findAlwaysZoe (Sample.issue Sample.zoe 1530000000000%Z))
       = JS.Normal (Some d)
       /\ Security.Token.snowflake d = "C)"
       /\ String.eqb (Security.Token.snowflake d) (User.snowflake Sample.zoe) = false.
Proof.
  split; [reflexivity|]. split; [vm_compute; reflexivity|].
  eexists. split; [vm_compute; reflexivity|]. split; reflexivity.
Qed.

(** C2 on examples.  [Sample.issued] is accepted and its third chunk is the
    signature; [Sample.tampered] is Invalid; [Sample.issued] is Invalid once
    the store holds [Sample.rotated]. *)
Lemma token_valid_only_if_signature_reproduced_witness :
  (exists s t sig,
      JS.split "." Sample.issued = [s; t; sig]
      /\ Sample.findOne (Security.Token.decodeBase64 s) = JS.Normal (Some Sample.alice)
      /\ Sample.getSignature (User.salt Sample.alice) (s ++ "." ++ t) = sig)
  /\ fst (Security.Token.decodeToken Sample.getSignature Sample.StringToNumber
            Sample.findOne Sample.tampered) = Spec.Invalid
  /\ fst (Security.Token.decodeToken Sample.getSignature Sample.StringToNumber
            Sample.findOneRotated Sample.issued) = Spec.Invalid.
Proof.
  split; [|split].
  - apply (proj1 (token_valid_only_if_signature_reproduced
                    Sample.getSignature Sample.StringToNumber Sample.findOne
                    Sample.findNobody)
             Sample.issued
             {| Security.Token.snowflake := User.snowflake Sample.alice;
                Security.Token.timestamp := 1530000000000%Z;
                Security.Token.hmac :=
                  "NjkzNDQ1NTk4MjI2MDIyNA==.MTUzMDAwMDAwMDAwMA==";
                Security.Token.user := Sample.alice |} []).
    vm_compute. reflexivity.
  - eapply (proj1 (proj2 (token_valid_only_if_signature_reproduced
                            Sample.getSignature Sample.StringToNumber
                            Sample.findOne Sample.findNobody))
              Sample.tampered _ _ _ Sample.alice).
    + vm_compute. reflexivity.
    + vm_compute. reflexivity.
    + vm_compute. discriminate.
  - apply (proj2 (proj2 (token_valid_only_if_signature_reproduced
                           Sample.getSignature Sample.StringToNumber
                           Sample.findOneRotated Sample.findNobody))
             Sample.alice Sample.rotated 1530000000000%Z Sample.issued).
    + vm_compute. reflexivity.
    + vm_compute. reflexivity.
    + vm_compute. discriminate.
Defined.

(** C3 on examples.  ["a.b"] and ["a.b.c.d"] are Invalid, [Sample.tampered]
    is Invalid, [Sample.undated] is accepted, and with a store that cannot
    be reached [Sample.issued] is answered with the error of the store. *)
Lemma decodeToken_uniform_failure_witness :
  fst (Security.Token.decodeToken Sample.getSignature Sample.StringToNumber
         Sample.findOne "a.b") = Spec.Invalid
  /\ fst (Security.Token.decodeToken Sample.getSignature Sample.StringToNumber
            Sample.findOne "a.b.c.d") = Spec.Invalid
  /\ fst (Security.Token.decodeToken Sample.getSignature Sample.StringToNumber
            Sample.findOne Sample.tampered) = Spec.Invalid
  /\ (exists d,
        fst (Security.Token.decodeToken Sample.getSignature Sample.StringToNumber
               Sample.findOne Sample.undated) = JS.Normal (Some d)
        /\ Security.Token.timestamp d = 0%Z
        /\ Security.Token.user d = Sample.alice)
  /\ fst (Security.Token.decodeToken Sample.getSignature Sample.StringToNumber
            Sample.findFails Sample.issued) = JS.Throw "connection closed"
  /\ (exists r,
        fst (Security.Token.decodeToken Sample.getSignature Sample.StringToNumber
               Sample.findOne Sample.issued) = JS.Normal r).
Proof.
  split; [|split; [|split; [|split; [|split]]]].
  - apply (proj1 (proj2 (proj2 (decodeToken_uniform_failure Sample.getSignature
                                  Sample.StringToNumber Sample.findOne "a.b")))).
    vm_compute. lia.
  - apply (proj1 (proj2 (proj2 (decodeToken_uniform_failure Sample.getSignature
                                  Sample.StringToNumber Sample.findOne "a.b.c.d")))).
    vm_compute. lia.
  - eapply (proj1 (proj2 (proj2 (proj2
              (decodeToken_uniform_failure Sample.getSignature
                 Sample.StringToNumber Sample.findOne Sample.tampered))))).
    + vm_compute. reflexivity.
    + right. right. exists Sample.alice. split; [vm_compute; reflexivity|].
      vm_compute. discriminate.
  - apply (proj2 (proj2 (proj2 (proj2 (proj2
             (decodeToken_uniform_failure Sample.getSignature
                Sample.StringToNumber Sample.findOne Sample.undated)))))
             (Security.Token.encodeBase64 (User.snowflake Sample.alice))
             Sample.alice).
    + vm_compute. reflexivity.
    + apply toBase64_noSep.
    + apply toBase64_noSep.
    + reflexivity.
    + vm_compute. reflexivity.
  - apply (proj1 (decodeToken_uniform_failure Sample.getSignature
                    Sample.StringToNumber Sample.findFails Sample.issued)).
    exists "NjkzNDQ1NTk4MjI2MDIyNA==", "MTUzMDAwMDAwMDAwMA==",
      "NWYyYjhjMWVOamt6TkRRMU5UazRNakkyTURJeU5BPT0uTVRVek1EQXdNREF3TURBd01BPT0=",
      1530000000000%Z.
    split; [vm_compute; reflexivity|]. split; vm_compute; reflexivity.
  - apply (proj1 (proj2 (decodeToken_uniform_failure Sample.getSignature
                           Sample.StringToNumber Sample.findOne Sample.issued))).
    intros key e H. discriminate H.
Defined.

(** C3 as stated does not hold, on two counts.  [Sample.undated] is not
    made of three non-empty chunks, its second chunk being empty, and is
    accepted; and with a store that cannot be reached [decodeToken] throws
    for [Sample.issued]. *)
Lemma decodeToken_accepts_empty_chunk :
  JS.split "." Sample.undated
  = ["NjkzNDQ1NTk4MjI2MDIyNA=="; "";
     "NWYyYjhjMWVOamt6TkRRMU5UazRNakkyTURJeU5BPT0u"]
  /\ fst (Security.Token.decodeToken Sample.getSignature Sample.StringToNumber
            Sample.findOne Sample.undated)
     = JS.Normal
         (Some {| Security.Token.snowflake := "6934455982260224";
                  Security.Token.timestamp := 0;
                  Security.Token.hmac := "NjkzNDQ1NTk4MjI2MDIyNA==.";
                  Security.Token.user := Sample.alice |})
  /\ fst (Security.Token.decodeToken Sample.getSignature Sample.StringToNumber
            Sample.findFails Sample.issued)
     = JS.Throw "connection closed".
Proof.
  repeat split; vm_compute; reflexivity.
Qed.

(** ** ArrayUtils *)

(** C9.  [optional] returns the empty array for every falsy argument, among
    them [null], [undefined], 0, the empty string, NaN and [false], and the
    one-element array holding the argument for every truthy one; the falsy
    values are [undefined], [null], [false], NaN, zero, [0n] and the empty
    string, and no others. *)
Theorem optional_keeps_truthy_only :
  (forall item, JS.ToBoolean item = false -> ArrayUtils.optional item = [])
  /\ (forall item, JS.ToBoolean item = true -> ArrayUtils.optional item = [item])
  /\ ArrayUtils.optional JS.VNull = []
  /\ ArrayUtils.optional JS.VUndefined = []
  /\ ArrayUtils.optional (JS.VNum (JS.ofZ 0)) = []
  /\ ArrayUtils.optional (JS.VStr "") = []
  /\ ArrayUtils.optional (JS.VNum JS.NaN) = []
  /\ ArrayUtils.optional (JS.VBool false) = []
  /\ (forall item,
        JS.ToBoolean item = false ->
        item = JS.VUndefined \/ item = JS.VNull \/ item = JS.VBool false
        \/ item = JS.VNum JS.NaN
        \/ (exists q, item = JS.VNum (JS.Finite q) /\ Qnum q = 0%Z)
        \/ item = JS.VBigInt 0 \/ item = JS.VStr "").
Proof.
  unfold ArrayUtils.optional.
  split; [intros item ->; reflexivity|].
  split; [intros item ->; reflexivity|].
  do 6 (split; [reflexivity|]).
  intros item H. destruct item as [| |b|n|z|s|f|ps|xs]; simpl in H;
    try discriminate H; auto.
  - destruct b; [discriminate H|auto].
  - destruct n as [|neg|q]; [auto|discriminate H|].
    apply negb_false_iff, Z.eqb_eq in H. do 4 right. left. now exists q.
  - apply negb_false_iff, Z.eqb_eq in H. subst. auto 10.
  - apply negb_false_iff, String.eqb_eq in H. subst. auto 10.
Qed.

(** C9 on examples: a present zero is dropped, a one is kept, and the empty
    string is one of the falsy values listed. *)
Lemma optional_keeps_truthy_only_witness :
  ArrayUtils.optional (JS.VBigInt 0) = []
  /\ ArrayUtils.optional (JS.VNum (JS.ofZ 1)) = [JS.VNum (JS.ofZ 1)]
  /\ (JS.VStr "" = JS.VUndefined \/ JS.VStr "" = JS.VNull
      \/ JS.VStr "" = JS.VBool false \/ JS.VStr "" = JS.VNum JS.NaN
      \/ (exists q, JS.VStr "" = JS.VNum (JS.Finite q) /\ Qnum q = 0%Z)
      \/ JS.VStr "" = JS.VBigInt 0 \/ JS.VStr "" = JS.VStr "").
Proof.
  split; [|split].
  - apply (proj1 optional_keeps_truthy_only). reflexivity.
  - apply (proj1 (proj2 optional_keeps_truthy_only)). reflexivity.
  - apply (proj2 (proj2 (proj2 (proj2 (proj2 (proj2 (proj2 (proj2
             optional_keeps_truthy_only)))))))). reflexivity.
Defined.

(** ** Routing *)

Lemma prefixed_succ (prefix : string) (n : nat) (p : string) :
  Spec.prefixed prefix n (prefix ++ "/" ++ p) = Spec.prefixed prefix (S n) p.
Proof.
  unfold Spec.prefixed. now rewrite Nat.iter_succ_r.
Qed.

Lemma sameButPath_setPath (p : string) (o : Http.RouteOpts) :
  Spec.sameButPath o (Routing.setPath p o).
Proof. repeat split. Qed.

Lemma sameButPath_trans (o1 o2 o3 : Http.RouteOpts) :
  Spec.sameButPath o1 o2 -> Spec.sameButPath o2 o3 -> Spec.sameButPath o1 o3.
Proof.
  unfold Spec.sameButPath. intros (A1 & A2 & A3) (B1 & B2 & B3).
  repeat split; congruence.
Qed.

Lemma prefixPath_routes (route : nat) (prefix : string) (heap : Routing.Store) :
  Routing.routes (snd (Routing.prefixPath route prefix heap)) = Routing.routes heap.
Proof.
  unfold Routing.prefixPath. cbn [snd].
  now destruct (Routing.routes heap !! route).
Qed.

Lemma pointers_routes (heap heap' : Routing.Store) (routes : list nat) (a : nat) :
  Routing.routes heap' = Routing.routes heap ->
  Spec.pointers heap' routes a = Spec.pointers heap routes a.
Proof. unfold Spec.pointers. now intros ->. Qed.

Lemma prefixPath_options (route : nat) (prefix : string) (heap : Routing.Store)
  (a : nat) :
  Routing.options (snd (Routing.prefixPath route prefix heap)) !! a
  = match Routing.routes heap !! route with
    | Some r =>
        if Nat.eqb (Routing.opts r) a
        then option_map (fun o => Routing.setPath (prefix ++ "/" ++ Http.path o) o)
               (Routing.options heap !! a)
        else Routing.options heap !! a
    | None => Routing.options heap !! a
    end.
Proof.
  unfold Routing.prefixPath. cbn [snd].
  destruct (Routing.routes heap !! route) as [r|]; [|reflexivity].
  cbn [Routing.options].
  destruct (Nat.eqb_spec (Routing.opts r) a) as [->|Hne].
  - rewrite lookup_alter_eq. now destruct (Routing.options heap !! a).
  - now rewrite lookup_alter_ne.
Qed.

Lemma prefixPaths_lookup (prefix : string) (routes : list nat) :
  forall (heap : Routing.Store) (a : nat),
    Routing.routes (snd (Routing.prefixPaths routes prefix heap)) = Routing.routes heap
    /\ (forall o, Routing.options heap !! a = Some o ->
          exists o',
            Routing.options (snd (Routing.prefixPaths routes prefix heap)) !! a = Some o'
            /\ Http.path o' = Spec.prefixed prefix (Spec.pointers heap routes a) (Http.path o)
            /\ Spec.sameButPath o o')
    /\ (Routing.options heap !! a = None ->
        Routing.options (snd (Routing.prefixPaths routes prefix heap)) !! a = None).
Proof.
  unfold Routing.prefixPaths. cbn [snd].
  induction routes as [|route routes IH]; intros heap a; cbn [fold_left].
  - split; [reflexivity|]. split; [|auto].
    intros o H. exists o. repeat split; auto.
  - destruct (IH (snd (Routing.prefixPath route prefix heap)) a) as (IHr & IHs & IHn).
    pose proof (prefixPath_routes route prefix heap) as Rt.
    rewrite (pointers_routes heap _ routes a Rt) in IHs.
    rewrite (prefixPath_options route prefix heap a) in IHs, IHn.
    split; [now rewrite IHr|].
    unfold Spec.pointers at 1. cbn [List.filter].
    destruct (Routing.routes heap !! route) as [r|];
      [|split; [exact IHs|exact IHn]].
    destruct (Nat.eqb (Routing.opts r) a).
    + split.
      * intros o H. rewrite H in IHs.
        destruct (IHs _ eq_refl) as (o' & L & Pth & Same).
        exists o'. split; [exact L|]. split.
        -- rewrite Pth. cbn [Routing.setPath Http.path List.length].
           apply prefixed_succ.
        -- eapply sameButPath_trans; [apply sameButPath_setPath|exact Same].
      * intros H. apply IHn. now rewrite H.
    + split; [exact IHs|exact IHn].
Qed.

(** C10.  [prefixPath] returns the address it was given and leaves every
    route object as it is: the same [opts] object, handler and error.  The
    [opts] object of the route has its [path] replaced by the prefix, ["/"]
    and the old path, and its other fields as before; no other [opts] object
    changes, and a route that holds the same [opts] object sees the new
    path.  [prefixPaths] returns the list it was given, after applying
    [prefixPath] to its elements in order: an [opts] object has the prefix
    put before its path once for every element of the list that holds it,
    its other fields as before, and no object is created or removed. *)
Theorem prefixPath_in_place (prefix : string) (heap : Routing.Store) :
  (forall route,
      fst (Routing.prefixPath route prefix heap) = route
      /\ Routing.routes (snd (Routing.prefixPath route prefix heap))
         = Routing.routes heap
      /\ (forall r o,
            Routing.routes heap !! route = Some r ->
            Routing.options heap !! Routing.opts r = Some o ->
            exists o',
              Routing.options (snd (Routing.prefixPath route prefix heap))
                !! Routing.opts r = Some o'
              /\ Http.path o' = prefix ++ "/" ++ Http.path o
              /\ Spec.sameButPath o o')
      /\ (forall r other,
            Routing.routes heap !! route = Some r ->
            other <> Routing.opts r ->
            Routing.options (snd (Routing.prefixPath route prefix heap)) !! other
            = Routing.options heap !! other)
      /\ (forall r r' other o,
            Routing.routes heap !! route = Some r ->
            Routing.routes heap !! other = Some r' ->
            Routing.opts r' = Routing.opts r ->
            Routing.options heap !! Routing.opts r' = Some o ->
            exists o',
              Routing.routes (snd (Routing.prefixPath route prefix heap)) !! other
              = Some r'
              /\ Routing.options (snd (Routing.prefixPath route prefix heap))
                   !! Routing.opts r' = Some o'
              /\ Http.path o' = prefix ++ "/" ++ Http.path o))
  /\ (forall routes,
        fst (Routing.prefixPaths routes prefix heap) = routes
        /\ snd (Routing.prefixPaths routes prefix heap)
           = fold_left (fun h route => snd (Routing.prefixPath route prefix h))
               routes heap
        /\ Routing.routes (snd (Routing.prefixPaths routes prefix heap))
           = Routing.routes heap
        /\ (forall a o,
              Routing.options heap !! a = Some o ->
              exists o',
                Routing.options (snd (Routing.prefixPaths routes prefix heap)) !! a
                = Some o'
                /\ Http.path o'
                   = Spec.prefixed prefix (Spec.pointers heap routes a) (Http.path o)
                /\ Spec.sameButPath o o')
        /\ (forall a,
              Routing.options heap !! a = None ->
              Routing.options (snd (Routing.prefixPaths routes prefix heap)) !! a
              = None)).
Proof.
  split.
  - intros route. split; [reflexivity|]. split; [apply prefixPath_routes|].
    unfold Routing.prefixPath. cbn [snd]. split; [|split].
    + intros r o Hr Ho. rewrite Hr. cbn [Routing.options].
      rewrite lookup_alter_eq, Ho. cbn.
      eexists. split; [reflexivity|]. split; [reflexivity|].
      apply sameButPath_setPath.
    + intros r other Hr Hne. rewrite Hr. cbn [Routing.options].
      now rewrite lookup_alter_ne.
    + intros r r' other o Hr Hr' E Ho. rewrite Hr. cbn [Routing.options Routing.routes].
      rewrite E in *. rewrite lookup_alter_eq, Ho. cbn.
      eexists. split; [exact Hr'|]. split; reflexivity.
  - intros routes. split; [reflexivity|]. split; [reflexivity|].
    split; [apply (proj1 (prefixPaths_lookup prefix routes heap 0%nat))|]. split.
    + intros a o H. now apply (proj1 (proj2 (prefixPaths_lookup prefix routes heap a))).
    + intros a H. now apply (proj2 (proj2 (prefixPaths_lookup prefix routes heap a))).
Qed.

(** C10 on [Spec.sharing].  After [prefixPath] on route 1 the [opts] object
    at 10 has the new path, the one at 11 is as before, and route 2, which
    holds the object at 10 as well, has the new path; after [prefixPaths] on
    the routes 1, 2 and 3 the object at 10 has the prefix twice and the one
    at 11 once. *)
Lemma prefixPath_in_place_witness :
  (exists o',
      Routing.options (snd (Routing.prefixPath 1 "/v1" Spec.sharing)) !! 10%nat
      = Some o'
      /\ Http.path o' = "/v1" ++ "/" ++ Http.path (Http.opts TestRoutes.test1)
      /\ Spec.sameButPath (Http.opts TestRoutes.test1) o')
  /\ Routing.options (snd (Routing.prefixPath 1 "/v1" Spec.sharing)) !! 11%nat
     = Routing.options Spec.sharing !! 11%nat
  /\ (exists r' o',
        Routing.routes (snd (Routing.prefixPath 1 "/v1" Spec.sharing)) !! 2%nat
        = Some r'
        /\ Routing.options (snd (Routing.prefixPath 1 "/v1" Spec.sharing))
             !! Routing.opts r' = Some o'
        /\ Http.path o' = "/v1//api/v0/test/1")
  /\ (exists o',
        Routing.options (snd (Routing.prefixPaths [1; 2; 3]%nat "/v1" Spec.sharing))
          !! 10%nat = Some o'
        /\ Http.path o' = "/v1//v1//api/v0/test/1"
        /\ Spec.sameButPath (Http.opts TestRoutes.test1) o')
  /\ (exists o',
        Routing.options (snd (Routing.prefixPaths [1; 2; 3]%nat "/v1" Spec.sharing))
          !! 11%nat = Some o'
        /\ Http.path o' = "/v1//api/v0/test/2"
        /\ Spec.sameButPath (Http.opts TestRoutes.test2) o')
  /\ Routing.options (snd (Routing.prefixPaths [1; 2; 3]%nat "/v1" Spec.sharing))
       !! 12%nat = None.
Proof.
  pose proof (prefixPath_in_place "/v1" Spec.sharing) as [One Many].
  destruct (One 1%nat) as (_ & _ & Own & Frame & Shared).
  destruct (Many [1; 2; 3]%nat) as (_ & _ & _ & Count & Absent).
  split; [|split; [|split; [|split; [|split]]]].
  - apply (Own {| Routing.opts := 10%nat;
                  Routing.handler := Http.handler TestRoutes.test1;
                  Routing.error := None |}); reflexivity.
  - apply (Frame {| Routing.opts := 10%nat;
                    Routing.handler := Http.handler TestRoutes.test1;
                    Routing.error := None |}); [reflexivity|discriminate].
  - exists {| Routing.opts := 10%nat;
              Routing.handler := Http.handler TestRoutes.test2;
              Routing.error := None |}.
    apply (Shared {| Routing.opts := 10%nat;
                     Routing.handler := Http.handler TestRoutes.test1;
                     Routing.error := None |}
             {| Routing.opts := 10%nat;
                Routing.handler := Http.handler TestRoutes.test2;
                Routing.error := None |} 2%nat (Http.opts TestRoutes.test1));
      reflexivity.
  - apply (Count 10%nat (Http.opts TestRoutes.test1)). reflexivity.
  - apply (Count 11%nat (Http.opts TestRoutes.test2)). reflexivity.
  - apply Absent. reflexivity.
Defined.

(** ** The example routes, end to end *)










(** ** Handlers that do not call [next()] *)

Lemma perform_never_proceeds (acts : list Http.action) (k k' : Http.continuation) :
  ~ In Http.Proceed acts ->
  forall x, Http.perform k acts x = Http.perform k' acts x.
Proof.
  induction acts as [|a acts IH]; intros H x; [reflexivity|].
  destruct a; cbn [Http.perform].
  - elim H. now left.
  - apply IH. intros I. apply H. now right.
  - apply IH. intros I. apply H. now right.
  - reflexivity.
Qed.

Lemma invoke_never_proceeds (h : Http.RouteHandler) (req : Http.Request)
  (k k' : Http.continuation) (x : Http.Exchange) :
  Spec.neverProceeds h -> Http.invoke h req k x = Http.invoke h req k' x.
Proof.
  intros H. unfold Http.invoke. specialize (H req (Http.modules x)).
  destruct (Http.run h req (Http.modules x)) as [acts m].
  now apply perform_never_proceeds.
Qed.

(** ** The guard chain *)

Section GuardChain.

Local Open Scope list_scope.

Variable route : Http.Route.
Variable req : Http.Request.

Local Abbreviation gs := (Http.guardsOf route).

(** *** Traces *)

Lemma increasing_le (l : list nat) :
  forall lo hi, Spec.increasing lo l hi -> lo <= hi.
Proof.
  induction l as [|i l IH]; intros lo hi; simpl; [auto|].
  intros [H1 H2]. apply IH in H2. lia.
Qed.

Lemma increasing_weaken (l : list nat) (lo lo' hi : nat) :
  lo' <= lo -> Spec.increasing lo l hi -> Spec.increasing lo' l hi.
Proof.
  destruct l; simpl; [lia|]. intros ? [? ?]. split; [lia|assumption].
Qed.

Lemma increasing_app (l1 l2 : list nat) :
  forall a b c,
    Spec.increasing a l1 b -> Spec.increasing b l2 c ->
    Spec.increasing a (l1 ++ l2) c.
Proof.
  induction l1 as [|i l1 IH]; intros a b c; simpl.
  - intros H1 H2. now apply (increasing_weaken l2 b).
  - intros [H1 H2] H3. split; [assumption|]. now apply (IH _ b).
Qed.

Lemma guardIndices_app (e1 e2 : list Http.event) :
  Spec.guardIndices (e1 ++ e2) = Spec.guardIndices e1 ++ Spec.guardIndices e2.
Proof. apply flat_map_app. Qed.

Lemma handlerCalls_app (e1 e2 : list Http.event) :
  Spec.handlerCalls (e1 ++ e2) = Spec.handlerCalls e1 + Spec.handlerCalls e2.
Proof.
  unfold Spec.handlerCalls. now rewrite List.filter_app, List.length_app.
Qed.

Lemma lastGuard_app (e1 e2 : list Http.event) :
  forall p, Spec.lastGuard (e1 ++ e2) p = Spec.lastGuard e2 (Spec.lastGuard e1 p).
Proof.
  induction e1 as [|e e1 IH]; intros p; [reflexivity|].
  destruct e; simpl; apply IH.
Qed.

Lemma neverTwice_app (e1 e2 : list Http.event) :
  forall p,
    Spec.neverTwice p e1 -> Spec.neverTwice (Spec.lastGuard e1 p) e2 ->
    Spec.neverTwice p (e1 ++ e2).
Proof.
  induction e1 as [|e e1 IH]; intros p; simpl; [auto|].
  destruct e; simpl; try apply IH.
  intros [H1 H2] H3. split; [assumption|]. now apply IH.
Qed.

Lemma fromGuards_app (e1 e2 : list Http.event) :
  Spec.fromGuards gs e1 -> Spec.fromGuards gs e2 -> Spec.fromGuards gs (e1 ++ e2).
Proof.
  intros H1 H2 i g H. apply in_app_or in H as [H|H]; eauto.
Qed.

Lemma onlySent_not_guard (s : list Http.event) (i g : nat) :
  Spec.onlySent s -> ~ In (Http.GuardInvoked i g) s.
Proof.
  intros H I. unfold Spec.onlySent in H. rewrite List.Forall_forall in H.
  exact (H _ I).
Qed.

Lemma onlySent_guardIndices (s : list Http.event) :
  Spec.onlySent s -> Spec.guardIndices s = [].
Proof.
  induction 1 as [|e s He _ IH]; [reflexivity|].
  destruct e; try contradiction. exact IH.
Qed.

Lemma onlySent_handlerCalls (s : list Http.event) :
  Spec.onlySent s -> Spec.handlerCalls s = 0.
Proof.
  induction 1 as [|e s He _ IH]; [reflexivity|].
  destruct e; try contradiction. exact IH.
Qed.

Lemma onlySent_lastGuard (s : list Http.event) (p : option nat) :
  Spec.onlySent s -> Spec.lastGuard s p = p.
Proof.
  induction 1 as [|e s He _ IH]; [reflexivity|].
  destruct e; try contradiction. exact IH.
Qed.

Lemma onlySent_neverTwice (s : list Http.event) (p : option nat) :
  Spec.onlySent s -> Spec.neverTwice p s.
Proof.
  induction 1 as [|e s He _ IH]; [exact I|].
  destruct e; try contradiction. exact IH.
Qed.

Lemma onlySent_app (s1 s2 : list Http.event) :
  Spec.onlySent s1 -> Spec.onlySent s2 -> Spec.onlySent (s1 ++ s2).
Proof. apply Forall_app_2. Qed.


(** *** States *)

Lemma extends_refl (x : Http.Exchange) : Spec.extends gs x x.
Proof.
  exists []. rewrite List.app_nil_r. repeat split; simpl; auto.
  intros i g [].
Qed.

Lemma extends_trans (x y z : Http.Exchange) :
  Spec.extends gs x y -> Spec.extends gs y z -> Spec.extends gs x z.
Proof.
  intros (e1 & T1 & I1 & P1 & N1 & F1) (e2 & T2 & I2 & P2 & N2 & F2).
  exists (e1 ++ e2). split; [|split; [|split; [|split]]].
  - now rewrite T2, T1, List.app_assoc.
  - rewrite guardIndices_app. now apply (increasing_app _ _ _ (Http.currentIndex y)).
  - now rewrite lastGuard_app, <- P1.
  - apply neverTwice_app; [assumption|]. now rewrite <- P1.
  - now apply fromGuards_app.
Qed.

Lemma extends_sent (x x' : Http.Exchange) (s : list Http.event) :
  Http.trace x' = Http.trace x ++ s ->
  Spec.onlySent s ->
  Http.currentIndex x' = Http.currentIndex x ->
  Http.previous x' = Http.previous x ->
  Spec.extends gs x x'.
Proof.
  intros T S I P. exists s. split; [assumption|].
  rewrite (onlySent_guardIndices s S), (onlySent_lastGuard s _ S), I, P.
  repeat split; simpl; auto using onlySent_neverTwice.
  intros i g H. now apply onlySent_not_guard in H.
Qed.

Lemma extends_quiet (x x' : Http.Exchange) :
  Http.trace x' = Http.trace x ->
  Http.currentIndex x' = Http.currentIndex x ->
  Http.previous x' = Http.previous x ->
  Spec.extends gs x x'.
Proof.
  intros T. apply (extends_sent x x' []); [now rewrite List.app_nil_r|constructor].
Qed.

Lemma extends_json (body : JS.value) (x : Http.Exchange) :
  Spec.extends gs x (Http.json body x).
Proof.
  apply (extends_sent _ _ [Http.Sent (Http.statusCode x) body]);
    [reflexivity|repeat constructor|reflexivity|reflexivity].
Qed.

(** *** Every run of the chain ends *)

Lemma perform_extends (k : Http.continuation) (lo : nat) :
  (forall y, lo <= Http.currentIndex y ->
     exists y', k y = Some y' /\ Spec.extends gs y y') ->
  forall acts x,
    lo <= Http.currentIndex x ->
    exists x', Http.perform k acts x = Some x' /\ Spec.extends gs x x'.
Proof.
  intros Hk. induction acts as [|a acts IH]; intros x Hx.
  - exists x. split; [reflexivity|apply extends_refl].
  - destruct a; cbn [Http.perform].
    + destruct (Hk x Hx) as (y' & -> & E).
      destruct (Http.pending y'); [now exists y'|].
      destruct (IH y') as (x' & P & E').
      { destruct E as (e & _ & I & _). apply increasing_le in I. lia. }
      exists x'. split; [assumption|]. now apply (extends_trans _ y').
    + destruct (IH (Http.setStatus code x) Hx) as (x' & P & E').
      exists x'. split; [assumption|].
      apply (extends_trans _ (Http.setStatus code x)); [|assumption].
      now apply extends_quiet.
    + destruct (IH (Http.json body x) Hx) as (x' & P & E').
      exists x'. split; [assumption|].
      apply (extends_trans _ (Http.json body x)); [|assumption].
      apply extends_json.
    + exists (Http.setPending e x). split; [reflexivity|]. now apply extends_quiet.
Qed.

Lemma invoke_extends (h : Http.RouteHandler) (k : Http.continuation) (lo : nat) :
  (forall y, lo <= Http.currentIndex y ->
     exists y', k y = Some y' /\ Spec.extends gs y y') ->
  forall x,
    lo <= Http.currentIndex x ->
    exists x', Http.invoke h req k x = Some x' /\ Spec.extends gs x x'.
Proof.
  intros Hk x Hx. unfold Http.invoke.
  destruct (Http.run h req (Http.modules x)) as [acts m].
  destruct (perform_extends k lo Hk acts (Http.setModules m x) Hx) as (x' & P & E).
  exists x'. split; [assumption|].
  apply (extends_trans _ (Http.setModules m x)); [|assumption].
  now apply extends_quiet.
Qed.

Lemma terminal_extends (x : Http.Exchange) :
  exists x',
    Http.invoke (Http.handler route) req Some
      (Http.observe (Http.HandlerInvoked (Http.ref (Http.handler route)))
         (Http.setIndex (S (Http.currentIndex x)) x)) = Some x'
    /\ Spec.extends gs x x'
    /\ Http.currentIndex x < Http.currentIndex x'.
Proof.
  destruct (invoke_extends (Http.handler route) Some 0) with
    (x := Http.observe (Http.HandlerInvoked (Http.ref (Http.handler route)))
            (Http.setIndex (S (Http.currentIndex x)) x)) as (x' & P & E).
  { intros y _. exists y. split; [reflexivity|apply extends_refl]. }
  { lia. }
  exists x'. split; [assumption|].
  assert (E0 : Spec.extends gs x
                 (Http.observe (Http.HandlerInvoked (Http.ref (Http.handler route)))
                    (Http.setIndex (S (Http.currentIndex x)) x))).
  { exists [Http.HandlerInvoked (Http.ref (Http.handler route))].
    repeat split; simpl; auto.
    intros i g [H|[]]. discriminate H. }
  split; [now apply (extends_trans _ _ _ E0)|].
  destruct E as (e & _ & I & _). apply increasing_le in I. simpl in I. lia.
Qed.

Lemma next_extends (fuel : nat) :
  forall x,
    List.length gs - Http.currentIndex x < fuel ->
    exists x',
      Http.next fuel route req x = Some x'
      /\ Spec.extends gs x x'
      /\ Http.currentIndex x < Http.currentIndex x'.
Proof.
  induction fuel as [|fuel IH]; intros x Hx; [lia|].
  cbn [Http.next].
  destruct (nth_error gs (Http.currentIndex x)) as [g|] eqn:G;
    [|apply terminal_extends].
  change (Http.previous (Http.setIndex (S (Http.currentIndex x)) x))
    with (Http.previous x).
  destruct (decide (Http.previous x = Some (Http.ref g))) as [Same|Other];
    [apply terminal_extends|].
  assert (Hi : Http.currentIndex x < List.length gs)
    by (apply nth_error_Some; congruence).
  destruct (invoke_extends g (Http.next fuel route req) (S (Http.currentIndex x)))
    with (x := Http.observe (Http.GuardInvoked (Http.currentIndex x) (Http.ref g))
                 (Http.setPrevious (Some (Http.ref g))
                    (Http.setIndex (S (Http.currentIndex x)) x)))
    as (x' & P & E).
  { intros y Hy. destruct (IH y) as (y' & N & E & _); [lia|]. now exists y'. }
  { simpl. lia. }
  exists x'. split; [assumption|].
  assert (E0 : Spec.extends gs x
                 (Http.observe (Http.GuardInvoked (Http.currentIndex x) (Http.ref g))
                    (Http.setPrevious (Some (Http.ref g))
                       (Http.setIndex (S (Http.currentIndex x)) x)))).
  { exists [Http.GuardInvoked (Http.currentIndex x) (Http.ref g)].
    repeat split; simpl; auto.
    intros i h [H|[]]. injection H as <- <-. now exists g. }
  split; [now apply (extends_trans _ _ _ E0)|].
  destruct E as (e & _ & I & _). apply increasing_le in I. simpl in I. lia.
Qed.

(** *** Guards that call [next()] at most once *)

Lemma perform_sents (k : Http.continuation) :
  (forall y, k y = Some y) ->
  forall acts x,
  exists x' s,
    Http.perform k acts x = Some x'
    /\ Http.trace x' = Http.trace x ++ s
    /\ Spec.onlySent s.
Proof.
  intros Hk. induction acts as [|a acts IH]; intros x.
  - exists x, []. rewrite List.app_nil_r. repeat split. constructor.
  - destruct a; cbn [Http.perform].
    + rewrite Hk. destruct (Http.pending x).
      * exists x, []. rewrite List.app_nil_r. repeat split. constructor.
      * apply IH.
    + apply (IH (Http.setStatus code x)).
    + destruct (IH (Http.json body x)) as (x' & s & P & T & Ss).
      exists x', (Http.Sent (Http.statusCode x) body :: s).
      split; [assumption|]. split.
      * rewrite T. simpl. now rewrite <- List.app_assoc.
      * constructor; [exact I|assumption].
    + exists (Http.setPending e x), []. rewrite List.app_nil_r.
      repeat split. constructor.
Qed.





(** C4, as amended.  Every call of [next()] moves on to the next position
    of the guard array, whoever makes the call.  When the guard at that
    position is the very guard invoked last, it is not invoked and the
    terminal handler is; when it is another guard, that guard is invoked,
    also when the call was a second call by the same guard.  However many
    times the guards and the handler call [next()], the request ends after at
    most one call of [next] per position and one more: the positions of the
    guards invoked increase strictly, each is the guard the array holds
    there, and no guard is invoked twice in succession. *)
Theorem guard_chain_reentrancy :
  (forall fuel x g,
      nth_error gs (Http.currentIndex x) = Some g ->
      Http.previous x = Some (Http.ref g) ->
      Http.next (S fuel) route req x
      = Http.invoke (Http.handler route) req Some
          (Http.observe (Http.HandlerInvoked (Http.ref (Http.handler route)))
             (Http.setIndex (S (Http.currentIndex x)) x)))
  /\ (forall fuel x g,
        nth_error gs (Http.currentIndex x) = Some g ->
        Http.previous x <> Some (Http.ref g) ->
        Http.next (S fuel) route req x
        = Http.invoke g req (Http.next fuel route req)
            (Http.observe (Http.GuardInvoked (Http.currentIndex x) (Http.ref g))
               (Http.setPrevious (Some (Http.ref g))
                  (Http.setIndex (S (Http.currentIndex x)) x))))
  /\ (forall x,
        exists x' evs,
          Http.chain route req x = Some x'
          /\ Http.trace x' = Http.trace x ++ evs
          /\ Spec.increasing 0 (Spec.guardIndices evs) (Http.currentIndex x')
          /\ Spec.neverTwice None evs
          /\ Spec.fromGuards gs evs).
Proof.
  split; [|split].
  - intros fuel x g G Same. cbn [Http.next]. rewrite G.
    change (Http.previous (Http.setIndex (S (Http.currentIndex x)) x))
      with (Http.previous x).
    now destruct (decide (Http.previous x = Some (Http.ref g))).
  - intros fuel x g G Other. cbn [Http.next]. rewrite G.
    change (Http.previous (Http.setIndex (S (Http.currentIndex x)) x))
      with (Http.previous x).
    now destruct (decide (Http.previous x = Some (Http.ref g))).
  - intros x. unfold Http.chain.
    destruct (next_extends (S (List.length gs))
                (Http.setPrevious None (Http.setIndex 0 x)))
      as (x' & N & (evs & T & I & _ & NT & F) & _); [simpl; lia|].
    exists x', evs. simpl in T, I, NT. auto.
Qed.


End GuardChain.

(** *** Every request is answered *)







(** C4 on examples.  In the chain [passes; passes; rejects403] the call of
    [next] at position 1, after [passes] was invoked, goes to the terminal
    handler; in the chain [proceedsTwice; rejects403; rejects401] the call
    of [next] at position 2, after [rejects403] was invoked, invokes
    [rejects401]. *)
Lemma guard_chain_reentrancy_witness :
  option_map Http.trace
    (Http.next 3 (Spec.guarded [Spec.passes; Spec.passes; Spec.rejects403])
       Spec.getGuarded
       (Http.setPrevious (Some 10%nat)
          (Http.setIndex 1 (Http.fresh TestRoutes.initial))))
  = Some [Http.HandlerInvoked 20; Http.Sent 200 (JS.VObj [("ok", JS.VBool true)])]
  /\ option_map Http.trace
       (Http.next 3
          (Spec.guarded [Spec.proceedsTwice; Spec.rejects403; Spec.rejects401])
          Spec.getGuarded
          (Http.setPrevious (Some 12%nat)
             (Http.setIndex 2 (Http.fresh TestRoutes.initial))))
     = Some [Http.GuardInvoked 2 13;
             Http.Sent 401 (JS.VObj [("code", JS.VStr "401")])].
Proof.
  split.
  - rewrite (proj1 (guard_chain_reentrancy
                      (Spec.guarded [Spec.passes; Spec.passes; Spec.rejects403])
                      Spec.getGuarded)
               2%nat
               (Http.setPrevious (Some 10%nat)
                  (Http.setIndex 1 (Http.fresh TestRoutes.initial)))
               Spec.passes eq_refl eq_refl).
    vm_compute. reflexivity.
  - rewrite (proj1 (proj2 (guard_chain_reentrancy
                             (Spec.guarded
                                [Spec.proceedsTwice; Spec.rejects403; Spec.rejects401])
                             Spec.getGuarded))
               2%nat
               (Http.setPrevious (Some 12%nat)
                  (Http.setIndex 2 (Http.fresh TestRoutes.initial)))
               Spec.rejects401 eq_refl
               (fun H => eq_ind (Some 12%nat)
                           (fun o => match o with Some 12%nat => True | _ => False end)
                           I _ H)).
    vm_compute. reflexivity.
Defined.

(** C4 as stated does not hold: a guard that calls [next()] twice.  In the
    chain [proceedsTwice; rejects403; silent] the first call invokes
    [rejects403] and the second call invokes [silent], the guard at the
    next position: the second call is not taken for a repetition, and the
    terminal handler is never invoked. *)
Lemma second_proceed_invokes_the_next_guard :
  option_map Http.trace
    (Http.chain (Spec.guarded [Spec.proceedsTwice; Spec.rejects403; Spec.silent])
       Spec.getGuarded (Http.fresh TestRoutes.initial))
  = Some [Http.GuardInvoked 0 11;
          Http.GuardInvoked 1 12;
          Http.Sent 403 (JS.VObj [("code", JS.VStr "403")]);
          Http.GuardInvoked 2 14]
  /\ option_map (fun x => Spec.handlerCalls (Http.trace x))
       (Http.chain (Spec.guarded [Spec.proceedsTwice; Spec.rejects403; Spec.silent])
          Spec.getGuarded (Http.fresh TestRoutes.initial))
     = Some 0%nat.
Proof.
  split; vm_compute; reflexivity.
Qed.

Lemma scripted_once (r : nat) (acts : list Http.action) (req : Http.Request) :
  (List.length (List.filter Spec.isProceed acts) <= 1)%nat ->
  Spec.proceedsAtMostOnce req (Spec.scripted r acts).
Proof. intros H m. exact H. Qed.



(** ** Registration *)




(** ** The base64 helpers of the token code *)

Lemma utf8_bytes (c : ascii) : Forall Terms.isByte (Buffer.utf8 c).
Proof.
  unfold Buffer.utf8, Terms.isByte. pose proof (N_ascii_bounded c) as B.
  destruct (N_of_ascii c <? 128)%N eqn:E.
  - constructor; [assumption|constructor].
  - repeat constructor; euclid.
Qed.

Lemma from_bytes (s : string) : Forall (fun b => (b < 256)%N) (Buffer.from s).
Proof.
  unfold Buffer.from.
  induction (list_ascii_of_string s) as [|c l IH]; simpl; [constructor|].
  apply Forall_app_2; [apply utf8_bytes|exact IH].
Qed.

Lemma toAscii_length (buf : list N) :
  String.length (Buffer.toAscii buf) = List.length buf.
Proof.
  unfold Buffer.toAscii. induction buf as [|b buf IH]; simpl; [reflexivity|].
  now rewrite IH.
Qed.

Lemma string_length_list (s : string) :
  String.length s = List.length (list_ascii_of_string s).
Proof. induction s as [|c s IH]; simpl; [reflexivity|now rewrite IH]. Qed.

Lemma from_length (s : string) :
  (String.length s <= List.length (Buffer.from s))%nat
  /\ (Spec.isAscii s = false -> (String.length s < List.length (Buffer.from s))%nat).
Proof.
  rewrite string_length_list. unfold Spec.isAscii, Buffer.from.
  induction (list_ascii_of_string s) as [|c l [IH1 IH2]]; simpl.
  - split; [lia|discriminate].
  - rewrite List.length_app. unfold Buffer.utf8 at 1 3.
    destruct (N_of_ascii c <? 128)%N; simpl.
    + split; [lia|]. intros H. specialize (IH2 H). lia.
    + split; [lia|]. intros _. lia.
Qed.

(** [decodeBase64] after [encodeBase64]: the UTF-8 bytes of the string read
    back as 7-bit characters.  It gives the string back exactly when the
    string is ASCII. *)
Theorem base64_helpers_round_trip (s : string) :
  Security.Token.decodeBase64 (Security.Token.encodeBase64 s)
  = Buffer.toAscii (Buffer.from s)
  /\ (Spec.isAscii s = true ->
      Security.Token.decodeBase64 (Security.Token.encodeBase64 s) = s)
  /\ (Security.Token.decodeBase64 (Security.Token.encodeBase64 s) = s ->
      Spec.isAscii s = true).
Proof.
  assert (E : Security.Token.decodeBase64 (Security.Token.encodeBase64 s)
              = Buffer.toAscii (Buffer.from s)).
  { unfold Security.Token.decodeBase64, Security.Token.encodeBase64.
    now rewrite fromBase64_toBase64 by apply from_bytes. }
  split; [exact E|]. split; [apply decode_encode_ascii|].
  rewrite E. intros H. destruct (Spec.isAscii s) eqn:A; [reflexivity|exfalso].
  apply (f_equal String.length) in H. rewrite toAscii_length in H.
  pose proof (proj2 (from_length s) A). lia.
Qed.

(** For the ASCII strings "1530000000000" and "6934455982260224". *)
Lemma base64_helpers_round_trip_witness :
  Security.Token.decodeBase64 (Security.Token.encodeBase64 "1530000000000")
  = "1530000000000"
  /\ Spec.isAscii "6934455982260224" = true.
Proof.
  split.
  - apply (proj1 (proj2 (base64_helpers_round_trip "1530000000000"))). reflexivity.
  - apply (proj2 (proj2 (base64_helpers_round_trip "6934455982260224"))).
    vm_compute. reflexivity.
Defined.

Lemma N_of_ascii_inj (c d : ascii) : N_of_ascii c = N_of_ascii d -> c = d.
Proof.
  intros H. rewrite <- (ascii_N_embedding c), <- (ascii_N_embedding d).
  now rewrite H.
Qed.

Lemma from_cons (c : ascii) (s : string) :
  Buffer.from (String c s) = (Buffer.utf8 c ++ Buffer.from s)%list.
Proof. reflexivity. Qed.

Lemma from_inj (s : string) : forall s', Buffer.from s = Buffer.from s' -> s = s'.
Proof.
  induction s as [|c s IH]; intros [|c' s'].
  - reflexivity.
  - rewrite from_cons. unfold Buffer.utf8.
    destruct (N_of_ascii c' <? 128)%N; discriminate.
  - rewrite from_cons. unfold Buffer.utf8.
    destruct (N_of_ascii c <? 128)%N; discriminate.
  - rewrite !from_cons. unfold Buffer.utf8.
    pose proof (N_ascii_bounded c) as B. pose proof (N_ascii_bounded c') as B'.
    destruct (N_of_ascii c <? 128)%N eqn:E; destruct (N_of_ascii c' <? 128)%N eqn:E';
      simpl; intros H.
    + injection H as H1 H2. apply N_of_ascii_inj in H1. subst. f_equal. now apply IH.
    + injection H as H1 _. apply N.ltb_lt in E. exfalso. euclid.
    + injection H as H1 _. apply N.ltb_lt in E'. exfalso. euclid.
    + injection H as H1 H2 H3.
      assert (N_of_ascii c = N_of_ascii c') by euclid.
      apply N_of_ascii_inj in H. subst. f_equal. now apply IH.
Qed.

Lemma toBase64_length (buf : list N) :
  String.length (Buffer.toBase64 buf) = (4 * ((List.length buf + 2) / 3))%nat.
Proof.
  assert (G : forall k l, (List.length l <= k)%nat ->
            String.length (Buffer.toBase64 l) = (4 * ((List.length l + 2) / 3))%nat).
  { intros k. induction k as [|k IH]; intros l Hl.
    - destruct l; [reflexivity|simpl in Hl; lia].
    - destruct l as [|a [|b [|c rest]]]; try reflexivity.
      cbn [Buffer.toBase64 String.length List.length].
      rewrite IH by (simpl in Hl; lia).
      replace (S (S (S (List.length rest))) + 2)%nat
        with ((List.length rest + 2) + 1 * 3)%nat by lia.
      rewrite Nat.div_add by lia. lia. }
  now apply (G (List.length buf)).
Qed.

Lemma digit_base64 (n : N) : Terms.isBase64Char (Buffer.digit n) = true.
Proof.
  unfold Terms.isBase64Char.
  destruct (digit_cases n) as [-> | H]; [reflexivity|].
  apply orb_true_iff. right. apply existsb_exists.
  exists (Buffer.digit n). split; [assumption|apply Ascii.eqb_refl].
Qed.

Lemma toBase64_chars (buf : list N) :
  Terms.allChars Terms.isBase64Char (Buffer.toBase64 buf) = true.
Proof.
  assert (G : forall k l, (List.length l <= k)%nat ->
            Terms.allChars Terms.isBase64Char (Buffer.toBase64 l) = true).
  { intros k. induction k as [|k IH]; intros l Hl.
    - destruct l; [reflexivity|simpl in Hl; lia].
    - destruct l as [|a [|b [|c rest]]]; [reflexivity| | |];
        unfold Terms.allChars; cbn [Buffer.toBase64 list_ascii_of_string forallb];
        rewrite ?digit_base64; try reflexivity.
      apply (IH rest). simpl in Hl. lia. }
  now apply (G (List.length buf)).
Qed.

Lemma encodeBase64_inj (s s' : string) :
  Security.Token.encodeBase64 s = Security.Token.encodeBase64 s' -> s = s'.
Proof.
  unfold Security.Token.encodeBase64. intros H. apply from_inj.
  rewrite <- (fromBase64_toBase64 (Buffer.from s) (from_bytes s)).
  rewrite <- (fromBase64_toBase64 (Buffer.from s') (from_bytes s')).
  now rewrite H.
Qed.

(** What [encodeBase64] gives: characters of the base64 alphabet and
    padding only, among them no ["."]; a length that is a multiple of four,
    four characters for every three bytes begun; and different strings for
    different arguments. *)
Theorem encodeBase64_shape (s : string) :
  Terms.allChars Terms.isBase64Char (Security.Token.encodeBase64 s) = true
  /\ Spec.noSep (Security.Token.encodeBase64 s) = true
  /\ String.length (Security.Token.encodeBase64 s)
     = (4 * ((List.length (Buffer.from s) + 2) / 3))%nat
  /\ (Spec.isAscii s = true ->
      String.length (Security.Token.encodeBase64 s)
      = (4 * ((String.length s + 2) / 3))%nat)
  /\ (forall s', Security.Token.encodeBase64 s = Security.Token.encodeBase64 s' ->
                 s = s').
Proof.
  unfold Security.Token.encodeBase64.
  split; [apply toBase64_chars|]. split; [apply toBase64_noSep|].
  split; [apply toBase64_length|]. split.
  - intros A. rewrite toBase64_length, (from_ascii s A), List.length_map.
    now rewrite string_length_list.
  - intros s' H. apply from_inj.
    rewrite <- (fromBase64_toBase64 (Buffer.from s) (from_bytes s)).
    rewrite <- (fromBase64_toBase64 (Buffer.from s') (from_bytes s')).
    now rewrite H.
Qed.

(** For a snowflake of sixteen digits: twenty-four characters. *)
Lemma encodeBase64_shape_witness :
  String.length (Security.Token.encodeBase64 "6934455982260224") = 24%nat
  /\ "6934455982260224" = "6934455982260224".
Proof.
  split.
  - apply (proj1 (proj2 (proj2 (proj2 (encodeBase64_shape "6934455982260224"))))).
    reflexivity.
  - apply (proj2 (proj2 (proj2 (proj2 (encodeBase64_shape "6934455982260224"))))).
    reflexivity.
Defined.

(** ** Security.random and Security.snowflake *)

Lemma hexDigit_hex (n : N) : Terms.isHexChar (Security.hexDigit n) = true.
Proof.
  unfold Terms.isHexChar, Security.hexDigit.
  destruct (String.get (N.to_nat n) "0123456789abcdef") as [c|] eqn:E;
    [|reflexivity].
  apply existsb_exists. exists c. split; [|apply Ascii.eqb_refl].
  eapply get_In, E.
Qed.

Lemma hex_chars (buf : list N) :
  Terms.allChars Terms.isHexChar (Security.hex buf) = true.
Proof.
  unfold Terms.allChars. induction buf as [|b buf IH]; [reflexivity|].
  cbn [Security.hex list_ascii_of_string forallb].
  now rewrite !hexDigit_hex, IH.
Qed.

Lemma hex_length (buf : list N) :
  String.length (Security.hex buf) = (2 * List.length buf)%nat.
Proof.
  induction buf as [|b buf IH]; [reflexivity|].
  cbn [Security.hex String.length List.length]. rewrite IH. lia.
Qed.

Lemma hexChars_noSep (s : string) :
  Terms.allChars Terms.isHexChar s = true -> Spec.noSep s = true.
Proof.
  unfold Terms.allChars, Spec.noSep.
  induction (list_ascii_of_string s) as [|c l IH]; [reflexivity|].
  cbn [forallb]. intros H. apply andb_prop in H as [Hc Hl].
  rewrite (IH Hl), andb_true_r.
  destruct (Ascii.eqb_spec c "."); [subst; discriminate Hc|reflexivity].
Qed.

Lemma below_16 (P : N -> Prop) :
  (forall k, (k < 16)%nat -> P (N.of_nat k)) -> forall n, (n < 16)%N -> P n.
Proof.
  intros H n Hn. rewrite <- (N2Nat.id n). apply H. lia.
Qed.

Lemma hexDigit_index (n : N) :
  (n < 16)%N ->
  Buffer.index_of (Security.hexDigit n) "0123456789abcdef" 0 = Some n.
Proof.
  revert n. apply below_16. intros k Hk.
  do 16 (destruct k as [|k]; [reflexivity|]). lia.
Qed.

Lemma hex_inj (buf : list N) :
  forall buf',
    Forall Terms.isByte buf -> Forall Terms.isByte buf' ->
    Security.hex buf = Security.hex buf' -> buf = buf'.
Proof.
  induction buf as [|b buf IH]; intros [|b' buf'] F F' H; try discriminate H;
    [reflexivity|].
  cbn [Security.hex] in H. injection H as H1 H2 H3.
  inversion F as [|? ? Hb Fb]; inversion F' as [|? ? Hb' Fb']; subst.
  unfold Terms.isByte in Hb, Hb'.
  assert (A1 : (b / 16 = b' / 16)%N).
  { assert (Some (b / 16)%N = Some (b' / 16)%N) as [= E]; [|exact E].
    rewrite <- (hexDigit_index (b / 16)), <- (hexDigit_index (b' / 16)) by euclid.
    now rewrite H1. }
  assert (A2 : (b mod 16 = b' mod 16)%N).
  { assert (Some (b mod 16)%N = Some (b' mod 16)%N) as [= E]; [|exact E].
    rewrite <- (hexDigit_index (b mod 16)), <- (hexDigit_index (b' mod 16)) by euclid.
    now rewrite H2. }
  f_equal; [euclid|now apply IH].
Qed.

Lemma isByte_firstn (n : nat) (l : list N) :
  Forall Terms.isByte l -> Forall Terms.isByte (firstn n l).
Proof.
  intros F. revert n.
  induction F as [|x l Hx F IH]; intros [|n]; cbn [firstn]; constructor;
    [exact Hx|apply IH].
Qed.

(** [Security.random(length)] gives lower-case hexadecimal digits only, so
    no ["."]; two for every byte drawn, so [length] characters for an even
    [length] when the source has the bytes; and two draws give the same
    string only when the bytes drawn are the same. *)
Theorem random_is_hexadecimal (length : nat) (entropy : list N) :
  Terms.allChars Terms.isHexChar (Security.random length entropy) = true
  /\ Spec.noSep (Security.random length entropy) = true
  /\ String.length (Security.random length entropy)
     = (2 * Nat.min (length / 2) (List.length entropy))%nat
  /\ (Nat.even length = true ->
      (length / 2 <= List.length entropy)%nat ->
      String.length (Security.random length entropy) = length)
  /\ (forall entropy',
        Forall Terms.isByte entropy -> Forall Terms.isByte entropy' ->
        Security.random length entropy = Security.random length entropy' ->
        firstn (length / 2) entropy = firstn (length / 2) entropy').
Proof.
  unfold Security.random.
  split; [apply hex_chars|]. split; [apply hexChars_noSep, hex_chars|].
  split; [now rewrite hex_length, List.length_firstn|]. split.
  - intros E L. rewrite hex_length, List.length_firstn.
    apply Nat.even_spec in E as [k ->].
    rewrite (Nat.mul_comm 2 k), Nat.div_mul in * by lia. lia.
  - intros entropy' F F' H.
    apply hex_inj; [apply isByte_firstn, F|apply isByte_firstn, F'|exact H].
Qed.

(** A tracking reference: sixteen characters from eight bytes. *)
Lemma random_is_hexadecimal_witness :
  String.length (Security.random 16 [1; 35; 69; 103; 137; 171; 205; 239]%N) = 16%nat
  /\ firstn (16 / 2) [1; 35; 69; 103; 137; 171; 205; 239]%N
     = firstn (16 / 2) [1; 35; 69; 103; 137; 171; 205; 239; 0]%N.
Proof.
  split.
  - apply (proj1 (proj2 (proj2 (proj2
             (random_is_hexadecimal 16 [1; 35; 69; 103; 137; 171; 205; 239]%N)))));
      [reflexivity|simpl; lia].
  - apply (proj2 (proj2 (proj2 (proj2
             (random_is_hexadecimal 16 [1; 35; 69; 103; 137; 171; 205; 239]%N)))));
      [repeat constructor..|reflexivity].
Defined.

Lemma uint_digits (d : Decimal.uint) :
  Terms.allChars Terms.isDigit (NilEmpty.string_of_uint d) = true.
Proof.
  induction d; simpl; try reflexivity; exact IHd.
Qed.

Lemma to_uint_nonnil (id : N) : N.to_uint id <> Decimal.Nil.
Proof.
  destruct id as [|p]; [discriminate|]. apply DecimalPos.Unsigned.to_uint_nonnil.
Qed.

Lemma digits_ascii (s : string) :
  Terms.allChars Terms.isDigit s = true ->
  Spec.isAscii s = true /\ Spec.noSep s = true.
Proof.
  unfold Terms.allChars, Spec.isAscii, Spec.noSep.
  induction (list_ascii_of_string s) as [|c l IH]; [split; reflexivity|].
  cbn [forallb]. intros H. apply andb_prop in H as [Hc Hl].
  destruct (IH Hl) as [-> ->]. rewrite !andb_true_r.
  unfold Terms.isDigit in Hc. apply existsb_exists in Hc as (d & Hd & E).
  apply Ascii.eqb_eq in E. subst d.
  simpl in Hd. repeat (destruct Hd as [<-|Hd]; [split; reflexivity|]).
  contradiction.
Qed.

Lemma decimal_digits (id : N) :
  Terms.allChars Terms.isDigit (NilZero.string_of_uint (N.to_uint id)) = true.
Proof.
  unfold NilZero.string_of_uint.
  destruct (N.to_uint id) eqn:E; try reflexivity; rewrite <- E; apply uint_digits.
Qed.

(** [Security.snowflake()] resolves to one or more decimal digits, an ASCII
    string without ["."]; different identifiers give different snowflakes;
    and an error of the generator is passed on as it is. *)
Theorem snowflake_is_decimal :
  (forall id,
      exists s,
        Security.snowflake (JS.Normal id) = JS.Normal s
        /\ Terms.allChars Terms.isDigit s = true
        /\ (0 < String.length s)%nat
        /\ Spec.isAscii s = true
        /\ Spec.noSep s = true)
  /\ (forall id id',
        Security.snowflake (JS.Normal id) = Security.snowflake (JS.Normal id') ->
        id = id')
  /\ (forall err, Security.snowflake (JS.Throw err) = JS.Throw err).
Proof.
  split; [|split].
  - intros id. eexists. split; [reflexivity|].
    pose proof (decimal_digits id) as D.
    split; [exact D|]. split.
    + pose proof (to_uint_nonnil id) as NN.
      unfold NilZero.string_of_uint.
      destruct (N.to_uint id); try contradiction; simpl; lia.
    + now apply digits_ascii.
  - intros id id' H. simpl in H. injection H as H.
    apply DecimalN.Unsigned.to_uint_inj.
    assert (Some (N.to_uint id) = Some (N.to_uint id')) as [= E]; [|exact E].
    rewrite <- (NilZero.usu _ (to_uint_nonnil id)),
      <- (NilZero.usu _ (to_uint_nonnil id')).
    now rewrite H.
  - reflexivity.
Qed.

(** For the identifier 6934455982260224: its snowflake, and an identifier
    with the same snowflake. *)
Lemma snowflake_is_decimal_witness :
  (exists s,
      Security.snowflake (JS.Normal 6934455982260224%N) = JS.Normal s
      /\ Terms.allChars Terms.isDigit s = true
      /\ (0 < String.length s)%nat
      /\ Spec.isAscii s = true
      /\ Spec.noSep s = true)
  /\ (0 + 6934455982260224 = 6934455982260224)%N.
Proof.
  split.
  - apply (proj1 snowflake_is_decimal).
  - apply (proj1 (proj2 snowflake_is_decimal)). reflexivity.
Defined.

(** ** Tokens: what is issued, what is accepted, what is logged *)

Lemma split_not_nil (sep : ascii) (s : string) : JS.split sep s <> [].
Proof.
  destruct s as [|c s]; simpl; [discriminate|].
  destruct (Ascii.eqb c sep); [discriminate|].
  destruct (JS.split sep s); discriminate.
Qed.

Lemma join_cons (sep chunk h : string) (t : list string) :
  JS.join sep (chunk :: h :: t) = chunk ++ sep ++ JS.join sep (h :: t).
Proof. reflexivity. Qed.

Lemma join_split (sep : ascii) (s : string) :
  JS.join (String sep "") (JS.split sep s) = s.
Proof.
  induction s as [|c s IH]; [reflexivity|].
  cbn [JS.split]. pose proof (split_not_nil sep s) as NN.
  destruct (JS.split sep s) as [|h t]; [contradiction|].
  destruct (Ascii.eqb_spec c sep) as [->|Hc].
  - rewrite join_cons, IH. reflexivity.
  - destruct t as [|h' t].
    + cbn [JS.join] in *. now rewrite IH.
    + rewrite join_cons, append_cons, <- join_cons. now rewrite IH.
Qed.

Lemma append_inj_l (a x y : string) : a ++ x = a ++ y -> x = y.
Proof.
  induction a as [|c a IH]; [trivial|].
  rewrite !append_cons. intros [= H]. now apply IH.
Qed.

Lemma sep_cut (a a' r r' : string) :
  Spec.noSep a = true -> Spec.noSep a' = true ->
  a ++ "." ++ r = a' ++ "." ++ r' -> a = a' /\ r = r'.
Proof.
  intros Ha Ha' H.
  assert (E : a = a').
  { apply (f_equal (JS.split ".")) in H. rewrite !append_sep in H.
    rewrite (split_app_sep a _ Ha), (split_app_sep a' _ Ha') in H.
    now injection H. }
  subst a'. split; [reflexivity|].
  apply append_inj_l in H. rewrite !append_sep in H. now injection H.
Qed.

Lemma NumberToString_inj (n m : Z) :
  JS.NumberToString n = JS.NumberToString m -> n = m.
Proof.
  unfold JS.NumberToString. intros H.
  assert (NN : forall z, Z.to_int z <> Decimal.Pos Decimal.Nil
                         /\ Z.to_int z <> Decimal.Neg Decimal.Nil).
  { intros [|p|p]; simpl; split; try discriminate;
      intros [= E]; now apply (DecimalPos.Unsigned.to_uint_nonnil p). }
  apply DecimalZ.to_int_inj.
  assert (Some (Z.to_int n) = Some (Z.to_int m)) as [= E]; [|exact E].
  rewrite <- (NilZero.isi _ (proj1 (NN n)) (proj2 (NN n))).
  rewrite <- (NilZero.isi _ (proj1 (NN m)) (proj2 (NN m))).
  now rewrite H.
Qed.

Lemma TimeClip_bound (t : JS.number) (instant : Z) :
  JS.TimeClip t = Some instant -> (Z.abs instant <= JS.maxTime)%Z.
Proof.
  destruct t as [| |q]; try discriminate. unfold JS.TimeClip.
  destruct (Z.leb_spec (Z.abs (Qnum q)) (JS.maxTime * Zpos (Qden q))) as [L|];
    [|discriminate].
  intros [= <-]. rewrite <- (Z.quot_abs _ _) by lia.
  rewrite Z.quot_div_nonneg by lia.
  apply Z.div_le_upper_bound; lia.
Qed.

Section TokenUse.

Variable getSignature : string -> string -> string.
Variable StringToNumber : string -> JS.number.
Variable findOne : string -> JS.completion (option User.t).
Variable findOneById : string -> JS.completion (option User.t).

Local Abbreviation sign := (Security.Token.sign getSignature).
Local Abbreviation decodeToken :=
  (Security.Token.decodeToken getSignature StringToNumber findOne).
Local Abbreviation getUser :=
  (Security.Token.getUser getSignature StringToNumber findOne).
Local Abbreviation createToken := (Security.Token.createToken getSignature findOneById).
Local Abbreviation decodeBase64 := Security.Token.decodeBase64.
Local Abbreviation encodeBase64 := Security.Token.encodeBase64.

Lemma split_chunks_noSep (s : string) :
  Forall (fun chunk => Spec.noSep chunk = true) (JS.split "." s).
Proof.
  induction s as [|c s IH]; [repeat constructor|].
  cbn [JS.split]. destruct (Ascii.eqb c ".") eqn:E.
  - constructor; [reflexivity|exact IH].
  - destruct (JS.split "." s) as [|h t].
    + repeat constructor. unfold Spec.noSep. simpl. now rewrite E.
    + inversion IH as [|? ? Hh Ht]; subst. constructor; [|assumption].
      unfold Spec.noSep in *. simpl. now rewrite E.
Qed.

(** What an accepted token is. *)
Lemma decodeToken_accepted (token : string) (d : Security.Token.DecodedToken)
  (l : list LogEntry) :
  decodeToken token = (JS.Normal (Some d), l) ->
  exists s t,
    token = sign (User.salt (Security.Token.user d)) (s ++ "." ++ t)
    /\ Spec.noSep s = true /\ Spec.noSep t = true
    /\ Security.Token.snowflake d = decodeBase64 s
    /\ Security.Token.hmac d = s ++ "." ++ t
    /\ JS.TimeClip (StringToNumber (decodeBase64 t)) = Some (Security.Token.timestamp d)
    /\ findOne (decodeBase64 s) = JS.Normal (Some (Security.Token.user d))
    /\ l = [].
Proof.
  intros H.
  destruct (JS.split "." token) as [|s [|t [|sig [|x rest]]]] eqn:Hs;
    try (rewrite (decodeToken_not_three getSignature StringToNumber findOne) in H
           by (rewrite Hs; simpl; lia);
         discriminate H).
  exists s, t.
  rewrite (decodeToken_three getSignature StringToNumber findOne _ _ _ _ Hs) in H.
  destruct (JS.isNaN _); [discriminate H|].
  destruct (JS.TimeClip _) as [instant|]; [|discriminate H].
  destruct (findOne _) as [[u|]|e]; [|discriminate H..].
  destruct (String.eqb sig _) eqn:E; [|discriminate H].
  apply String.eqb_eq in E. injection H as <- <-. cbn.
  pose proof (split_chunks_noSep token) as Hn. rewrite Hs in Hn.
  inversion Hn as [|? ? Ns Hn1]; subst. inversion Hn1 as [|? ? Nt _]; subst.
  repeat split; try assumption; try reflexivity.
  rewrite <- (join_split "." token) at 1. rewrite Hs, !join_cons. cbn [JS.join].
  unfold Security.Token.sign. now rewrite !append_assoc.
Qed.

Lemma decodeToken_throws (token e : string) :
  fst (decodeToken token) = JS.Throw e ->
  exists s t sig,
    JS.split "." token = [s; t; sig] /\ findOne (decodeBase64 s) = JS.Throw e.
Proof.
  intros H.
  destruct (JS.split "." token) as [|s [|t [|sig [|x rest]]]] eqn:Hs;
    try (rewrite (decodeToken_not_three getSignature StringToNumber findOne) in H
           by (rewrite Hs; simpl; lia);
         discriminate H).
  rewrite (decodeToken_three getSignature StringToNumber findOne _ _ _ _ Hs) in H.
  destruct (JS.isNaN _); [discriminate H|].
  destruct (JS.TimeClip _); [|discriminate H].
  destruct (findOne _) as [[u|]|e'] eqn:Hf.
  - destruct (String.eqb sig _); discriminate H.
  - discriminate H.
  - injection H as ->. now exists s, t, sig.
Qed.

(** [createToken] given an identifier: an identifier the store does not
    know is refused with "Unknown user.", and a known one gives the token of
    the user found.  The token of a user is the two encoded fields and the
    signature, three chunks when the signature holds no ["."]; and two tokens
    are the same only when they name the same snowflake and the same
    instant. *)
Theorem createToken_names_subject_and_instant :
  (forall id now,
      findOneById id = JS.Normal None ->
      createToken (inr id) now = JS.Throw "Unknown user.")
  /\ (forall id u now,
        findOneById id = JS.Normal (Some u) ->
        createToken (inr id) now = createToken (inl u) now)
  /\ (forall P now token,
        createToken (inl P) now = JS.Normal token ->
        Spec.noSep (getSignature (User.salt P)
                      (encodeBase64 (User.snowflake P) ++ "."
                       ++ encodeBase64 (JS.NumberToString now))) = true ->
        exists sig,
          JS.split "." token
          = [encodeBase64 (User.snowflake P); encodeBase64 (JS.NumberToString now); sig])
  /\ (forall P P' now now',
        createToken (inl P) now = createToken (inl P') now' ->
        User.snowflake P = User.snowflake P' /\ now = now').
Proof.
  split; [|split; [|split]].
  - intros id now H. unfold Security.Token.createToken. now rewrite H.
  - intros id u now H. unfold Security.Token.createToken. now rewrite H.
  - intros P now token H Hsig.
    rewrite (createToken_user getSignature findOneById) in H. injection H as <-.
    eexists. apply split_three; [apply encodeBase64_noSep..|exact Hsig].
  - intros P P' now now' H.
    rewrite !(createToken_user getSignature findOneById) in H. injection H as H.
    apply sep_cut in H as [H1 H]; [|apply encodeBase64_noSep..].
    apply sep_cut in H as [H2 _]; [|apply encodeBase64_noSep..].
    split; [now apply encodeBase64_inj|].
    now apply NumberToString_inj, encodeBase64_inj.
Qed.

(** [decodeToken] accepts nothing but what the signer makes: an accepted
    token is the signed form, under the salt of the user returned, of two
    chunks joined by ["."]; the decoded token holds that text, the first
    chunk decoded as its snowflake, the user the store holds under that
    snowflake, and an instant [Date] can hold; and nothing was logged. *)
Theorem decodeToken_accepts_only_signed (token : string)
  (d : Security.Token.DecodedToken) (l : list LogEntry) :
  decodeToken token = (JS.Normal (Some d), l) ->
  token = sign (User.salt (Security.Token.user d)) (Security.Token.hmac d)
  /\ List.length (JS.split "." (Security.Token.hmac d)) = 2%nat
  /\ findOne (Security.Token.snowflake d) = JS.Normal (Some (Security.Token.user d))
  /\ (exists s, JS.split "." token = s :: List.tl (JS.split "." token)
                /\ Security.Token.snowflake d = decodeBase64 s)
  /\ (Z.abs (Security.Token.timestamp d) <= JS.maxTime)%Z
  /\ l = [].
Proof.
  intros H.
  destruct (decodeToken_accepted _ _ _ H)
    as (s & t & Htok & Ns & Nt & Hsf & Hh & Hclip & Hu & Hl).
  rewrite Hh, Hsf. split; [exact Htok|]. split.
  { rewrite append_sep. rewrite (split_app_sep s _ Ns).
    now rewrite (split_noSep t Nt). }
  split; [exact Hu|]. split.
  { exists s. split; [|reflexivity].
    rewrite Htok at 1 2. unfold Security.Token.sign.
    rewrite !append_assoc, append_sep. rewrite (split_app_sep s _ Ns).
    reflexivity. }
  split; [exact (TimeClip_bound _ _ Hclip)|exact Hl].
Qed.

(** What [decodeToken] logs: nothing, or a warning followed by the error of
    the signer, and then the token is Invalid, has three chunks and names a
    user of the store whose signature of the first two is not the third.
    Conversely such a token, with a time stamp [Date] can hold, is logged. *)
Theorem decodeToken_logs_bad_signatures_only (token : string) :
  (snd (decodeToken token) = []
   \/ exists e s t sig u,
        snd (decodeToken token)
        = [(LWarn, "Failed to decode HMAC data from token:"); (LConsole, e)]
        /\ fst (decodeToken token) = Spec.Invalid
        /\ JS.split "." token = [s; t; sig]
        /\ findOne (decodeBase64 s) = JS.Normal (Some u)
        /\ getSignature (User.salt u) (s ++ "." ++ t) <> sig)
  /\ (forall s t sig u instant,
        JS.split "." token = [s; t; sig] ->
        JS.TimeClip (StringToNumber (decodeBase64 t)) = Some instant ->
        findOne (decodeBase64 s) = JS.Normal (Some u) ->
        getSignature (User.salt u) (s ++ "." ++ t) <> sig ->
        List.map fst (snd (decodeToken token)) = [LWarn; LConsole]).
Proof.
  split.
  - destruct (JS.split "." token) as [|s [|t [|sig [|x rest]]]] eqn:Hs;
      try (left;
           rewrite (decodeToken_not_three getSignature StringToNumber findOne)
             by (rewrite Hs; simpl; lia);
           reflexivity).
    rewrite (decodeToken_three getSignature StringToNumber findOne _ _ _ _ Hs).
    destruct (JS.isNaN _); [now left|].
    destruct (JS.TimeClip _); [|now left].
    destruct (findOne _) as [[u|]|e] eqn:Hu; [|now left..].
    destruct (String.eqb sig _) eqn:E; [now left|right].
    apply String.eqb_neq in E.
    eexists _, s, t, sig, u. repeat split; try reflexivity; congruence.
  - intros s t sig u instant Hs Hclip Hu Hne.
    rewrite (decodeToken_three getSignature StringToNumber findOne _ _ _ _ Hs).
    rewrite Hclip, Hu.
    destruct (JS.isNaN _) eqn:Hnan.
    { destruct (StringToNumber (decodeBase64 t)); discriminate. }
    destruct (String.eqb sig _) eqn:E; [|reflexivity].
    apply String.eqb_eq in E. now elim Hne.
Qed.

Lemma getUser_createToken (P : User.t) (now : Z) :
  Spec.isAscii (User.snowflake P) = true ->
  findOne (User.snowflake P) = JS.Normal (Some P) ->
  (forall secret value, Spec.noSep (getSignature secret value) = true) ->
  StringToNumber (JS.NumberToString now) = JS.ofZ now ->
  (Z.abs now <= JS.maxTime)%Z ->
  exists token,
    createToken (inl P) now = JS.Normal token
    /\ getUser token = (JS.Normal (Some P), []).
Proof.
  intros Hascii Hfind Hsig Hnum Hnow.
  rewrite (createToken_user getSignature findOneById).
  eexists. split; [reflexivity|]. unfold Security.Token.getUser.
  rewrite (decodeToken_three getSignature StringToNumber findOne _ _ _ _
             (split_three _ _ _ (encodeBase64_noSep _) (encodeBase64_noSep _)
                (Hsig _ _))).
  rewrite (decode_encode_ascii _ (NumberToString_ascii now)), Hnum.
  rewrite (decode_encode_ascii _ Hascii), Hfind.
  rewrite (TimeClip_ofZ now Hnow). simpl JS.isNaN. cbv iota.
  now rewrite String.eqb_refl.
Qed.

(** [getUser] logs what [decodeToken] logs and throws when [decodeToken]
    does, that is when the lookup of the store fails, with the error of the
    store; with a store that answers it returns a user or null.  A user it
    returns is the one the store holds under the snowflake of the first
    chunk, and the token is the signed form under that user's salt.  The
    token [createToken] makes for a user with an ASCII snowflake whom the
    store finds resolves to that user. *)
Theorem getUser_resolves_tokens :
  (forall token,
      snd (getUser token) = snd (decodeToken token)
      /\ (forall e,
            fst (getUser token) = JS.Throw e <-> fst (decodeToken token) = JS.Throw e)
      /\ (forall e,
            fst (getUser token) = JS.Throw e ->
            exists s t sig,
              JS.split "." token = [s; t; sig]
              /\ findOne (decodeBase64 s) = JS.Throw e)
      /\ ((forall key e, findOne key <> JS.Throw e) ->
          exists r, fst (getUser token) = JS.Normal r))
  /\ (forall token u,
        fst (getUser token) = JS.Normal (Some u) ->
        exists s t,
          token = sign (User.salt u) (s ++ "." ++ t)
          /\ findOne (decodeBase64 s) = JS.Normal (Some u))
  /\ (forall P now,
        Spec.isAscii (User.snowflake P) = true ->
        findOne (User.snowflake P) = JS.Normal (Some P) ->
        (forall secret value, Spec.noSep (getSignature secret value) = true) ->
        StringToNumber (JS.NumberToString now) = JS.ofZ now ->
        (Z.abs now <= JS.maxTime)%Z ->
        exists token,
          createToken (inl P) now = JS.Normal token
          /\ getUser token = (JS.Normal (Some P), [])).
Proof.
  split; [|split].
  - intros token.
    assert (T : forall e,
               fst (getUser token) = JS.Throw e
               <-> fst (decodeToken token) = JS.Throw e).
    { intros e. unfold Security.Token.getUser.
      destruct (decodeToken token) as [[[d|]|e'] l]; cbn [fst];
        split; intros H; try discriminate H; injection H as ->; reflexivity. }
    split; [|split; [exact T|split]].
    + unfold Security.Token.getUser.
      now destruct (decodeToken token) as [[[d|]|e'] l].
    + intros e H. apply T in H. now apply decodeToken_throws.
    + intros Hstore.
      destruct (fst (getUser token)) as [r|e]; [now exists r|].
      destruct (decodeToken_throws _ _ (proj1 (T e) eq_refl))
        as (s & t & sig & _ & Hf).
      now elim (Hstore _ _ Hf).
  - intros token u. unfold Security.Token.getUser.
    destruct (decodeToken token) as [[[d|]|e] l] eqn:H; simpl; try discriminate.
    intros [= <-].
    destruct (decodeToken_accepted _ _ _ H)
      as (s & t & Htok & _ & _ & _ & _ & _ & Hu & _).
    now exists s, t.
  - apply getUser_createToken.
Qed.

End TokenUse.

(** For the store of [Sample.findOne]: an unknown identifier, the
    identifier of [alice], and her token at 1530000000000. *)
Lemma createToken_names_subject_and_instant_witness :
  Security.Token.createToken Sample.getSignature Sample.findOne (inr "42") 1530000000000
  = JS.Throw "Unknown user."
  /\ Security.Token.createToken Sample.getSignature Sample.findOne
       (inr "6934455982260224") 1530000000000
     = JS.Normal Sample.issued
  /\ (exists sig,
        JS.split "." Sample.issued
        = ["NjkzNDQ1NTk4MjI2MDIyNA=="; "MTUzMDAwMDAwMDAwMA=="; sig])
  /\ User.snowflake Sample.rotated = User.snowflake Sample.alice.
Proof.
  pose proof (createToken_names_subject_and_instant Sample.getSignature Sample.findOne)
    as (A & B & C & D).
  split; [|split; [|split]].
  - apply A. reflexivity.
  - rewrite (B "6934455982260224" Sample.alice) by reflexivity.
    vm_compute. reflexivity.
  - apply (C Sample.alice 1530000000000%Z Sample.issued); vm_compute; reflexivity.
  - apply (D Sample.rotated Sample.rotated 1530000000000%Z 1530000000000%Z).
    reflexivity.
Defined.

(** For [alice]'s token at 1530000000000. *)
Lemma decodeToken_accepts_only_signed_witness :
  Sample.issued
  = Security.Token.sign Sample.getSignature (User.salt Sample.alice)
      "NjkzNDQ1NTk4MjI2MDIyNA==.MTUzMDAwMDAwMDAwMA=="
  /\ (Z.abs 1530000000000 <= JS.maxTime)%Z.
Proof.
  pose proof (decodeToken_accepts_only_signed
                Sample.getSignature Sample.StringToNumber Sample.findOne
                Sample.issued
                {| Security.Token.snowflake := User.snowflake Sample.alice;
                   Security.Token.timestamp := 1530000000000%Z;
                   Security.Token.hmac :=
                     "NjkzNDQ1NTk4MjI2MDIyNA==.MTUzMDAwMDAwMDAwMA==";
                   Security.Token.user := Sample.alice |} []) as H.
  destruct H as (A & _ & _ & _ & B & _); [vm_compute; reflexivity|].
  split; [exact A|exact B].
Defined.

(** For [Sample.tampered], whose signature is not [alice]'s. *)
Lemma decodeToken_logs_bad_signatures_only_witness :
  List.map fst
    (snd (Security.Token.decodeToken Sample.getSignature Sample.StringToNumber
            Sample.findOne Sample.tampered))
  = [LWarn; LConsole].
Proof.
  eapply (proj2 (decodeToken_logs_bad_signatures_only
                   Sample.getSignature Sample.StringToNumber Sample.findOne
                   Sample.tampered) _ _ _ Sample.alice).
  - vm_compute. reflexivity.
  - vm_compute. reflexivity.
  - vm_compute. reflexivity.
  - vm_compute. discriminate.
Defined.

(** For [alice] and her token at 1530000000000, with her store and with a
    store that cannot be reached. *)
Lemma getUser_resolves_tokens_witness :
  (exists s t,
      Sample.issued = Security.Token.sign Sample.getSignature (User.salt Sample.alice)
                        (s ++ "." ++ t)
      /\ Sample.findOne (Security.Token.decodeBase64 s) = JS.Normal (Some Sample.alice))
  /\ (exists token,
        Security.Token.createToken Sample.getSignature Sample.findNobody
          (inl Sample.alice) 1530000000000 = JS.Normal token
        /\ Security.Token.getUser Sample.getSignature Sample.StringToNumber
             Sample.findOne token = (JS.Normal (Some Sample.alice), []))
  /\ (fst (Security.Token.getUser Sample.getSignature Sample.StringToNumber
             Sample.findFails Sample.issued) = JS.Throw "connection closed"
      /\ fst (Security.Token.decodeToken Sample.getSignature Sample.StringToNumber
                Sample.findFails Sample.issued) = JS.Throw "connection closed"
      /\ exists r,
           fst (Security.Token.getUser Sample.getSignature Sample.StringToNumber
                  Sample.findOne "not a token") = JS.Normal r).
Proof.
  pose proof (getUser_resolves_tokens Sample.getSignature Sample.StringToNumber
                Sample.findOne Sample.findNobody) as (A & B & C).
  split; [|split].
  - apply B. vm_compute. reflexivity.
  - apply C.
    + reflexivity.
    + reflexivity.
    + intros secret value. apply toBase64_noSep.
    + vm_compute. reflexivity.
    + unfold JS.maxTime. lia.
  - split; [vm_compute; reflexivity|]. split.
    + apply (proj1 (proj2 (proj1 (getUser_resolves_tokens Sample.getSignature
                                     Sample.StringToNumber Sample.findFails
                                     Sample.findNobody) Sample.issued))).
      vm_compute. reflexivity.
    + apply (proj2 (proj2 (proj2 (A "not a token")))).
      intros key e. unfold Sample.findOne. discriminate.
Defined.

(** ** StringUtils.repeatChar *)

Lemma append_length (a b : string) :
  String.length (a ++ b) = (String.length a + String.length b)%nat.
Proof.
  induction a as [|c a IH]; [reflexivity|].
  rewrite append_cons. simpl. now rewrite IH.
Qed.

Lemma append_empty_r (a : string) : a ++ "" = a.
Proof.
  induction a as [|c a IH]; [reflexivity|].
  rewrite append_cons. now rewrite IH.
Qed.

Lemma loop_append (n : nat) (char : string) :
  forall str, StringUtils.loop n char str = str ++ StringUtils.loop n char "".
Proof.
  induction n as [|n IH]; intros str; cbn [StringUtils.loop].
  - now rewrite append_empty_r.
  - rewrite (IH (str ++ char)), (IH ("" ++ char)).
    now rewrite append_nil, append_assoc.
Qed.

Lemma loop_length (n : nat) (char : string) :
  String.length (StringUtils.loop n char "") = (n * String.length char)%nat.
Proof.
  induction n as [|n IH]; [reflexivity|].
  cbn [StringUtils.loop]. rewrite loop_append, append_nil, append_length, IH. lia.
Qed.

Lemma loop_add (a b : nat) (char : string) :
  StringUtils.loop (a + b) char ""
  = StringUtils.loop a char "" ++ StringUtils.loop b char "".
Proof.
  induction a as [|a IH]; [reflexivity|].
  cbn [Nat.add StringUtils.loop].
  rewrite (loop_append (a + b) char ("" ++ char)).
  rewrite (loop_append a char ("" ++ char)), IH.
  now rewrite !append_assoc.
Qed.

Lemma iterations_ceiling (num : Z) (den : positive) (n : Z) :
  ((n - 1) * Zpos den < num <= n * Zpos den)%Z ->
  StringUtils.iterations (JS.Finite (num # den)) = Some (Z.to_nat n).
Proof.
  intros H. unfold StringUtils.iterations. cbn [Qnum Qden].
  do 2 f_equal. euclid.
Qed.

Lemma iterations_ofZ (n : Z) :
  StringUtils.iterations (JS.ofZ n) = Some (Z.to_nat n).
Proof. apply iterations_ceiling. lia. Qed.

(** [repeatChar(char, amount)] for a whole [amount] of zero or more is
    [amount] copies of [char]: one copy for 1, and for a sum the two results
    one after the other, so [amount] times the length of [char] in all.  An
    [amount] that is not whole counts as the next whole number above it; an
    [amount] of zero or less, NaN or minus infinity gives the empty string;
    and with plus infinity the loop does not end. *)
Theorem repeatChar_repeats (char : string) :
  StringUtils.repeatChar char (JS.ofZ 1) = Some char
  /\ (forall a b : nat,
        exists ra rb,
          StringUtils.repeatChar char (JS.ofZ (Z.of_nat a)) = Some ra
          /\ StringUtils.repeatChar char (JS.ofZ (Z.of_nat b)) = Some rb
          /\ StringUtils.repeatChar char (JS.ofZ (Z.of_nat (a + b))) = Some (ra ++ rb))
  /\ (forall n : nat,
        exists r,
          StringUtils.repeatChar char (JS.ofZ (Z.of_nat n)) = Some r
          /\ String.length r = (n * String.length char)%nat)
  /\ (forall (num : Z) (den : positive) (n : Z),
        ((n - 1) * Zpos den < num <= n * Zpos den)%Z ->
        StringUtils.repeatChar char (JS.Finite (num # den))
        = StringUtils.repeatChar char (JS.ofZ n))
  /\ (forall n : Z, (n <= 0)%Z -> StringUtils.repeatChar char (JS.ofZ n) = Some "")
  /\ StringUtils.repeatChar char JS.NaN = Some ""
  /\ StringUtils.repeatChar char (JS.Infinity true) = Some ""
  /\ StringUtils.repeatChar char (JS.Infinity false) = None.
Proof.
  unfold StringUtils.repeatChar.
  split; [reflexivity|]. split; [|split; [|split; [|split]]].
  - intros a b. rewrite !iterations_ofZ, !Nat2Z.id.
    eexists _, _. split; [reflexivity|]. split; [reflexivity|].
    now rewrite loop_add.
  - intros n. rewrite iterations_ofZ, Nat2Z.id.
    eexists. split; [reflexivity|apply loop_length].
  - intros num den n H.
    now rewrite (iterations_ceiling num den n H), iterations_ofZ.
  - intros n H. rewrite iterations_ofZ.
    replace (Z.to_nat n) with 0%nat by lia. reflexivity.
  - repeat split.
Qed.

(** Two and a half times ["ab"] is three times ["ab"], and minus two times
    is the empty string. *)
Lemma repeatChar_repeats_witness :
  StringUtils.repeatChar "ab" (JS.Finite (5 # 2)) = Some "ababab"
  /\ StringUtils.repeatChar "ab" (JS.ofZ (-2)) = Some "".
Proof.
  split.
  - rewrite (proj1 (proj2 (proj2 (proj2 (repeatChar_repeats "ab")))) 5%Z 2%positive 3%Z)
      by lia.
    reflexivity.
  - apply (proj1 (proj2 (proj2 (proj2 (proj2 (repeatChar_repeats "ab")))))). lia.
Defined.

(** ** Process: the stream listener and the command line *)

Lemma endsWith_refl (s : string) : Process.endsWith s s = true.
Proof. destruct s; simpl; now rewrite ?Ascii.eqb_refl, ?String.eqb_refl. Qed.

Lemma endsWith_cons (c : ascii) (s suffix : string) :
  Process.endsWith (String c s) suffix
  = String.eqb (String c s) suffix || Process.endsWith s suffix.
Proof. reflexivity. Qed.

Lemma endsWith_spec (s suffix : string) :
  Process.endsWith s suffix = true <-> exists front, s = front ++ suffix.
Proof.
  split.
  - induction s as [|c s IH].
    + simpl. rewrite orb_false_r. intros H.
      destruct suffix; [now exists ""|discriminate H].
    + rewrite endsWith_cons. intros H. apply orb_prop in H as [H|H].
      * apply String.eqb_eq in H. exists "". now rewrite H.
      * destruct (IH H) as [front ->]. now exists (String c front).
  - intros [front ->]. induction front as [|c front IH].
    + rewrite append_nil. apply endsWith_refl.
    + rewrite append_cons, endsWith_cons, IH. apply orb_true_r.
Qed.

Lemma substring_front (body rest : string) :
  String.substring 0 (String.length body) (body ++ rest) = body.
Proof.
  induction body as [|c body IH].
  - simpl. now destruct (append "" rest).
  - rewrite append_cons. simpl. now rewrite IH.
Qed.

Lemma substring_drops_two (body : string) (c d : ascii) :
  Process.substring (body ++ String c (String d "")) 0
    (Z.of_nat (String.length (body ++ String c (String d ""))) - 2)
  = body.
Proof.
  unfold Process.substring. rewrite append_length. cbn [String.length].
  replace (Z.to_nat (Z.min (Z.max 0 0) _)) with 0%nat by lia.
  replace (Z.to_nat (Z.min (Z.max _ 0) _)) with (String.length body) by lia.
  rewrite Nat.min_0_l, Nat.max_0_l, Nat.sub_0_r.
  apply substring_front.
Qed.

(** The listener on a stream of the child process: an empty chunk and a
    chunk that is a line feed alone are dropped; every other chunk adds one
    packet to the end of the log, and that packet is the one emitted, with
    the stream's name and the time of the call.  The content of the packet
    is the chunk when it does not end in a line feed; when it does, the
    content is the chunk without its last two characters, the line feed and
    the character before it. *)
Theorem watcher_records_chunks (type : Process.Stream) (data : string) (now : Z)
  (log : list Process.LogMessage) :
  (data = "" \/ data = Process.newline ->
   Process.watcher type data now log = (log, []))
  /\ (data <> "" -> data <> Process.newline ->
      exists packet,
        Process.watcher type data now log = ((log ++ [packet])%list, [packet])
        /\ Process.timestamp packet = now
        /\ Process.stream packet = type
        /\ (forall body c,
              data = body ++ String c Process.newline ->
              Process.content packet = body)
        /\ ((forall front, data <> front ++ Process.newline) ->
            Process.content packet = data)).
Proof.
  split.
  - intros [-> | ->]; reflexivity.
  - intros Hne Hnl. unfold Process.watcher.
    assert (E1 : (String.length data =? 0)%nat = false).
    { destruct data; [now elim Hne|reflexivity]. }
    assert (E2 : String.eqb data Process.newline = false)
      by now apply String.eqb_neq.
    rewrite E1, E2. cbn [orb].
    eexists. split; [reflexivity|]. cbn. split; [reflexivity|].
    split; [reflexivity|]. split.
    + intros body c ->.
      assert (E : Process.endsWith (body ++ String c Process.newline) Process.newline
                  = true).
      { apply endsWith_spec. exists (body ++ String c "").
        now rewrite append_assoc. }
      rewrite E. apply substring_drops_two.
    + intros H.
      destruct (Process.endsWith data Process.newline) eqn:E; [|reflexivity].
      apply endsWith_spec in E as [front ->]. now elim (H front).
Qed.

(** A first line: the chunk ["hello"], line feed, is logged as ["hell"]; the
    chunk ["ready"] is logged as it is. *)
Lemma watcher_records_chunks_witness :
  (exists packet,
      Process.watcher Process.stdout ("hello" ++ Process.newline) 5 []
      = ([packet], [packet])
      /\ Process.content packet = "hell")
  /\ Process.watcher Process.stderr Process.newline 6 [] = ([], []).
Proof.
  split.
  - destruct (proj2 (watcher_records_chunks Process.stdout
                       ("hello" ++ Process.newline) 5 []))
      as (packet & W & _ & _ & C & _); [discriminate..|].
    exists packet. split; [exact W|]. now apply (C "hell" "o"%char).
  - apply (proj1 (watcher_records_chunks Process.stderr Process.newline 6 [])).
    now right.
Defined.

Lemma split_app (sep : ascii) (a b : string) :
  JS.split sep (a ++ String sep b) = (JS.split sep a ++ JS.split sep b)%list.
Proof.
  induction a as [|c a IH]; [simpl; now rewrite Ascii.eqb_refl|].
  rewrite append_cons. cbn [JS.split]. rewrite IH.
  pose proof (split_not_nil sep a) as NN.
  destruct (Ascii.eqb c sep); [reflexivity|].
  destruct (JS.split sep a) as [|h t]; [contradiction|reflexivity].
Qed.

Lemma split_length (sep : ascii) (s : string) :
  List.length (JS.split sep s) = S (Terms.occurrences sep s).
Proof.
  unfold Terms.occurrences. induction s as [|c s IH]; [reflexivity|].
  cbn [JS.split list_ascii_of_string List.filter].
  pose proof (split_not_nil sep s) as NN.
  rewrite (Ascii.eqb_sym sep c).
  destruct (Ascii.eqb c sep); cbn [List.length]; [now rewrite IH|].
  destruct (JS.split sep s) as [|h t]; [contradiction|exact IH].
Qed.

Lemma split_chunks (sep : ascii) (s : string) :
  Forall (fun chunk => Terms.occurrences sep chunk = 0%nat) (JS.split sep s).
Proof.
  induction s as [|c s IH]; [repeat constructor|].
  cbn [JS.split]. destruct (Ascii.eqb c sep) eqn:E.
  - constructor; [reflexivity|exact IH].
  - assert (C : forall h, Terms.occurrences sep h = 0%nat ->
                          Terms.occurrences sep (String c h) = 0%nat).
    { intros h Hh. unfold Terms.occurrences in *. cbn [list_ascii_of_string List.filter].
      now rewrite (Ascii.eqb_sym sep c), E. }
    destruct (JS.split sep s) as [|h t].
    + repeat constructor. now apply C.
    + inversion IH as [|? ? Hh Ht]; subst. constructor; [now apply C|assumption].
Qed.

(** The command line is cut at every space: the arguments joined by spaces
    are the command again, there is one more argument than there are spaces,
    and no argument holds a space.  The first one is the program spawned,
    also when it is empty; and two spaces in a row give an empty
    argument. *)
Theorem argv_cuts_at_every_space (command : string) :
  JS.join " " (Process.argv command) = command
  /\ List.length (Process.argv command) = S (Terms.occurrences " " command)
  /\ Forall (fun arg => Terms.occurrences " " arg = 0%nat) (Process.argv command)
  /\ (exists file args,
        Process.spawned command = (Some file, args)
        /\ Process.argv command = file :: args)
  /\ (forall front back,
        command = front ++ "  " ++ back -> In "" (List.tl (Process.argv command))).
Proof.
  unfold Process.spawned, Process.argv.
  split; [apply (join_split " ")|]. split; [apply split_length|].
  split; [apply split_chunks|]. split.
  - pose proof (split_not_nil " " command) as NN.
    destruct (JS.split " " command) as [|file args]; [contradiction|].
    now exists file, args.
  - intros front back ->.
    change ("  " ++ back) with (String " " (String " " back)).
    rewrite split_app. cbn [JS.split]. rewrite Ascii.eqb_refl.
    pose proof (split_not_nil " " front) as NN.
    destruct (JS.split " " front) as [|h t]; [contradiction|].
    cbn [List.tl List.app]. apply in_or_app. right. now left.
Qed.

(** The command [ls -la  /tmp], with two spaces before the path. *)
Lemma argv_cuts_at_every_space_witness :
  In "" (List.tl (Process.argv "ls -la  /tmp"))
  /\ Process.spawned "ls -la  /tmp" = (Some "ls", ["-la"; ""; "/tmp"]).
Proof.
  split; [|reflexivity].
  apply (proj2 (proj2 (proj2 (proj2 (argv_cuts_at_every_space "ls -la  /tmp"))))
           "ls -la" "/tmp").
  reflexivity.
Defined.

(** ** The guard chain: guards that pass, guards that throw *)

Lemma perform_quiet (k : Http.continuation) (acts : list Http.action) :
  Terms.quiet acts = true ->
  forall x, exists x' s,
    Http.perform k acts x = Some x'
    /\ Http.trace x' = (Http.trace x ++ s)%list
    /\ Spec.onlySent s
    /\ Http.currentIndex x' = Http.currentIndex x
    /\ Http.previous x' = Http.previous x
    /\ Http.pending x' = Http.pending x.
Proof.
  induction acts as [|a acts IH]; intros Q x.
  - exists x, []. rewrite List.app_nil_r. repeat split. constructor.
  - cbn [Terms.quiet forallb] in Q. apply andb_prop in Q as [Qa Q].
    destruct a; try discriminate Qa; cbn [Http.perform].
    + destruct (IH Q (Http.setStatus code x)) as (x' & s & P & T & O & I & Pr & Pe).
      exists x', s. auto 10.
    + destruct (IH Q (Http.json body x)) as (x' & s & P & T & O & I & Pr & Pe).
      exists x', (Http.Sent (Http.statusCode x) body :: s).
      split; [exact P|]. split.
      { rewrite T. cbn. now rewrite <- List.app_assoc. }
      split; [constructor; [exact Logic.I|exact O]|]. auto.
Qed.


Lemma perform_app_quiet (k : Http.continuation) (before rest : list Http.action) :
  Terms.quiet before = true ->
  forall x,
    Http.perform k (before ++ rest)%list x
    = match Http.perform k before x with
      | Some x1 => Http.perform k rest x1
      | None => None
      end.
Proof.
  induction before as [|a before IH]; intros Q x; [reflexivity|].
  cbn [Terms.quiet forallb] in Q. apply andb_prop in Q as [Qa Q].
  destruct a; try discriminate Qa; cbn [Http.perform List.app]; now apply IH.
Qed.

Lemma reach_le (gs : list Http.RouteHandler) :
  forall p, (Terms.reach p gs <= List.length gs)%nat.
Proof.
  induction gs as [|g gs IH]; intros p; cbn [Terms.reach List.length]; [lia|].
  destruct (decide (p = Some (Http.ref g))); [lia|]. specialize (IH (Some (Http.ref g))).
  lia.
Qed.

Lemma reach_distinct (gs : list Http.RouteHandler) :
  forall p,
    (forall r, p = Some r -> ~ In r (List.map Http.ref gs)) ->
    List.NoDup (List.map Http.ref gs) ->
    Terms.reach p gs = List.length gs.
Proof.
  induction gs as [|g gs IH]; intros p Hp Hd; [reflexivity|].
  cbn [Terms.reach List.length]. cbn [List.map] in Hp, Hd.
  inversion Hd as [|? ? Hn Hd']; subst.
  destruct (decide (p = Some (Http.ref g))) as [E|_].
  - elim (Hp _ E). now left.
  - f_equal. apply IH; [|exact Hd']. intros r [= <-]. exact Hn.
Qed.

Lemma reach_repeated (gs : list Http.RouteHandler) :
  forall p i g g',
    nth_error gs i = Some g -> nth_error gs (S i) = Some g' ->
    Http.ref g = Http.ref g' ->
    (Terms.reach p gs <= S i)%nat.
Proof.
  induction gs as [|g0 gs IH]; intros p i g g' G G' E; [destruct i; discriminate G|].
  cbn [Terms.reach]. destruct (decide (p = Some (Http.ref g0))); [lia|].
  destruct i as [|i].
  - cbn in G, G'. injection G as ->. destruct gs as [|g1 gs]; [discriminate G'|].
    cbn in G'. injection G' as ->. cbn [Terms.reach].
    destruct (decide (Some (Http.ref g) = Some (Http.ref g'))) as [_|N]; [lia|].
    elim N. now rewrite E.
  - cbn in G, G'. specialize (IH (Some (Http.ref g0)) i g g' G G' E). lia.
Qed.

Lemma nth_error_here {A : Type} (done rest : list A) (g : A) :
  nth_error (done ++ g :: rest)%list (List.length done) = Some g.
Proof.
  rewrite List.nth_error_app2 by lia. now rewrite Nat.sub_diag.
Qed.

Section GuardRuns.

Local Open Scope list_scope.

Variable route : Http.Route.
Variable req : Http.Request.

Local Abbreviation gs := (Http.guardsOf route).

Lemma terminal_once (x : Http.Exchange) :
  exists x' s,
    Http.invoke (Http.handler route) req Some
      (Http.observe (Http.HandlerInvoked (Http.ref (Http.handler route)))
         (Http.setIndex (S (Http.currentIndex x)) x)) = Some x'
    /\ Http.trace x'
       = Http.trace x ++ Http.HandlerInvoked (Http.ref (Http.handler route)) :: s
    /\ Spec.onlySent s.
Proof.
  unfold Http.invoke. destruct (Http.run _ _ _) as [acts m].
  match goal with
  | |- context [Http.perform Some acts ?y0] =>
      destruct (perform_sents Some (fun z => eq_refl) acts y0)
        as (x' & s & P & T & O)
  end.
  exists x', s. split; [exact P|]. split; [|exact O].
  rewrite T. cbn. now rewrite <- List.app_assoc.
Qed.

Lemma terminal_counts (x : Http.Exchange) :
  exists x' evs,
    Http.invoke (Http.handler route) req Some
      (Http.observe (Http.HandlerInvoked (Http.ref (Http.handler route)))
         (Http.setIndex (S (Http.currentIndex x)) x)) = Some x'
    /\ Http.trace x' = Http.trace x ++ evs
    /\ Spec.guardIndices evs = []
    /\ Spec.handlerCalls evs = 1.
Proof.
  destruct (terminal_once x) as (x' & s & P & T & O).
  exists x', (Http.HandlerInvoked (Http.ref (Http.handler route)) :: s).
  split; [exact P|]. split; [exact T|]. split.
  - change (Spec.guardIndices s = []). now apply onlySent_guardIndices.
  - change (S (Spec.handlerCalls s) = 1). now rewrite onlySent_handlerCalls.
Qed.

Lemma next_passes (rest : list Http.RouteHandler) :
  forall done x fuel,
    gs = done ++ rest ->
    Http.currentIndex x = List.length done ->
    (forall g, In g rest -> Terms.passesOnce req g) ->
    List.length rest < fuel ->
    exists x' evs,
      Http.next fuel route req x = Some x'
      /\ Http.trace x' = Http.trace x ++ evs
      /\ Spec.guardIndices evs
         = seq (List.length done) (Terms.reach (Http.previous x) rest)
      /\ Spec.handlerCalls evs = 1.
Proof.
  induction rest as [|g rest IH]; intros done x fuel G I P F;
    (destruct fuel as [|fuel]; [cbn in F; lia|]); cbn [Http.next].
  - assert (N : nth_error gs (Http.currentIndex x) = None).
    { rewrite G, I, List.app_nil_r. apply List.nth_error_None. lia. }
    rewrite N. apply terminal_counts.
  - assert (N : nth_error gs (Http.currentIndex x) = Some g).
    { rewrite G, I. apply nth_error_here. }
    rewrite N. cbn [Http.previous Http.setIndex Terms.reach].
    destruct (decide (Http.previous x = Some (Http.ref g))) as [E|NE];
      [apply terminal_counts|].
    unfold Http.invoke.
    match goal with
    | |- context [Http.run g req ?m] =>
        destruct (P g (or_introl eq_refl) m) as (before & after & R & Qb & Qa);
        destruct (Http.run g req m) as [acts m']
    end.
    cbn [fst] in R. subst acts.
    rewrite (perform_app_quiet _ before _ Qb).
    match goal with
    | |- context [Http.perform ?k before ?y0] =>
        destruct (perform_quiet k before Qb y0)
          as (x1 & s1 & P1 & T1 & O1 & I1 & Pr1 & _)
    end.
    rewrite P1. cbn [Http.perform].
    cbn in T1, I1, Pr1.
    destruct (IH (done ++ [g]) x1 fuel) as (x2 & evs2 & N2 & T2 & G2 & H2).
    { now rewrite <- List.app_assoc. }
    { rewrite I1, I, List.length_app. cbn. lia. }
    { intros h Hh. apply P. now right. }
    { cbn in F. lia. }
    rewrite N2, Pr1, List.length_app, Nat.add_1_r in *.
    assert (R : forall s3,
               Spec.onlySent s3 ->
               Spec.guardIndices
                 (Http.GuardInvoked (Http.currentIndex x) (Http.ref g)
                    :: s1 ++ evs2 ++ s3)
               = seq (List.length done) (S (Terms.reach (Some (Http.ref g)) rest))
               /\ Spec.handlerCalls
                    (Http.GuardInvoked (Http.currentIndex x) (Http.ref g)
                       :: s1 ++ evs2 ++ s3) = 1).
    { intros s3 O3. split.
      - change (Http.currentIndex x
                  :: Spec.guardIndices (s1 ++ evs2 ++ s3)
                = List.length done
                    :: seq (S (List.length done))
                         (Terms.reach (Some (Http.ref g)) rest)).
        rewrite !guardIndices_app, (onlySent_guardIndices _ O1),
          (onlySent_guardIndices _ O3), G2, I.
        now rewrite List.app_nil_r.
      - change (Spec.handlerCalls (s1 ++ evs2 ++ s3) = 1).
        rewrite !handlerCalls_app, (onlySent_handlerCalls _ O1),
          (onlySent_handlerCalls _ O3), H2. lia. }
    destruct (Http.pending x2) eqn:Pe2.
    + exists x2, (Http.GuardInvoked (Http.currentIndex x) (Http.ref g)
                   :: s1 ++ evs2 ++ []).
      split; [reflexivity|]. split; [|apply R; constructor].
      rewrite T2, T1, List.app_nil_r, <- !List.app_assoc. reflexivity.
    + match goal with
      | |- context [Http.perform ?k after x2] =>
          destruct (perform_quiet k after Qa x2) as (x3 & s3 & P3 & T3 & O3 & _)
      end.
      exists x3, (Http.GuardInvoked (Http.currentIndex x) (Http.ref g)
                   :: s1 ++ evs2 ++ s3).
      split; [exact P3|]. split; [|now apply R].
      rewrite T3, T2, T1, <- !List.app_assoc. reflexivity.
Qed.

Lemma next_throws (front : list Http.RouteHandler) :
  forall done x fuel g back,
    gs = done ++ front ++ g :: back ->
    Http.currentIndex x = List.length done ->
    (forall h, In h front -> Terms.passesOnce req h) ->
    Terms.throwsFirst req g ->
    Terms.reach (Http.previous x) (front ++ [g]) = S (List.length front) ->
    List.length front < fuel ->
    exists x' evs e,
      Http.next fuel route req x = Some x'
      /\ Http.trace x' = Http.trace x ++ evs
      /\ Spec.guardIndices evs = seq (List.length done) (S (List.length front))
      /\ Spec.handlerCalls evs = 0
      /\ Http.pending x' = Some e
      /\ exists m, In (Http.Raise e) (fst (Http.run g req m)).
Proof.
  induction front as [|g0 front IH]; intros done x fuel g back G I P Th Re F;
    (destruct fuel as [|fuel]; [cbn in F; lia|]); cbn [Http.next].
  - assert (N : nth_error gs (Http.currentIndex x) = Some g).
    { rewrite G, I. apply nth_error_here. }
    rewrite N. cbn [Http.previous Http.setIndex].
    cbn [List.app Terms.reach] in Re.
    destruct (decide (Http.previous x = Some (Http.ref g))) as [E|NE];
      [discriminate Re|].
    unfold Http.invoke.
    match goal with
    | |- context [Http.run g req ?m0] =>
        destruct (Th m0) as (before & e & rest & R & Qb);
        assert (Wit : exists z, In (Http.Raise e) (fst (Http.run g req z)))
          by (exists m0; rewrite R; apply in_or_app; right; now left);
        destruct (Http.run g req m0) as [acts m']
    end.
    cbn [fst] in R. subst acts.
    rewrite (perform_app_quiet _ before _ Qb).
    match goal with
    | |- context [Http.perform ?k before ?y0] =>
        destruct (perform_quiet k before Qb y0)
          as (x1 & s1 & P1 & T1 & O1 & I1 & Pr1 & _)
    end.
    rewrite P1. cbn [Http.perform]. cbn in T1.
    exists (Http.setPending e x1),
      (Http.GuardInvoked (Http.currentIndex x) (Http.ref g) :: s1), e.
    split; [reflexivity|]. split.
    { cbn. rewrite T1, <- List.app_assoc. reflexivity. }
    split.
    { change (Http.currentIndex x :: Spec.guardIndices s1 = [List.length done]).
      now rewrite (onlySent_guardIndices _ O1), I. }
    split.
    { change (Spec.handlerCalls s1 = 0). now apply onlySent_handlerCalls. }
    split; [reflexivity|exact Wit].
  - assert (N : nth_error gs (Http.currentIndex x) = Some g0).
    { rewrite G, I. cbn [List.app]. apply nth_error_here. }
    rewrite N. cbn [Http.previous Http.setIndex].
    cbn [List.app Terms.reach] in Re.
    destruct (decide (Http.previous x = Some (Http.ref g0))) as [E|NE];
      [discriminate Re|].
    injection Re as Re.
    unfold Http.invoke.
    match goal with
    | |- context [Http.run g0 req ?m] =>
        destruct (P g0 (or_introl eq_refl) m) as (before & after & R & Qb & Qa);
        destruct (Http.run g0 req m) as [acts m']
    end.
    cbn [fst] in R. subst acts.
    rewrite (perform_app_quiet _ before _ Qb).
    match goal with
    | |- context [Http.perform ?k before ?y0] =>
        destruct (perform_quiet k before Qb y0)
          as (x1 & s1 & P1 & T1 & O1 & I1 & Pr1 & _)
    end.
    rewrite P1. cbn [Http.perform].
    cbn in T1, I1, Pr1.
    destruct (IH (done ++ [g0]) x1 fuel g back)
      as (x2 & evs2 & e & N2 & T2 & G2 & H2 & Pe2 & Wit).
    { rewrite G. cbn [List.app]. now rewrite <- List.app_assoc. }
    { rewrite I1, I, List.length_app. cbn. lia. }
    { intros h Hh. apply P. now right. }
    { exact Th. }
    { now rewrite Pr1. }
    { cbn in F. lia. }
    rewrite N2, Pe2.
    exists x2, (Http.GuardInvoked (Http.currentIndex x) (Http.ref g0) :: s1 ++ evs2), e.
    split; [reflexivity|]. split.
    { rewrite T2, T1, <- !List.app_assoc. reflexivity. }
    rewrite List.length_app, Nat.add_1_r in G2.
    split.
    { change (Http.currentIndex x :: Spec.guardIndices (s1 ++ evs2)
              = List.length done :: seq (S (List.length done)) (S (List.length front))).
      now rewrite guardIndices_app, (onlySent_guardIndices _ O1), G2, I. }
    split.
    { change (Spec.handlerCalls (s1 ++ evs2) = 0).
      now rewrite handlerCalls_app, (onlySent_handlerCalls _ O1), H2. }
    split; [exact Pe2|exact Wit].
Qed.

(** When every guard of the route calls [next()] exactly once and throws
    nothing, the guards are invoked in the order of the array, from the
    first up to the first guard that is the same function as the guard
    before it, and then the terminal handler is invoked, once.  So when the
    guards are different functions all of them are invoked; and when two
    neighbours are the same function, the second of them and every guard
    after it is passed over. *)
Theorem passing_guards_reach_the_handler (x : Http.Exchange) :
  (forall g, In g gs -> Terms.passesOnce req g) ->
  exists x' evs,
    Http.chain route req x = Some x'
    /\ Http.trace x' = Http.trace x ++ evs
    /\ Spec.guardIndices evs = seq 0 (Terms.reach None gs)
    /\ Spec.handlerCalls evs = 1
    /\ (List.NoDup (List.map Http.ref gs) ->
        Spec.guardIndices evs = seq 0 (List.length gs))
    /\ (forall i g g' j,
          nth_error gs i = Some g -> nth_error gs (S i) = Some g' ->
          Http.ref g = Http.ref g' ->
          In j (Spec.guardIndices evs) -> j <= i).
Proof.
  intros P. unfold Http.chain.
  destruct (next_passes gs [] (Http.setPrevious None (Http.setIndex 0 x))
              (S (List.length gs)) eq_refl eq_refl P (Nat.lt_succ_diag_r _))
    as (x' & evs & N & T & G & H).
  cbn in T, G. exists x', evs.
  split; [exact N|]. split; [exact T|]. split; [exact G|]. split; [exact H|].
  split.
  - intros D. rewrite G. f_equal. apply reach_distinct; [discriminate|exact D].
  - intros i g g' j Hi Hi' E Hj. rewrite G in Hj. apply in_seq in Hj.
    pose proof (reach_repeated gs None i g g' Hi Hi' E). lia.
Qed.

(** When a guard throws before it calls [next()], the guards before it
    having called [next()] once each and each being another function than
    its neighbour: the guards are invoked up to the one that throws, the
    terminal handler is not invoked, and the error thrown is the one handed
    to the error middleware. *)
Theorem throwing_guard_stops_the_chain (front back : list Http.RouteHandler)
  (g : Http.RouteHandler) (x : Http.Exchange) :
  gs = front ++ g :: back ->
  (forall h, In h front -> Terms.passesOnce req h) ->
  Terms.throwsFirst req g ->
  Terms.reach None (front ++ [g]) = S (List.length front) ->
  exists x' evs e,
    Http.chain route req x = Some x'
    /\ Http.trace x' = Http.trace x ++ evs
    /\ Spec.guardIndices evs = seq 0 (S (List.length front))
    /\ Spec.handlerCalls evs = 0
    /\ Http.pending x' = Some e
    /\ exists m, In (Http.Raise e) (fst (Http.run g req m)).
Proof.
  intros G P Th Re. unfold Http.chain.
  apply (next_throws front [] (Http.setPrevious None (Http.setIndex 0 x))
           (S (List.length gs)) g back G eq_refl P Th Re).
  rewrite G, List.length_app. cbn. lia.
Qed.



End GuardRuns.

Lemma scripted_passes (r : nat) (before after : list Http.action) (req : Http.Request) :
  Terms.quiet before = true -> Terms.quiet after = true ->
  Terms.passesOnce req (Spec.scripted r (before ++ Http.Proceed :: after)%list).
Proof. intros Qb Qa m. now exists before, after. Qed.

(** Two guards that are different functions, and the same guard twice
    before a third that would reject. *)
Lemma passing_guards_reach_the_handler_witness :
  (exists x' evs,
      Http.chain (Spec.guarded [Spec.passes; Terms.passesToo]) Spec.getGuarded
        (Http.fresh TestRoutes.initial) = Some x'
      /\ Http.trace x' = evs
      /\ Spec.guardIndices evs = [0; 1]%nat
      /\ Spec.handlerCalls evs = 1%nat)
  /\ (exists x' evs,
        Http.chain (Spec.guarded [Spec.passes; Spec.passes; Terms.passesToo])
          Spec.getGuarded (Http.fresh TestRoutes.initial) = Some x'
        /\ Http.trace x' = evs
        /\ Spec.guardIndices evs = [0]%nat).
Proof.
  split.
  - destruct (passing_guards_reach_the_handler
                (Spec.guarded [Spec.passes; Terms.passesToo]) Spec.getGuarded
                (Http.fresh TestRoutes.initial))
      as (x' & evs & C & T & _ & H & D & _).
    { intros g [<-|[<-|[]]].
      - apply (scripted_passes 10 [] []); reflexivity.
      - apply (scripted_passes 16 [Http.Status 202] []); reflexivity. }
    exists x', evs. split; [exact C|]. split; [exact T|]. split; [|exact H].
    apply D. cbn. repeat constructor; cbn; intuition discriminate.
  - destruct (passing_guards_reach_the_handler
                (Spec.guarded [Spec.passes; Spec.passes; Terms.passesToo])
                Spec.getGuarded (Http.fresh TestRoutes.initial))
      as (x' & evs & C & T & G & _).
    { intros g [<-|[<-|[<-|[]]]].
      - apply (scripted_passes 10 [] []); reflexivity.
      - apply (scripted_passes 10 [] []); reflexivity.
      - apply (scripted_passes 16 [Http.Status 202] []); reflexivity. }
    exists x', evs. split; [exact C|]. split; [exact T|]. exact G.
Defined.

(** A guard that passes, then one that throws. *)
Lemma throwing_guard_stops_the_chain_witness :
  exists x' evs e,
    Http.chain (Spec.guarded [Spec.passes; Terms.throws; Terms.passesToo])
      Spec.getGuarded (Http.fresh TestRoutes.initial) = Some x'
    /\ Http.trace x' = evs
    /\ Spec.guardIndices evs = [0; 1]%nat
    /\ Spec.handlerCalls evs = 0%nat
    /\ Http.pending x' = Some e.
Proof.
  destruct (throwing_guard_stops_the_chain
              (Spec.guarded [Spec.passes; Terms.throws; Terms.passesToo])
              Spec.getGuarded [Spec.passes] [Terms.passesToo] Terms.throws
              (Http.fresh TestRoutes.initial))
    as (x' & evs & e & C & T & G & H & Pe & _).
  - reflexivity.
  - intros h [<-|[]]. apply (scripted_passes 10 [] []); reflexivity.
  - intros m. now exists [], (Http.ThrownOther "denied"), [].
  - reflexivity.
  - exists x', evs, e. auto.
Defined.

(** ** RestError and the answers of the server *)

(** What the constructor of [RestError] keeps.  A string with a number
    gives the body of message, code and fields; an object, [null] among
    them, is the body as it is, whatever else was passed; anything else, a
    string without a number for one, leaves the body undefined.  No status
    code is set, so the error middleware answers every such error with
    status 400; and of a message with a code and no fields the client
    receives the message and the code. *)
Theorem RestError_constructor_cases (message code fields : JS.value) :
  RestError.statusCode (RestError.new message code fields) = None
  /\ (JS.typeof message = "string" -> JS.typeof code = "number" ->
      RestError.body (RestError.new message code fields)
      = JS.VObj [("message", message); ("code", code); ("fields", fields)])
  /\ (JS.typeof message = "object" ->
      RestError.body (RestError.new message code fields) = message)
  /\ (JS.typeof message <> "object" ->
      JS.typeof message <> "string" \/ JS.typeof code <> "number" ->
      RestError.body (RestError.new message code fields) = JS.VUndefined)
  /\ (forall entropy x,
        Http.trace
          (HttpServer.errorMiddleware
             (Http.ThrownRestError (RestError.new message code fields)) entropy x)
        = (Http.trace x
           ++ [Http.Sent 400 (RestError.body (RestError.new message code fields))])%list)
  /\ (forall text q,
        message = JS.VStr text -> code = JS.VNum (JS.Finite q) ->
        fields = JS.VUndefined ->
        JS.wire (RestError.body (RestError.new message code fields))
        = JS.VObj [("message", JS.VStr text); ("code", JS.VNum (JS.Finite q))]).
Proof.
  assert (S0 : RestError.statusCode (RestError.new message code fields) = None).
  { unfold RestError.new.
    destruct (String.eqb (JS.typeof message) "string"
              && String.eqb (JS.typeof code) "number"); [reflexivity|].
    destruct (String.eqb (JS.typeof message) "object"); reflexivity. }
  split; [exact S0|]. split; [|split; [|split; [|split]]].
  - intros Hm Hc. unfold RestError.new. now rewrite Hm, Hc.
  - intros Hm. unfold RestError.new. now rewrite Hm.
  - intros Ho Hs. unfold RestError.new.
    apply String.eqb_neq in Ho. rewrite Ho.
    destruct Hs as [Hs|Hs]; apply String.eqb_neq in Hs; rewrite Hs;
      [reflexivity|now rewrite andb_false_r].
  - intros entropy x. unfold HttpServer.errorMiddleware, HttpServer.transmit.
    now rewrite S0.
  - intros text q -> -> ->. reflexivity.
Qed.

(** For a string without a code, and for the error of the example route. *)
Lemma RestError_constructor_cases_witness :
  RestError.body (RestError.new (JS.VStr "Success!") JS.VUndefined JS.VUndefined)
  = JS.VUndefined
  /\ JS.wire (RestError.body
                (RestError.new (JS.VStr "Success!") (JS.VNum (JS.ofZ 1002))
                   JS.VUndefined))
     = JS.VObj [("message", JS.VStr "Success!"); ("code", JS.VNum (JS.ofZ 1002))].
Proof.
  split.
  - apply (proj1 (proj2 (proj2 (proj2
             (RestError_constructor_cases (JS.VStr "Success!") JS.VUndefined
                JS.VUndefined))))).
    + discriminate.
    + right. discriminate.
  - apply (proj2 (proj2 (proj2 (proj2 (proj2
             (RestError_constructor_cases (JS.VStr "Success!")
                (JS.VNum (JS.ofZ 1002)) JS.VUndefined)))))
             "Success!" (inject_Z 1002)); reflexivity.
Defined.




(** ** Loading route files *)

Lemma loadRoute_extends (route : Http.Route) (srv : HttpServer.t) :
  HttpServer.stack (HttpServer.loadRoute route srv)
  = (HttpServer.stack srv
     ++ HttpServer.stack (HttpServer.loadRoute route HttpServer.empty))%list
  /\ HttpServer.log (HttpServer.loadRoute route srv)
     = (HttpServer.log srv
        ++ HttpServer.log (HttpServer.loadRoute route HttpServer.empty))%list.
Proof.
  unfold HttpServer.loadRoute.
  destruct (HttpServer.isRoute route); cbn [negb].
  - destruct (Http.guards (Http.opts route)); split; reflexivity.
  - split; [cbn; now rewrite List.app_nil_r|reflexivity].
Qed.

Lemma loadRoutes_extends (routes : list Http.Route) :
  forall srv,
    HttpServer.stack (fold_left (fun s r => HttpServer.loadRoute r s) routes srv)
    = (HttpServer.stack srv
       ++ HttpServer.stack
            (fold_left (fun s r => HttpServer.loadRoute r s) routes HttpServer.empty))%list
    /\ HttpServer.log (fold_left (fun s r => HttpServer.loadRoute r s) routes srv)
       = (HttpServer.log srv
          ++ HttpServer.log
               (fold_left (fun s r => HttpServer.loadRoute r s) routes
                  HttpServer.empty))%list.
Proof.
  induction routes as [|r routes IH]; intros srv; cbn [fold_left].
  - cbn. now rewrite !List.app_nil_r.
  - destruct (IH (HttpServer.loadRoute r srv)) as [S1 L1].
    destruct (IH (HttpServer.loadRoute r HttpServer.empty)) as [S2 L2].
    destruct (loadRoute_extends r srv) as [S3 L3].
    rewrite S1, L1, S2, L2, S3, L3. now rewrite !List.app_assoc.
Qed.

Lemma loadFile_extends (filePath : string) (rawFile : JS.completion HttpServer.Export)
  (srv : HttpServer.t) :
  HttpServer.stack (HttpServer.loadFile filePath rawFile srv)
  = (HttpServer.stack srv
     ++ HttpServer.stack (HttpServer.loadFile filePath rawFile HttpServer.empty))%list
  /\ HttpServer.log (HttpServer.loadFile filePath rawFile srv)
     = (HttpServer.log srv
        ++ HttpServer.log (HttpServer.loadFile filePath rawFile HttpServer.empty))%list.
Proof.
  destruct rawFile as [[route|routes]|e]; cbn [HttpServer.loadFile].
  - apply loadRoute_extends.
  - apply loadRoutes_extends.
  - split; [cbn; now rewrite List.app_nil_r|].
    cbn. now rewrite <- List.app_assoc.
Qed.






Lemma loadFiles_extends (files : list (string * JS.completion HttpServer.Export)) :
  forall srv,
    HttpServer.stack
      (fold_left (fun s f => HttpServer.loadFile (fst f) (snd f) s) files srv)
    = (HttpServer.stack srv
       ++ flat_map (fun f => HttpServer.stack
                               (HttpServer.loadFile (fst f) (snd f) HttpServer.empty))
            files)%list
    /\ HttpServer.log
         (fold_left (fun s f => HttpServer.loadFile (fst f) (snd f) s) files srv)
       = (HttpServer.log srv
          ++ flat_map (fun f => HttpServer.log
                                  (HttpServer.loadFile (fst f) (snd f) HttpServer.empty))
               files)%list.
Proof.
  induction files as [|f files IH]; intros srv; cbn [fold_left flat_map].
  - now rewrite !List.app_nil_r.
  - destruct (IH (HttpServer.loadFile (fst f) (snd f) srv)) as [S1 L1].
    destruct (loadFile_extends (fst f) (snd f) srv) as [S2 L2].
    rewrite S1, L1, S2, L2. now rewrite !List.app_assoc.
Qed.

(** The order in which route files are loaded changes the order of the
    router and of the log, and nothing else: loading the same files in
    another order registers the same layers and logs the same lines, each as
    many times; and the layers and lines of one file stay together, in the
    order of the file. *)
Theorem load_order_changes_order_only
  (files files' : list (string * JS.completion HttpServer.Export))
  (srv : HttpServer.t) :
  Permutation files files' ->
  Permutation
    (HttpServer.stack
       (fold_left (fun s f => HttpServer.loadFile (fst f) (snd f) s) files srv))
    (HttpServer.stack
       (fold_left (fun s f => HttpServer.loadFile (fst f) (snd f) s) files' srv))
  /\ Permutation
       (HttpServer.log
          (fold_left (fun s f => HttpServer.loadFile (fst f) (snd f) s) files srv))
       (HttpServer.log
          (fold_left (fun s f => HttpServer.loadFile (fst f) (snd f) s) files' srv))
  /\ HttpServer.stack
       (fold_left (fun s f => HttpServer.loadFile (fst f) (snd f) s) files srv)
     = (HttpServer.stack srv
        ++ flat_map (fun f => HttpServer.stack
                                (HttpServer.loadFile (fst f) (snd f) HttpServer.empty))
             files)%list.
Proof.
  intros H.
  destruct (loadFiles_extends files srv) as [S1 L1].
  destruct (loadFiles_extends files' srv) as [S2 L2].
  rewrite S1, L1, S2, L2. split; [|split; [|reflexivity]].
  - apply Permutation_app_head. now apply Permutation_flat_map.
  - apply Permutation_app_head. now apply Permutation_flat_map.
Qed.

(** The example module and a module of [Spec.shadow], loaded in the two
    orders. *)
Lemma load_order_changes_order_only_witness :
  Permutation
    (HttpServer.stack
       (fold_left (fun s f => HttpServer.loadFile (fst f) (snd f) s)
          [("api/test.js", JS.Normal (HttpServer.Many TestRoutes.exports));
           ("api/shadow.js", JS.Normal (HttpServer.Single Spec.shadow))]
          HttpServer.empty))
    (HttpServer.stack
       (fold_left (fun s f => HttpServer.loadFile (fst f) (snd f) s)
          [("api/shadow.js", JS.Normal (HttpServer.Single Spec.shadow));
           ("api/test.js", JS.Normal (HttpServer.Many TestRoutes.exports))]
          HttpServer.empty)).
Proof.
  apply (load_order_changes_order_only
           [("api/test.js", JS.Normal (HttpServer.Many TestRoutes.exports));
            ("api/shadow.js", JS.Normal (HttpServer.Single Spec.shadow))]
           [("api/shadow.js", JS.Normal (HttpServer.Single Spec.shadow));
            ("api/test.js", JS.Normal (HttpServer.Many TestRoutes.exports))]
           HttpServer.empty).
  apply perm_swap.
Defined.

(** ** Constants.ts: prefix *)

(** [prefix(routes, p)] keeps the keys and their order and puts [p] in
    front of every value, so a key is looked up to [p] followed by its old
    value; prefixing with [p] and then with [q] is prefixing with [q]
    followed by [p]; and the empty prefix changes nothing. *)
Theorem prefix_prepends_to_every_value (routes : list (string * string)) (p : string) :
  (forall key,
      Constants.get key (Constants.prefix routes p)
      = option_map (fun v => p ++ v) (Constants.get key routes))
  /\ List.map fst (Constants.prefix routes p) = List.map fst routes
  /\ (forall q,
        Constants.prefix (Constants.prefix routes p) q
        = Constants.prefix routes (q ++ p))
  /\ Constants.prefix routes "" = routes.
Proof.
  unfold Constants.prefix, Constants.get. split; [|split; [|split]].
  - intros key. induction routes as [|[k v] routes IH]; [reflexivity|].
    cbn [List.map List.find fst snd]. destruct (String.eqb k key); [reflexivity|].
    exact IH.
  - rewrite List.map_map. reflexivity.
  - intros q. rewrite List.map_map. apply List.map_ext. intros [k v]. cbn.
    now rewrite append_assoc.
  - induction routes as [|[k v] routes IH]; [reflexivity|].
    cbn [List.map fst snd]. now rewrite IH.
Qed.

(** ** The User entity *)

Section UserFacts.

Variable hash : string -> string -> string.
Variable compare : string -> string -> bool.
Variable getSignature : string -> string -> string.
Variable StringToNumber : string -> JS.number.
Variable findOne : string -> JS.completion (option User.t).
Variable findOneById : string -> JS.completion (option User.t).

Local Abbreviation setPassword := (UserEntity.setPassword hash).
Local Abbreviation passwordMatches := (UserEntity.passwordMatches compare).
Local Abbreviation createUser := (UserEntity.createUser hash).
Local Abbreviation token := (UserEntity.token getSignature findOneById).
Local Abbreviation findByToken :=
  (UserEntity.findByToken getSignature StringToNumber findOne).

(** A user without a password, or with the empty string for one, matches
    no password, whatever bcrypt would say.  Otherwise the answer is
    bcrypt's for the password and the stored hash.  [setPassword] stores the
    hash of the new password and changes nothing else, so that afterwards,
    bcrypt accepting what it hashed and no hash being empty, the new password
    matches. *)
Theorem passwordMatches_needs_a_stored_hash (u : User.t) (password : string) :
  (User.password u = None \/ User.password u = Some "" ->
   passwordMatches u password = false)
  /\ (forall encrypted,
        User.password u = Some encrypted -> encrypted <> "" ->
        passwordMatches u password = compare password encrypted)
  /\ (forall rounds,
        User.snowflake (setPassword password rounds u) = User.snowflake u
        /\ User.username (setPassword password rounds u) = User.username u
        /\ User.salt (setPassword password rounds u) = User.salt u
        /\ User.password (setPassword password rounds u) = Some (hash password rounds))
  /\ (forall rounds,
        (forall p r, hash p r <> "" /\ compare p (hash p r) = true) ->
        passwordMatches (setPassword password rounds u) password = true).
Proof.
  unfold UserEntity.passwordMatches. split; [|split; [|split]].
  - intros [-> | ->]; reflexivity.
  - intros encrypted -> Hne. apply String.eqb_neq in Hne. now rewrite Hne.
  - intros rounds. repeat split.
  - intros rounds H. cbn [UserEntity.setPassword User.password].
    destruct (H password rounds) as [Hne Hc].
    apply String.eqb_neq in Hne. now rewrite Hne.
Qed.

(** What [User.createUser] returns is the user it saved: the name given, a
    snowflake of decimal digits, a salt of hexadecimal digits, 64 of them
    when the generator gives 32 bytes, and the hash of the password.  Once
    the store finds the user under the snowflake, the token the user is
    issued resolves to that user.  When the generator of snowflakes or the
    save fails, so does [createUser], with the same error. *)
Theorem createUser_makes_a_usable_account (username password : string)
  (entropy : list N) (next : JS.completion N) (rounds : string)
  (save : User.t -> JS.completion unit) :
  (forall u,
      createUser username password entropy next rounds save = JS.Normal u ->
      save u = JS.Normal tt
      /\ User.username u = username
      /\ Security.snowflake next = JS.Normal (User.snowflake u)
      /\ Terms.allChars Terms.isDigit (User.snowflake u) = true
      /\ User.salt u = Security.random 64 entropy
      /\ Terms.allChars Terms.isHexChar (User.salt u) = true
      /\ ((32 <= List.length entropy)%nat -> String.length (User.salt u) = 64%nat)
      /\ User.password u = Some (hash password rounds)
      /\ (forall now,
            findOne (User.snowflake u) = JS.Normal (Some u) ->
            (forall secret value, Spec.noSep (getSignature secret value) = true) ->
            StringToNumber (JS.NumberToString now) = JS.ofZ now ->
            (Z.abs now <= JS.maxTime)%Z ->
            exists t,
              token u now = JS.Normal t
              /\ findByToken t = (JS.Normal (Some u), [])))
  /\ (forall err,
        next = JS.Throw err ->
        createUser username password entropy next rounds save = JS.Throw err)
  /\ (forall id err,
        next = JS.Normal id -> (forall u, save u = JS.Throw err) ->
        createUser username password entropy next rounds save = JS.Throw err).
Proof.
  unfold UserEntity.createUser, UserEntity.newSnowflake, UserEntity.newSalt.
  split; [|split].
  - intros u H. destruct next as [id|err]; cbn in H; [|discriminate H].
    match type of H with
    | match save ?v with _ => _ end = _ =>
        destruct (save v) as [[]|err] eqn:Hs; [|discriminate H]
    end.
    injection H as <-. cbn [User.username User.snowflake User.salt User.password
                             UserEntity.setPassword].
    split; [exact Hs|]. split; [reflexivity|]. split; [reflexivity|].
    split; [apply decimal_digits|]. split; [reflexivity|].
    split; [apply hex_chars|]. split.
    { intros L. unfold Security.random.
      rewrite hex_length, List.length_firstn.
      change (64 / 2)%nat with 32%nat. lia. }
    split; [reflexivity|].
    intros now Hf Hsig Hnum Hnow.
    apply (getUser_createToken getSignature StringToNumber findOne findOneById _ now);
      try assumption.
    apply digits_ascii, decimal_digits.
  - intros err ->. reflexivity.
  - intros id err -> Hs. cbn. now rewrite Hs.
Qed.

End UserFacts.

(** For [alice], whose password is not set, and after setting it under
    the stand-in for bcrypt. *)
Lemma passwordMatches_needs_a_stored_hash_witness :
  UserEntity.passwordMatches (fun _ _ => true) Sample.alice "secret" = false
  /\ UserEntity.passwordMatches Terms.compare
       (UserEntity.setPassword Terms.hash "secret" "$2b$10$" Sample.alice)
       "secret" = true.
Proof.
  split.
  - apply (proj1 (passwordMatches_needs_a_stored_hash Terms.hash
                    (fun _ _ => true) Sample.alice "secret")).
    now left.
  - apply (proj2 (proj2 (proj2
             (passwordMatches_needs_a_stored_hash Terms.hash Terms.compare
                Sample.alice "secret")))).
    intros p r. split.
    + unfold Terms.hash. destruct r; discriminate.
    + apply endsWith_spec. now exists r.
Defined.

(** For [Terms.bob]. *)
Lemma createUser_makes_a_usable_account_witness :
  String.length (User.salt Terms.bob) = 64%nat
  /\ (exists t,
        UserEntity.token Sample.getSignature Sample.findNobody Terms.bob 1530000000000
        = JS.Normal t
        /\ UserEntity.findByToken Sample.getSignature Sample.StringToNumber
             Terms.findBob t = (JS.Normal (Some Terms.bob), []))
  /\ UserEntity.createUser Terms.hash "bob" "secret" (List.repeat 171%N 32)
       (JS.Throw "clock moved backwards") "$2b$10$" (fun _ => JS.Normal tt)
     = JS.Throw "clock moved backwards".
Proof.
  pose proof (createUser_makes_a_usable_account Terms.hash Sample.getSignature
                Sample.StringToNumber Terms.findBob Sample.findNobody
                "bob" "secret" (List.repeat 171%N 32)) as H.
  split; [|split].
  - destruct (proj1 (H (JS.Normal 6934455982260225%N) "$2b$10$"
                       (fun _ => JS.Normal tt)) Terms.bob)
      as (_ & _ & _ & _ & _ & _ & L & _); [vm_compute; reflexivity|].
    apply L. cbn. lia.
  - destruct (proj1 (H (JS.Normal 6934455982260225%N) "$2b$10$"
                       (fun _ => JS.Normal tt)) Terms.bob)
      as (_ & _ & _ & _ & _ & _ & _ & _ & R); [vm_compute; reflexivity|].
    apply R.
    + reflexivity.
    + intros secret value. apply toBase64_noSep.
    + vm_compute. reflexivity.
    + unfold JS.maxTime. lia.
  - apply (proj1 (proj2 (H (JS.Throw "clock moved backwards") "$2b$10$"
                           (fun _ => JS.Normal tt)))).
    reflexivity.
Defined.

(** ** Requests through the router *)








(** ** The error middleware *)







(** A classic middleware that never calls [next()] is the whole route: a
    request is handled as by the route that has this middleware for its
    handler and nothing else, so the middleware after it, the guards and the
    handler of the route have no part in the answer. *)
Theorem blocking_middleware_is_the_whole_route (route : Http.Route)
  (first : Http.RouteHandler) (others : list Http.RouteHandler)
  (req : Http.Request) (entropy : list N) (m : Http.ModuleState) :
  HttpServer.isRoute route = true ->
  Http.classicMiddleware (Http.opts route) = Some (first :: others) ->
  Spec.neverProceeds first ->
  HttpServer.handle (HttpServer.loadRoute route HttpServer.empty) req entropy m
  = HttpServer.handle (HttpServer.loadRoute (Terms.bare route first) HttpServer.empty)
      req entropy m.
Proof.
  intros Hr Hc Hn.
  assert (Hr' : HttpServer.isRoute (Terms.bare route first) = true) by exact Hr.
  unfold HttpServer.handle, HttpServer.loadRoute.
  rewrite Hr, Hr', Hc.
  cbn [negb Terms.bare Http.opts Http.guards Http.classicMiddleware Http.method
         Http.path Http.handler].
  destruct (Http.guards (Http.opts route));
    cbn [HttpServer.stack HttpServer.register HttpServer.Logger HttpServer.empty
           List.app HttpServer.dispatch];
    unfold HttpServer.matches;
    cbn [HttpServer.layerMethod HttpServer.layerPath HttpServer.middleware
           HttpServer.endpoint HttpServer.through];
    (destruct (HttpServer.handlesMethod (Http.method (Http.opts route))
                 (Http.reqMethod req)
               && HttpServer.matchesPath (Http.path (Http.opts route)) (Http.url req));
     [ now rewrite (invoke_never_proceeds first req _
                      (HttpServer.dispatch [] req) _ Hn)
     | reflexivity ]).
Qed.

(** The example route behind [Terms.gate]: the answer is 401, and the
    counter of the example module stays at 0. *)
Lemma blocking_middleware_is_the_whole_route_witness :
  option_map (fun x => (HttpServer.response x, Http.modules x))
    (HttpServer.handle (HttpServer.loadRoute Terms.gated HttpServer.empty)
       Spec.getTest1 [] TestRoutes.initial)
  = Some (Some (401%Z, JS.VObj [("code", JS.VStr "401")]), TestRoutes.initial).
Proof.
  rewrite (blocking_middleware_is_the_whole_route Terms.gated Terms.gate []
             Spec.getTest1 [] TestRoutes.initial eq_refl eq_refl).
  - vm_compute. reflexivity.
  - intros req m [H|[H|[]]]; discriminate H.
Defined.
